(** * Scoring and allocation engine: a shallow embedding

    The development follows three services of the repository:

    - [RankingEngine]   (server/services/ranking-engine.ts): technical
      indicators over a price/volume series, component scores, signals;
    - [CoinRanking]     (the same file): the remaining component scores,
      the analysis of one coin and the ranking of the market rows;
    - [RiskScoring]     (server/services/market_data.ts, class
      RiskScoringService): the single-asset risk/reward model;
    - [StarterPortfolio] (server/services/starter-portfolio.ts): policy
      resolution, candidate filter, satellite capping, composition and the
      monthly contribution split.

    Numbers.  The source computes in IEEE doubles.  Here a finite number is
    an exact rational ([Q]); rounding error is not represented.  Values the
    source can produce outside the finite numbers (a read past the end of an
    array, a division by zero) are represented by [JS.value] in the ranking
    engine, where results depend on them.  The portfolio service keeps its
    percentages in [Q]: each of its divisions by a computed quantity is
    flagged where it occurs, and every result about it carries the
    hypothesis that keeps the divisor away from zero. *)

From Stdlib Require Import String Ascii.
From Stdlib Require Import QArith Qminmax Qround Qabs Lqa.
From Stdlib Require Import ZArith Lia List Bool.
From Stdlib Require Import Sorting.Permutation Sorting.Sorted.
From ExtLib Require Import Structures.Monad Structures.MonadExc.
From ExtLib Require Import Data.Monads.EitherMonad.
Import ListNotations.

Open Scope Q_scope.

(* ================================================================== *)
(** * Host-language numbers and arrays *)
(* ================================================================== *)

Module JS.

(** A value of static type [number] as it exists at run time. *)
Inductive value : Type :=
| Num (q : Q)     (* a finite number *)
| PInf            (* Infinity *)
| NInf            (* -Infinity *)
| NaN
| Undefined.      (* what an out-of-range array read yields *)

Definition is_number (v : value) : Prop := exists q, v = Num q.

(** [x < y] on finite numbers, as a boolean. *)
Definition Qltb (x y : Q) : bool :=
  match x ?= y with Lt => true | _ => false end.

Definition neg (a : value) : value :=
  match a with
  | Num x => Num (- x)
  | PInf => NInf
  | NInf => PInf
  | NaN | Undefined => NaN
  end.

Definition add (a b : value) : value :=
  match a, b with
  | Num x, Num y => Num (x + y)
  | NaN, _ | Undefined, _ | _, NaN | _, Undefined => NaN
  | PInf, NInf | NInf, PInf => NaN
  | PInf, _ | _, PInf => PInf
  | NInf, _ | _, NInf => NInf
  end.

Definition sub (a b : value) : value := add a (neg b).

(** The sign of an infinite product or quotient. *)
Definition signed (positive : bool) : value := if positive then PInf else NInf.

Definition inf_times (positive : bool) (y : Q) : value :=
  match y ?= 0 with
  | Eq => NaN
  | Gt => signed positive
  | Lt => signed (negb positive)
  end.

Definition mul (a b : value) : value :=
  match a, b with
  | Num x, Num y => Num (x * y)
  | NaN, _ | Undefined, _ | _, NaN | _, Undefined => NaN
  | PInf, Num y | Num y, PInf => inf_times true y
  | NInf, Num y | Num y, NInf => inf_times false y
  | PInf, PInf | NInf, NInf => PInf
  | PInf, NInf | NInf, PInf => NInf
  end.

(** Division.  A zero divisor is taken as [+0]: the sums and differences
    of this program do not produce [-0] from non-zero terms. *)
Definition div (a b : value) : value :=
  match a, b with
  | Num x, Num y =>
      if Qeq_bool y 0
      then match x ?= 0 with Eq => NaN | Gt => PInf | Lt => NInf end
      else Num (x / y)
  | NaN, _ | Undefined, _ | _, NaN | _, Undefined => NaN
  | Num _, PInf | Num _, NInf => Num 0
  | PInf, Num y => signed (negb (Qltb y 0))
  | NInf, Num y => signed (Qltb y 0)
  | PInf, PInf | PInf, NInf | NInf, PInf | NInf, NInf => NaN
  end.

(** [a < b]; every comparison with [NaN] or [undefined] is false. *)
Definition lt (a b : value) : bool :=
  match a, b with
  | Num x, Num y => Qltb x y
  | NaN, _ | Undefined, _ | _, NaN | _, Undefined => false
  | NInf, NInf | PInf, _ | _, NInf => false
  | NInf, _ | _, PInf => true
  end.

Definition gt (a b : value) : bool := lt b a.

(** [a === b]. *)
Definition strict_eq (a b : value) : bool :=
  match a, b with
  | Num x, Num y => Qeq_bool x y
  | PInf, PInf | NInf, NInf | Undefined, Undefined => true
  | _, _ => false
  end.

(** [Math.abs], [Math.max]. *)
Definition abs (a : value) : value :=
  match a with
  | Num x => Num (Qabs x)
  | PInf | NInf => PInf
  | NaN | Undefined => NaN
  end.

Definition max (a b : value) : value :=
  match a, b with
  | NaN, _ | Undefined, _ | _, NaN | _, Undefined => NaN
  | _, _ => if lt a b then b else a
  end.

(** Equality of values up to equality of rationals. *)
Definition eqv (a b : value) : Prop :=
  match a, b with
  | Num x, Num y => x == y
  | _, _ => a = b
  end.

Declare Scope js_scope.
Delimit Scope js_scope with js.
Bind Scope js_scope with value.
Notation "a + b" := (add a b) : js_scope.
Notation "a - b" := (sub a b) : js_scope.
Notation "a * b" := (mul a b) : js_scope.
Notation "a / b" := (div a b) : js_scope.
Notation "- a" := (neg a) : js_scope.

(** A number literal that is an array length or a loop bound. *)
Definition of_nat (n : nat) : Q := inject_Z (Z.of_nat n).

(** [a[i]] for an integer index. *)
Definition get (a : list Q) (i : Z) : value :=
  if (i <? 0)%Z then Undefined
  else match nth_error a (Z.to_nat i) with
       | Some x => Num x
       | None => Undefined
       end.

(** [a.slice(start, stop)]: negative positions count from the end. *)
Definition relative (len x : Z) : Z :=
  if (x <? 0)%Z then Z.max (len + x) 0 else Z.min x len.

Definition slice {A} (a : list A) (start stop : Z) : list A :=
  let len := Z.of_nat (length a) in
  let k := relative len start in
  let final := relative len stop in
  firstn (Z.to_nat (final - k)) (skipn (Z.to_nat k) a).

(** [a.slice(start)]. *)
Definition slice_from {A} (a : list A) (start : Z) : list A :=
  slice a start (Z.of_nat (length a)).

(** [a.reduce((s, x) => s + x, 0)] over finite numbers, and over values. *)
Definition sum_numbers (a : list Q) : Q := fold_left Qplus a 0.
Definition sum_values (a : list value) : value :=
  fold_left add a (Num 0).

(** The same sum by structural recursion; results about [reduce] are
    stated against it. *)
Fixpoint total (a : list Q) : Q :=
  match a with
  | [] => 0
  | x :: rest => x + total rest
  end.

(** [Math.round] on a finite number: halves go up. *)
Definition Math_round (x : Q) : Q := inject_Z (Qfloor (x + (1 # 2))).

(** [a.includes(s)] on an array of strings, [s.includes(t)] on strings,
    and [s.toLowerCase()] on the ASCII letters. *)
Definition includes (a : list string) (s : string) : bool :=
  existsb (String.eqb s) a.

Definition str_includes (s t : string) : bool :=
  match String.index 0 t s with Some _ => true | None => false end.

Definition lower_ascii (c : ascii) : ascii :=
  let n := nat_of_ascii c in
  if ((65 <=? n) && (n <=? 90))%nat then ascii_of_nat (n + 32) else c.

Fixpoint toLowerCase (s : string) : string :=
  match s with
  | EmptyString => EmptyString
  | String c s' => String (lower_ascii c) (toLowerCase s')
  end.

End JS.

Import JS.

(* ================================================================== *)
(** * server/services/ranking-engine.ts *)
(* ================================================================== *)

Module RankingEngine.

(** [calculateRSI]: the loop
    [for (i = length - period; i < length; i++)] with its two
    accumulators; [n] counts the iterations that remain. *)
Fixpoint rsi_loop (prices : list Q) (i : Z) (n : nat)
         (gains losses : value) : value * value :=
  match n with
  | O => (gains, losses)
  | S n' =>
      let change := (get prices i - get prices (i - 1))%js in
      if gt change (Num 0)
      then rsi_loop prices (i + 1) n' (gains + change)%js losses
      else rsi_loop prices (i + 1) n' gains (losses - change)%js
  end.

Definition rsi_sums (prices : list Q) (period : nat) : value * value :=
  rsi_loop prices (Z.of_nat (length prices) - Z.of_nat period) period
           (Num 0) (Num 0).

Definition calculateRSI (prices : list Q) (period : nat) : value :=
  if (length prices <? period + 1)%nat then Num 50
  else
    let '(gains, losses) := rsi_sums prices period in
    let avgGain := (gains / Num (of_nat period))%js in
    let avgLoss := (losses / Num (of_nat period))%js in
    if strict_eq avgLoss (Num 0) then Num 100
    else
      let rs := (avgGain / avgLoss)%js in
      (Num 100 - Num 100 / (Num 1 + rs))%js.

(** [calculateSMA]. *)
Definition calculateSMA (prices : list Q) (period : nat) : value :=
  if (length prices <? period)%nat
  then get prices (Z.of_nat (length prices) - 1)
  else
    let relevantPrices := slice_from prices (- Z.of_nat period) in
    (Num (sum_numbers relevantPrices) / Num (of_nat period))%js.

(** [calculateEMA]: the loop [for (i = period; i < length; i++)]. *)
Fixpoint ema_loop (prices : list Q) (multiplier : value) (i : Z) (n : nat)
         (ema : value) : value :=
  match n with
  | O => ema
  | S n' =>
      ema_loop prices multiplier (i + 1) n'
               ((get prices i - ema) * multiplier + ema)%js
  end.

Definition calculateEMA (prices : list Q) (period : nat) : value :=
  if (length prices <? period)%nat
  then get prices (Z.of_nat (length prices) - 1)
  else
    let multiplier := (Num 2 / Num (of_nat period + 1))%js in
    let ema := calculateSMA (slice prices 0 (Z.of_nat period)) period in
    ema_loop prices multiplier (Z.of_nat period)
             (length prices - period) ema.

(** [calculateMACD]; the signal line is the source's [macdLine * 0.9]. *)
Record MACD : Type := mkMACD {
  macd_value : value;
  macd_signal : value;
  histogram : value
}.

Definition calculateMACD (prices : list Q) : MACD :=
  let ema12 := calculateEMA prices 12 in
  let ema26 := calculateEMA prices 26 in
  let macdLine := (ema12 - ema26)%js in
  let signal := (macdLine * Num 0.9)%js in
  let histogram := (macdLine - signal)%js in
  mkMACD macdLine signal histogram.

Record BollingerBands : Type := mkBollinger {
  upper : value;
  middle : value;
  lower : value;
  width : value
}.

Record TechnicalIndicators : Type := mkTechnical {
  rsi : value;
  macd : MACD;
  sma20 : value;
  sma50 : value;
  ema12 : value;
  ema26 : value;
  bollingerBands : BollingerBands;
  atr : value;
  obv : value;
  volumeRatio : value
}.

Record MomentumIndicators : Type := mkMomentum {
  priceMomentum : value;
  rateOfChange : value;
  priceVelocity : value;
  trendStrength : value;
  volumeMomentum : value
}.

Inductive Trend : Type := bullish | bearish | neutral.

(** A date is kept as its time value. *)
Record MarketMetrics : Type := mkMarket {
  marketCap : Q;
  volume24h : Q;
  circulatingSupply : Q;
  totalSupply : Q;
  priceChange24h : Q;
  priceChange7d : Q;
  priceChange30d : Q;
  priceChange1y : Q;
  ath : Q;
  athDate : Q;
  atl : Q;
  atlDate : Q
}.

Record RiskMetrics : Type := mkRiskMetrics {
  volatility30d : value;
  sharpeRatio : value;
  maxDrawdown : value;
  beta : value;
  downsideDeviation : value;
  valueAtRisk : value
}.

Record CoinScore : Type := mkCoinScore {
  coinId : string;
  symbol : string;
  name : string;
  technicalScore : Q;
  momentumScore : Q;
  volumeScore : Q;
  volatilityScore : Q;
  fundamentalScore : Q;
  totalScore : Q;
  technical : TechnicalIndicators;
  market : MarketMetrics;
  momentum : MomentumIndicators;
  risk : RiskMetrics;
  signals : list string;
  trend : Trend;
  confidence : Q
}.

(** [calculateATR]: the loop [for (i = 1; i < length; i++)] collecting the
    true ranges; high and low are both the close of the day. *)
Fixpoint atr_loop (prices : list Q) (i : Z) (n : nat) : list value :=
  match n with
  | O => []
  | S n' =>
      let high := get prices i in
      let low := get prices i in
      let prevClose := get prices (i - 1) in
      let tr := max (max (abs (high - low)%js) (abs (high - prevClose)%js))
                    (abs (low - prevClose)%js) in
      tr :: atr_loop prices (i + 1) n'
  end.

Definition calculateATR (prices : list Q) (period : nat) : value :=
  if (length prices <? period + 1)%nat then Num 0
  else
    let trueRanges := atr_loop prices 1 (length prices - 1) in
    let relevantTRs := slice_from trueRanges (- Z.of_nat period) in
    (sum_values relevantTRs / Num (of_nat period))%js.

(** [calculateOBV]. *)
Fixpoint obv_loop (prices volumes : list Q) (i : Z) (n : nat)
         (obv : value) : value :=
  match n with
  | O => obv
  | S n' =>
      if gt (get prices i) (get prices (i - 1))
      then obv_loop prices volumes (i + 1) n' (obv + get volumes i)%js
      else if lt (get prices i) (get prices (i - 1))
      then obv_loop prices volumes (i + 1) n' (obv - get volumes i)%js
      else obv_loop prices volumes (i + 1) n' obv
  end.

Definition calculateOBV (prices volumes : list Q) : value :=
  if negb (length prices =? length volumes)%nat || (length prices <? 2)%nat
  then Num 0
  else obv_loop prices volumes 1 (length prices - 1) (Num 0).

(** [calculateVolumeRatio]. *)
Definition calculateVolumeRatio (volumes : list Q) : value :=
  if (length volumes <? 20)%nat then Num 1
  else
    let recent := slice_from volumes (-5) in
    let older := slice volumes (-20) (-5) in
    let avgRecent :=
      (Num (sum_numbers recent) / Num (of_nat (length recent)))%js in
    let avgOlder :=
      (Num (sum_numbers older) / Num (of_nat (length older)))%js in
    if gt avgOlder (Num 0) then (avgRecent / avgOlder)%js else Num 1.

(** The loop [for (i = 1; i < a.length; i++)] that collects the relative
    changes [(a[i] - a[i-1]) / a[i-1]]; the velocity and the risk metrics
    each run it over their own array. *)
Fixpoint returns_loop (a : list Q) (i : Z) (n : nat) : list value :=
  match n with
  | O => []
  | S n' =>
      ((get a i - get a (i - 1)) / get a (i - 1))%js
      :: returns_loop a (i + 1) n'
  end.

Definition daily_returns (a : list Q) : list value :=
  returns_loop a 1 (length a - 1).

(** [a[i]] on an array of computed values, and the stable sort
    [a.sort((x, y) => x - y)]: [x] moves behind [y] when [x - y > 0]. *)
Definition get_value (a : list value) (i : Z) : value :=
  if (i <? 0)%Z then Undefined
  else match nth_error a (Z.to_nat i) with
       | Some x => x
       | None => Undefined
       end.

Fixpoint insert_asc (x : value) (l : list value) : list value :=
  match l with
  | [] => [x]
  | y :: rest =>
      if gt (x - y)%js (Num 0) then y :: insert_asc x rest
      else x :: y :: rest
  end.

Definition sort_asc (l : list value) : list value :=
  fold_right insert_asc [] l.

Section WithSquareRoot.

(** [Math.sqrt] on the non-negative finite numbers.  Its values are
    irrational in general, so it is a parameter of the indicators that use
    it; nothing is assumed about it. *)
Variable Math_sqrt : Q -> Q.

Definition sqrt (v : value) : value :=
  match v with
  | Num x => if Qltb x 0 then NaN else Num (Math_sqrt x)
  | PInf => PInf
  | NInf | NaN | Undefined => NaN
  end.

(** [calculateBollingerBands]; [Math.pow(d, 2)] is [d * d]. *)
Definition calculateBollingerBands (prices : list Q) (period : nat)
  : BollingerBands :=
  let sma := calculateSMA prices period in
  let relevantPrices := slice_from prices (- Z.of_nat period) in
  let squaredDiffs :=
    map (fun price => ((Num price - sma) * (Num price - sma))%js)
        relevantPrices in
  let variance := (sum_values squaredDiffs / Num (of_nat period))%js in
  let stdDev := sqrt variance in
  let upper := (sma + stdDev * Num 2)%js in
  let lower := (sma - stdDev * Num 2)%js in
  let width := ((upper - lower) / sma * Num 100)%js in
  mkBollinger upper sma lower width.

Definition calculateTechnicalIndicators (prices volumes : list Q)
  : TechnicalIndicators :=
  mkTechnical
    (calculateRSI prices 14)
    (calculateMACD prices)
    (calculateSMA prices 20)
    (calculateSMA prices 50)
    (calculateEMA prices 12)
    (calculateEMA prices 26)
    (calculateBollingerBands prices 20)
    (calculateATR prices 14)
    (calculateOBV prices volumes)
    (calculateVolumeRatio volumes).

(** The mean and the mean squared deviation of an array of values. *)
Definition mean (a : list value) : value :=
  (sum_values a / Num (of_nat (length a)))%js.

Definition mean_square_deviation (a : list value) (center : value) : value :=
  (fold_left (fun sum r => (sum + (r - center) * (r - center))%js) a (Num 0)
   / Num (of_nat (length a)))%js.

(** [calculateVolatility]. *)
Definition calculateVolatility (prices : list Q) (period : nat) : value :=
  if (length prices <? period)%nat then Num 0
  else
    let relevantPrices := slice_from prices (- Z.of_nat period) in
    let returns := daily_returns relevantPrices in
    let avgReturn := mean returns in
    let variance := mean_square_deviation returns avgReturn in
    (sqrt variance * sqrt (Num 365) * Num 100)%js.

(** [calculateSharpeRatio]. *)
Definition calculateSharpeRatio (prices : list Q) : value :=
  if (length prices <? 30)%nat then Num 0
  else
    let returns := daily_returns prices in
    let avgReturn := mean returns in
    let riskFreeRate := Num (0.02 / 365) in
    let excessReturns := map (fun r => (r - riskFreeRate)%js) returns in
    let avgExcessReturn := mean excessReturns in
    let stdDev :=
      sqrt (mean_square_deviation excessReturns avgExcessReturn) in
    if gt stdDev (Num 0)
    then ((avgReturn - riskFreeRate) / stdDev * sqrt (Num 365))%js
    else Num 0.

(** [calculateMaxDrawdown]: the state of the loop is the peak and the
    largest drawdown seen. *)
Definition drawdown_step (state : value * value) (price : Q)
  : value * value :=
  let '(peak, maxDrawdown) := state in
  let peak := if gt (Num price) peak then Num price else peak in
  let drawdown := ((peak - Num price) / peak)%js in
  if gt drawdown maxDrawdown then (peak, drawdown) else (peak, maxDrawdown).

Definition calculateMaxDrawdown (prices : list Q) : value :=
  if (length prices <? 2)%nat then Num 0
  else
    let '(_, maxDrawdown) :=
      fold_left drawdown_step prices (get prices 0, Num 0) in
    (maxDrawdown * Num 100)%js.

(** [calculateBeta]. *)
Definition calculateBeta (prices : list Q) : value :=
  let volatility := calculateVolatility prices 30 in
  (volatility / Num 20)%js.

(** [calculateDownsideDeviation]. *)
Definition calculateDownsideDeviation (prices : list Q) : value :=
  if (length prices <? 2)%nat then Num 0
  else
    let returns := daily_returns prices in
    let negativeReturns := filter (fun r => lt r (Num 0)) returns in
    if (length negativeReturns =? 0)%nat then Num 0
    else
      let avgNegReturn := mean negativeReturns in
      let variance := mean_square_deviation negativeReturns avgNegReturn in
      (sqrt variance * sqrt (Num 365) * Num 100)%js.

(** [calculateValueAtRisk]. *)
Definition calculateValueAtRisk (prices : list Q) (confidence : Q) : value :=
  if (length prices <? 2)%nat then Num 0
  else
    let returns := sort_asc (daily_returns prices) in
    let index := Qfloor ((1 - confidence) * of_nat (length returns)) in
    (abs (get_value returns index) * Num 100)%js.

Definition calculateRiskMetrics (prices : list Q) : RiskMetrics :=
  mkRiskMetrics
    (calculateVolatility prices 30)
    (calculateSharpeRatio prices)
    (calculateMaxDrawdown prices)
    (calculateBeta prices)
    (calculateDownsideDeviation prices)
    (calculateValueAtRisk prices 0.95).

End WithSquareRoot.

(** [calculatePriceMomentum] and [calculateROC] have the same body. *)
Definition calculatePriceMomentum (prices : list Q) (period : nat) : value :=
  if (length prices <? period + 1)%nat then Num 0
  else
    let current := get prices (Z.of_nat (length prices) - 1) in
    let past :=
      get prices (Z.of_nat (length prices) - Z.of_nat period - 1) in
    ((current - past) / past * Num 100)%js.

Definition calculateROC (prices : list Q) (period : nat) : value :=
  if (length prices <? period + 1)%nat then Num 0
  else
    let current := get prices (Z.of_nat (length prices) - 1) in
    let past :=
      get prices (Z.of_nat (length prices) - Z.of_nat period - 1) in
    ((current - past) / past * Num 100)%js.

(** [calculateVelocity]. *)
Definition calculateVelocity (prices : list Q) : value :=
  if (length prices <? 5)%nat then Num 0
  else
    let recentPrices := slice_from prices (-5) in
    let changes := daily_returns recentPrices in
    (sum_values changes / Num (of_nat (length changes)) * Num 100)%js.

(** [calculateTrendStrength]. *)
Definition calculateTrendStrength (prices : list Q) : value :=
  if (length prices <? 20)%nat then Num 0
  else
    let sma20 := calculateSMA prices 20 in
    let current := get prices (Z.of_nat (length prices) - 1) in
    ((current - sma20) / sma20 * Num 100)%js.

(** [calculateVolumeMomentum]. *)
Definition calculateVolumeMomentum (volumes : list Q) : value :=
  if (length volumes <? 10)%nat then Num 0
  else
    let recent := slice_from volumes (-5) in
    let older := slice volumes (-10) (-5) in
    let avgRecent :=
      (Num (sum_numbers recent) / Num (of_nat (length recent)))%js in
    let avgOlder :=
      (Num (sum_numbers older) / Num (of_nat (length older)))%js in
    if gt avgOlder (Num 0)
    then ((avgRecent - avgOlder) / avgOlder * Num 100)%js
    else Num 0.

Definition calculateMomentum (prices volumes : list Q) : MomentumIndicators :=
  mkMomentum
    (calculatePriceMomentum prices 10)
    (calculateROC prices 10)
    (calculateVelocity prices)
    (calculateTrendStrength prices)
    (calculateVolumeMomentum volumes).

(** [scoreTechnical].  The score itself is a sum of literals, hence a
    finite number; the six blocks are the six [if] statements in order. *)
Definition rsi_points (technical : TechnicalIndicators) : Q :=
  if lt (rsi technical) (Num 30) then 15
  else if gt (rsi technical) (Num 70) then -15
  else 5.

Definition macd_points (technical : TechnicalIndicators) : Q :=
  if gt (histogram (macd technical)) (Num 0) then 10 else -10.

Definition sma20_points (technical : TechnicalIndicators)
           (currentPrice : value) : Q :=
  if gt currentPrice (sma20 technical) then 10 else 0.

Definition sma50_points (technical : TechnicalIndicators)
           (currentPrice : value) : Q :=
  if gt currentPrice (sma50 technical) then 10 else 0.

Definition bollinger_points (technical : TechnicalIndicators)
           (currentPrice : value) : Q :=
  let bands := bollingerBands technical in
  let bbPosition :=
    ((currentPrice - lower bands) / (upper bands - lower bands))%js in
  if lt bbPosition (Num 0.2) then 10
  else if gt bbPosition (Num 0.8) then -10
  else 0.

Definition volume_points (technical : TechnicalIndicators) : Q :=
  if gt (volumeRatio technical) (Num 1.5) then 10
  else if lt (volumeRatio technical) (Num 0.5) then -10
  else 0.

Definition scoreTechnical (technical : TechnicalIndicators)
           (currentPrice : value) : Q :=
  let score := 50 in
  let score := score + rsi_points technical in
  let score := score + macd_points technical in
  let score := score + sma20_points technical currentPrice in
  let score := score + sma50_points technical currentPrice in
  let score := score + bollinger_points technical currentPrice in
  let score := score + volume_points technical in
  Qmax 0 (Qmin 100 score).

(** [generateSignals]: the running state is the list of signals and the
    two counters.  (The field [momentum.momentum] of the source is
    [priceMomentum] here, its record and its field cannot share a name.) *)
Record SignalState : Type := mkSignals {
  emitted : list string;
  bullishCount : nat;
  bearishCount : nat
}.

Definition push_bullish (s : string) (st : SignalState) : SignalState :=
  mkSignals (emitted st ++ [s]) (S (bullishCount st)) (bearishCount st).

Definition push_bearish (s : string) (st : SignalState) : SignalState :=
  mkSignals (emitted st ++ [s]) (bullishCount st) (S (bearishCount st)).

Definition generateSignals (technical : TechnicalIndicators)
           (momentum_ : MomentumIndicators) (prices : list Q)
  : Trend * list string :=
  let st := mkSignals [] 0 0 in
  let st :=
    if lt (rsi technical) (Num 30) then push_bullish "RSI oversold" st
    else if gt (rsi technical) (Num 70) then push_bearish "RSI overbought" st
    else st in
  let st :=
    if gt (histogram (macd technical)) (Num 0)
    then push_bullish "MACD bullish" st
    else push_bearish "MACD bearish" st in
  let currentPrice := get prices (Z.of_nat (length prices) - 1) in
  let st :=
    if gt currentPrice (sma50 technical)
    then push_bullish "Above 50-day SMA" st
    else push_bearish "Below 50-day SMA" st in
  let st :=
    if gt (priceMomentum momentum_) (Num 10)
    then push_bullish "Strong momentum" st
    else if lt (priceMomentum momentum_) (Num (-10))
    then push_bearish "Weak momentum" st
    else st in
  let st :=
    if gt (volumeMomentum momentum_) (Num 20)
    then push_bullish "Volume increasing" st
    else st in
  let trend_ :=
    if (bearishCount st + 1 <? bullishCount st)%nat then bullish
    else if (bullishCount st + 1 <? bearishCount st)%nat then bearish
    else neutral in
  (trend_, emitted st).

(** Closed forms of the EMA loop on finite numbers, and the shape of a
    strictly rising series; the results below are stated with them. *)
Definition ema_fold (multiplier : Q) (rest : list Q) (seed : Q) : Q :=
  fold_left (fun ema price => (price + - ema) * multiplier + ema) rest seed.

Fixpoint increasing (prices : list Q) : Prop :=
  match prices with
  | x :: (y :: _) as rest => x < y /\ increasing rest
  | _ => True
  end.

(** The signals every rising forty-point series produces. *)
Definition rising_signals : list string :=
  ["RSI overbought"; "MACD bullish"; "Below 50-day SMA"]%string.

End RankingEngine.

(* ================================================================== *)
(** * server/services/market_data.ts, class RiskScoringService *)
(* ================================================================== *)

Module RiskScoring.

Import MonadNotation.
Local Open Scope monad_scope.

(** shared/schema.ts, [CoinDetail]; an optional field is an [option]. *)
Record CoinDetail : Type := mkCoinDetail {
  id : string;
  symbol : string;
  name : string;
  description : option string;
  image : option string;
  current_price : Q;
  market_cap : Q;
  market_cap_rank : Q;
  total_volume : Q;
  price_change_percentage_24h : Q;
  price_change_percentage_7d : Q;
  price_change_percentage_30d : Q;
  total_supply : option Q;
  max_supply : option Q;
  circulating_supply : option Q
}.

(** shared/schema.ts, [PriceHistory]: rows are [[timestamp, value]]. *)
Record PriceHistory : Type := mkHistory {
  prices : list (Q * Q);
  market_caps : list (Q * Q);
  total_volumes : list (Q * Q)
}.

Record RiskFactors : Type := mkRisk {
  volatility : Q;
  marketCap : Q;
  liquidity : Q;
  age : Q;
  development : Q;
  centralization : Q;
  regulatory : Q;
  technical : Q
}.

Record RewardFactors : Type := mkReward {
  growth : Q;
  adoption : Q;
  innovation : Q;
  partnerships : Q;
  utility : Q;
  community : Q;
  tokenomics : Q
}.

Inductive Category : Type := core | medium | high_risk | quarantine.

Record ScoreResult : Type := mkScore {
  riskScore : Q;
  rewardScore : Q;
  category : Category;
  factors : RiskFactors * RewardFactors;
  confidence : Q;
  explanation : string
}.

(** [Object.entries] of the two factor records, in declaration order. *)
Definition risk_entries (f : RiskFactors) : list (string * Q) :=
  [ ("volatility", volatility f); ("marketCap", marketCap f);
    ("liquidity", liquidity f); ("age", age f);
    ("development", development f); ("centralization", centralization f);
    ("regulatory", regulatory f); ("technical", technical f) ]%string.

Definition reward_entries (f : RewardFactors) : list (string * Q) :=
  [ ("growth", growth f); ("adoption", adoption f);
    ("innovation", innovation f); ("partnerships", partnerships f);
    ("utility", utility f); ("community", community f);
    ("tokenomics", tokenomics f) ]%string.

Definition RISK_WEIGHTS : list (string * Q) :=
  [ ("volatility", 0.25); ("marketCap", 0.20); ("liquidity", 0.15);
    ("age", 0.10); ("development", 0.10); ("centralization", 0.08);
    ("regulatory", 0.07); ("technical", 0.05) ]%string.

Definition REWARD_WEIGHTS : list (string * Q) :=
  [ ("growth", 0.20); ("adoption", 0.18); ("innovation", 0.15);
    ("utility", 0.12); ("partnerships", 0.10); ("community", 0.10);
    ("tokenomics", 0.15) ]%string.

(** [MARKET_CAP_TIERS]. *)
Definition MEGA_CAP : Q := 100000000000.
Definition LARGE_CAP : Q := 10000000000.
Definition MID_CAP : Q := 1000000000.
Definition SMALL_CAP : Q := 100000000.
Definition MICRO_CAP : Q := 10000000.

Definition Qleb := Qle_bool.

(** [calculateVolatilityScore] reads [prices[i][1]] and [prices[i-1][1]]
    for [1 <= i < length]; both reads are in range and every division is
    by a positive number, so the result is finite. *)
Fixpoint returns_loop (prices : list (Q * Q)) (i n : nat) : list Q :=
  match n with
  | O => []
  | S n' =>
      let currentPrice := snd (nth i prices (0, 0)) in
      let previousPrice := snd (nth (i - 1) prices (0, 0)) in
      if Qltb 0 previousPrice
      then (currentPrice - previousPrice) / previousPrice
           :: returns_loop prices (S i) n'
      else returns_loop prices (S i) n'
  end.

Section WithCollaborators.

(** The market-data collaborator: a call either returns or throws. *)
Variable coin : string -> string + CoinDetail.
Variable history : string -> string -> Q -> string + PriceHistory.
(** [Math.sqrt] on the non-negative numbers and the conversion of a number
    to text in a template literal. *)
Variable Math_sqrt : Q -> Q.
Variable Number_toString : Q -> string.

Definition calculateVolatilityScore (prices : list (Q * Q)) : Q :=
  if (length prices <? 2)%nat then 50
  else
    let returns := returns_loop prices 1 (length prices - 1) in
    if (length returns =? 0)%nat then 50
    else
      let mean := sum_numbers returns / of_nat (length returns) in
      let variance :=
        fold_left (fun acc ret => acc + (ret - mean) * (ret - mean))
                  returns 0 / of_nat (length returns) in
      let stdDev := Math_sqrt variance in
      Qmin 100 (Qmax 0 (stdDev * 1000)).

Definition calculateMarketCapRisk (marketCap : Q) : Q :=
  if Qeq_bool marketCap 0 || Qleb marketCap 0 then 90
  else if Qleb MEGA_CAP marketCap then 5
  else if Qleb LARGE_CAP marketCap then 15
  else if Qleb MID_CAP marketCap then 30
  else if Qleb SMALL_CAP marketCap then 50
  else if Qleb MICRO_CAP marketCap then 70
  else 90.

Definition calculateLiquidityRisk (volume marketCap : Q) : Q :=
  if Qeq_bool volume 0 || Qleb volume 0 then 95
  else if Qeq_bool marketCap 0 || Qleb marketCap 0 then 90
  else
    let volumeRatio := volume / marketCap in
    if Qleb 0.1 volumeRatio then 10
    else if Qleb 0.05 volumeRatio then 20
    else if Qleb 0.02 volumeRatio then 35
    else if Qleb 0.01 volumeRatio then 50
    else if Qleb 0.005 volumeRatio then 70
    else 90.

Definition calculateAgeRisk (coinId : string) : Q :=
  let knownOldCoins :=
    ["bitcoin"; "ethereum"; "litecoin"; "ripple"; "bitcoin-cash"]%string in
  let knownNewCoins :=
    ["solana"; "cardano"; "polkadot"; "chainlink"; "uniswap"]%string in
  if includes knownOldCoins coinId then 10
  else if includes knownNewCoins coinId then 40
  else 60.

Definition calculateDevelopmentRisk (coinId : string) : Q :=
  let activeProjects :=
    ["ethereum"; "bitcoin"; "cardano"; "solana"; "polkadot"]%string in
  if includes activeProjects coinId then 20 else 60.

Definition calculateCentralizationRisk (coinId : string) : Q :=
  let decentralizedCoins := ["bitcoin"; "ethereum"; "litecoin"]%string in
  let somewhatCentralized := ["cardano"; "solana"; "polkadot"]%string in
  if includes decentralizedCoins coinId then 15
  else if includes somewhatCentralized coinId then 40
  else 70.

Definition calculateRegulatoryRisk (coinId : string) : Q :=
  let clearRegulatory := ["bitcoin"; "ethereum"]%string in
  let unclearRegulatory := ["monero"; "zcash"]%string in
  if includes clearRegulatory coinId then 20
  else if includes unclearRegulatory coinId then 80
  else 50.

Definition calculateTechnicalRisk (coinId : string) : Q :=
  let highTech := ["ethereum"; "cardano"; "solana"; "polkadot"]%string in
  if includes highTech coinId then 20 else 50.

(** [calculateRiskFactors]: the history call sits in its own
    [try]/[catch], which keeps the default 50. *)
Definition calculateRiskFactors (data : CoinDetail)
  : string + RiskFactors :=
  volatilityScore <-
    catch (h <- history (id data) "usd" 30 ;;
           ret (calculateVolatilityScore (prices h)))
          (fun _ => ret 50) ;;
  ret (mkRisk volatilityScore
              (calculateMarketCapRisk (market_cap data))
              (calculateLiquidityRisk (total_volume data) (market_cap data))
              (calculateAgeRisk (id data))
              (calculateDevelopmentRisk (id data))
              (calculateCentralizationRisk (id data))
              (calculateRegulatoryRisk (id data))
              (calculateTechnicalRisk (id data))).

Definition calculateGrowthPotential (data : CoinDetail) : Q :=
  let recent24h := price_change_percentage_24h data in
  let recent7d := price_change_percentage_7d data in
  let recent30d := price_change_percentage_30d data in
  let momentumScore := (recent24h + recent7d + recent30d) / 3 in
  let capAdjustment :=
    if Qltb LARGE_CAP (market_cap data) then 30
    else if Qltb MID_CAP (market_cap data) then 50
    else if Qltb SMALL_CAP (market_cap data) then 70
    else 85 in
  Qmin 100 (Qmax 0 (capAdjustment + momentumScore * 2)).

Definition calculateAdoptionScore (data : CoinDetail) : Q :=
  let rankScore :=
    if Qeq_bool (market_cap_rank data) 0 then 20
    else Qmax 0 (100 - market_cap_rank data) in
  let volumeScore := Qmin 50 (total_volume data / 1000000) in
  Qmin 100 (rankScore + volumeScore).

Definition calculateInnovationScore (coinId : string) : Q :=
  let highInnovation :=
    ["ethereum"; "cardano"; "solana"; "polkadot"; "chainlink"]%string in
  let mediumInnovation := ["litecoin"; "bitcoin-cash"; "stellar"]%string in
  if includes highInnovation coinId then 80
  else if includes mediumInnovation coinId then 50
  else 30.

Definition calculatePartnershipScore (coinId : string) : Q :=
  let strongPartners :=
    ["ethereum"; "cardano"; "chainlink"; "ripple"]%string in
  if includes strongPartners coinId then 70 else 40.

Definition calculateUtilityScore (data : CoinDetail) : Q :=
  let description :=
    match description data with
    | Some d => toLowerCase d
    | None => EmptyString
    end in
  let utilityScore := 30 in
  let utilityScore :=
    if str_includes description "smart contract"
    then utilityScore + 20 else utilityScore in
  let utilityScore :=
    if str_includes description "defi"
       || str_includes description "decentralized finance"
    then utilityScore + 15 else utilityScore in
  let utilityScore :=
    if str_includes description "payment"
       || str_includes description "currency"
    then utilityScore + 10 else utilityScore in
  let utilityScore :=
    if str_includes description "oracle" || str_includes description "data"
    then utilityScore + 15 else utilityScore in
  let utilityScore :=
    if str_includes description "governance"
    then utilityScore + 10 else utilityScore in
  Qmin 100 utilityScore.

Definition calculateCommunityScore (coinId : string) : Q :=
  let strongCommunity :=
    ["bitcoin"; "ethereum"; "cardano"; "solana"]%string in
  if includes strongCommunity coinId then 80 else 45.

(** A number used as a condition: present and not zero. *)
Definition truthy (x : option Q) : bool :=
  match x with Some q => negb (Qeq_bool q 0) | None => false end.

Definition calculateTokenomicsScore (data : CoinDetail) : Q :=
  let score := 50 in
  let score :=
    match max_supply data, circulating_supply data with
    | Some m, Some c =>
        if truthy (Some m) && truthy (Some c)
        then
          let circulationRatio := c / m in
          let score := if Qltb 0.8 circulationRatio
                       then score + 10 else score in
          if Qltb circulationRatio 0.3 then score - 10 else score
        else score
    | _, _ => score
    end in
  let score :=
    match max_supply data with
    | Some m => if truthy (Some m) && Qltb 0 m then score + 15 else score - 10
    | None => score - 10
    end in
  Qmin 100 (Qmax 0 score).

Definition calculateRewardFactors (data : CoinDetail)
  : string + RewardFactors :=
  ret (mkReward (calculateGrowthPotential data)
                (calculateAdoptionScore data)
                (calculateInnovationScore (id data))
                (calculatePartnershipScore (id data))
                (calculateUtilityScore data)
                (calculateCommunityScore (id data))
                (calculateTokenomicsScore data)).

(** [calculateWeightedScore]: [weights[factor] || 0]. *)
Fixpoint weight_of (weights : list (string * Q)) (factor : string) : Q :=
  match weights with
  | [] => 0
  | (k, w) :: rest => if String.eqb k factor then w else weight_of rest factor
  end.

Definition calculateWeightedScore (factors weights : list (string * Q)) : Q :=
  fold_left (fun score entry =>
               score + snd entry * weight_of weights (fst entry))
            factors 0.

(** [determineCategory]. *)
Definition determineCategory (riskScore rewardScore : Q) (data : CoinDetail)
  : Category :=
  if Qleb 80 riskScore || (Qleb 60 riskScore && Qleb rewardScore 20)
  then quarantine
  else if Qleb riskScore 30 && Qltb LARGE_CAP (market_cap data)
  then core
  else if Qleb 70 rewardScore && Qleb 50 riskScore
  then high_risk
  else medium.

Definition calculateConfidence (data : CoinDetail) (risk : RiskFactors)
           (reward : RewardFactors) : Q :=
  let confidence := 100 in
  let confidence :=
    if Qeq_bool (market_cap data) 0 then confidence - 20 else confidence in
  let confidence :=
    if Qeq_bool (total_volume data) 0 then confidence - 15 else confidence in
  let confidence :=
    match description data with
    | Some (String _ _) => confidence
    | _ => confidence - 10
    end in
  let confidence :=
    if Qeq_bool (market_cap_rank data) 0
    then confidence - 10 else confidence in
  let confidence :=
    if Qeq_bool (volatility risk) 50 then confidence - 15 else confidence in
  Qmax 0 confidence.

Definition generateExplanation (riskScore rewardScore : Q) (c : Category)
           (data : CoinDetail) : string :=
  let riskLevel :=
    (if Qleb riskScore 30 then "low"
     else if Qleb riskScore 60 then "medium" else "high")%string in
  let rewardLevel :=
    (if Qleb rewardScore 30 then "low"
     else if Qleb rewardScore 60 then "medium" else "high")%string in
  let explanation :=
    (name data ++ " has " ++ riskLevel ++ " risk ("
     ++ Number_toString riskScore ++ "/100) and " ++ rewardLevel
     ++ " reward potential (" ++ Number_toString rewardScore
     ++ "/100). ")%string in
  match c with
  | core =>
      explanation
      ++ "This is a core holding - established, lower-risk "
      ++ "cryptocurrency suitable for portfolio foundation."
  | medium =>
      explanation
      ++ "This is a medium-risk investment with balanced "
      ++ "risk/reward characteristics."
  | high_risk =>
      explanation
      ++ "This is a high-risk, high-reward opportunity. "
      ++ "Only suitable for risk-tolerant investors."
  | quarantine =>
      explanation
      ++ "This asset is in quarantine due to high risk or "
      ++ "insufficient data. Avoid or research extensively."
  end%string.

Definition getDefaultRiskFactors : RiskFactors :=
  mkRisk 80 90 85 70 60 70 80 60.

Definition getDefaultRewardFactors : RewardFactors :=
  mkReward 10 5 10 10 15 10 20.

(** The body of the [try] block of [calculateScore]. *)
Definition calculateScore_try (coinId : string) (coinData : option CoinDetail)
  : string + ScoreResult :=
  data <- match coinData with
          | Some d => ret d
          | None => coin coinId
          end ;;
  riskFactors <- calculateRiskFactors data ;;
  rewardFactors <- calculateRewardFactors data ;;
  let riskScore :=
    calculateWeightedScore (risk_entries riskFactors) RISK_WEIGHTS in
  let rewardScore :=
    calculateWeightedScore (reward_entries rewardFactors) REWARD_WEIGHTS in
  let category := determineCategory riskScore rewardScore data in
  let confidence := calculateConfidence data riskFactors rewardFactors in
  let explanation :=
    generateExplanation riskScore rewardScore category data in
  ret (mkScore (Math_round riskScore) (Math_round rewardScore) category
               (riskFactors, rewardFactors) (Math_round confidence)
               explanation).

(** The value returned by the [catch] block. *)
Definition safe_default : ScoreResult :=
  mkScore 95 5 quarantine
          (getDefaultRiskFactors, getDefaultRewardFactors) 0
          "Unable to calculate accurate risk score due to insufficient data.".

Definition calculateScore (coinId : string) (coinData : option CoinDetail)
  : string + ScoreResult :=
  catch (calculateScore_try coinId coinData) (fun _ => ret safe_default).

End WithCollaborators.

End RiskScoring.

(* ================================================================== *)
(** * server/services/starter-portfolio.ts *)
(* ================================================================== *)

Module StarterPortfolio.

Import RankingEngine.

Inductive RiskTolerance : Type := Conservative | Balanced | Aggressive.
Inductive Experience : Type := Beginner | Intermediate | Advanced.
Inductive Horizon : Type := ShortTerm | MediumTerm | LongTerm.
Inductive Rebalance : Type := Quarterly | Semiannual | Annual.
Inductive Role : Type := core | satellite | stable.
Inductive Bucket : Type := Low | Medium | High.

Definition Bucket_eqb (a b : Bucket) : bool :=
  match a, b with
  | Low, Low | Medium, Medium | High, High => true
  | _, _ => false
  end.

(** [bucketCaps], an object with the three keys [High], [Medium], [Low]. *)
Record BucketCaps : Type := mkCaps {
  capHigh : Q;
  capMedium : Q;
  capLow : Q
}.

(** [caps[bucket]]. *)
Definition cap_of (caps : BucketCaps) (b : Bucket) : Q :=
  match b with
  | High => capHigh caps
  | Medium => capMedium caps
  | Low => capLow caps
  end.

Record RiskProfile : Type := mkProfile {
  profile_name : RiskTolerance;
  profile_coreTargetPct : Q;
  profile_btcTargetPct : Q;
  profile_ethTargetPct : Q;
  profile_stableBufferPct : Q;
  profile_satelliteTargetPct : Q;
  profile_bucketCaps : BucketCaps;
  profile_perAssetCapPct : Q;
  profile_perCategoryCapPct : Q;
  profile_holdingsTargetRange : Z * Z;
  liquidityRankLimit : Z
}.

Record Exclusions : Type := mkExclusions {
  excluded_coins : list string;
  excluded_categories : list string
}.

Record Liquidity : Type := mkLiquidity {
  minMarketCapUsd : Q;
  minVolToMcap : Q
}.

Record IntakeData : Type := mkIntake {
  experience : Experience;
  riskTolerance : RiskTolerance;
  horizon : Horizon;
  maxDrawdownComfort : Q;
  monthlyContributionUsd : Q;
  initialLumpSumUsd : option Q;
  preferredCategories : list string;
  exclusions : Exclusions;
  liquidity : Liquidity;
  holdingsRange : Z * Z;
  rebalance : Rebalance;
  stablecoinBufferPct : Q;
  practiceMode : option bool
}.

Record Dca : Type := mkDca {
  amountUsd : Q;
  cadence : string
}.

Record AllocationItem : Type := mkItem {
  item_coinId : string;
  item_symbol : string;
  item_name : string;
  role : Role;
  bucket : Bucket;
  allocationPct : Q;
  reasons : list string;
  risks : list string;
  dca : Dca
}.

Record PolicyData : Type := mkPolicy {
  policy_riskTolerance : RiskTolerance;
  coreTargetPct : Q;
  btcTargetPct : Q;
  ethTargetPct : Q;
  stableBufferPct : Q;
  satelliteTargetPct : Q;
  bucketCaps : BucketCaps;
  perAssetCapPct : Q;
  perCategoryCapPct : Q;
  holdingsTargetRange : Z * Z;
  policy_rebalance : Rebalance
}.

Record Guardrails : Type := mkGuardrails {
  maxDrawdownAlertPct : Q;
  rebalanceThresholdPct : Q;
  minLiquidityVolToMcap : Q;
  excludeFlags : list string
}.

Record StarterPortfolioResponse : Type := mkResponse {
  response_policy : PolicyData;
  allocation : list AllocationItem;
  guardrails : Guardrails;
  notes : string;
  checklist : list string
}.

(** [item.allocationPct = x] and [item.dca = d] as functional updates. *)
Definition with_allocationPct (item : AllocationItem) (x : Q)
  : AllocationItem :=
  mkItem (item_coinId item) (item_symbol item) (item_name item) (role item)
         (bucket item) x (reasons item) (risks item) (dca item).

Definition with_dca (item : AllocationItem) (d : Dca) : AllocationItem :=
  mkItem (item_coinId item) (item_symbol item) (item_name item) (role item)
         (bucket item) (allocationPct item) (reasons item) (risks item) d.

(** [riskProfiles]. *)
Definition riskProfiles (r : RiskTolerance) : RiskProfile :=
  match r with
  | Conservative =>
      mkProfile Conservative 0.75 0.50 0.25 0.15 0.10
                (mkCaps 0.00 0.60 1.0) 0.25 0.35 (6, 10)%Z 100
  | Balanced =>
      mkProfile Balanced 0.55 0.35 0.20 0.05 0.40
                (mkCaps 0.15 0.60 1.0) 0.15 0.40 (8, 12)%Z 200
  | Aggressive =>
      mkProfile Aggressive 0.40 0.24 0.16 0.05 0.55
                (mkCaps 0.30 0.60 1.0) 0.12 0.45 (10, 16)%Z 300
  end.

(** [buildPolicy].  The divisor [baseProfile.coreTargetPct] is one of the
    three non-zero literals above. *)
Definition buildPolicy (intake : IntakeData) : PolicyData :=
  let baseProfile := riskProfiles (riskTolerance intake) in
  let stableBufferPct :=
    Qmax (stablecoinBufferPct intake / 100)
         (profile_stableBufferPct baseProfile) in
  let coreTargetPct :=
    Qmax 0.3 (profile_coreTargetPct baseProfile - stableBufferPct) in
  let satelliteTargetPct := 1.0 - coreTargetPct - stableBufferPct in
  mkPolicy
    (riskTolerance intake)
    coreTargetPct
    (profile_btcTargetPct baseProfile
     * (coreTargetPct / profile_coreTargetPct baseProfile))
    (profile_ethTargetPct baseProfile
     * (coreTargetPct / profile_coreTargetPct baseProfile))
    stableBufferPct
    satelliteTargetPct
    (profile_bucketCaps baseProfile)
    (profile_perAssetCapPct baseProfile)
    (profile_perCategoryCapPct baseProfile)
    (holdingsRange intake)
    (rebalance intake).

(** The bucket of a ranked coin, from its 30-day volatility. *)
Definition bucket_of (coin : CoinScore) : Bucket :=
  if lt (volatility30d (risk coin)) (Num 30) then Low
  else if lt (volatility30d (risk coin)) (Num 70) then Medium
  else High.

(** [filterCandidates].  [rankedCoins.indexOf(coin)] is the position of
    the coin in the ranked array (its elements are distinct objects); the
    traversal carries that position. *)
Definition keep_candidate (intake : IntakeData) (policy : PolicyData)
           (index : nat) (coin : CoinScore) : bool :=
  let riskProfile := riskProfiles (riskTolerance intake) in
  if Qltb (marketCap (market coin)) (minMarketCapUsd (liquidity intake))
  then false
  else if lt (Num (volume24h (market coin)) / Num (marketCap (market coin)))%js
             (Num (minVolToMcap (liquidity intake)))
  then false
  else
    let rank := (Z.of_nat index + 1)%Z in
    if (liquidityRankLimit riskProfile <? rank)%Z then false
    else if includes (excluded_coins (exclusions intake)) (coinId coin)
    then false
    else
      let riskLevel := bucket_of coin in
      if Qeq_bool (cap_of (bucketCaps policy) riskLevel) 0 then false
      else
        let coreCoins := ["bitcoin"; "ethereum"]%string in
        let stablecoins :=
          ["usd-coin"; "tether"; "dai"; "true-usd"; "binance-usd"]%string in
        if includes coreCoins (coinId coin)
           || includes stablecoins (coinId coin)
        then false
        else true.

Fixpoint filter_from (intake : IntakeData) (policy : PolicyData)
         (index : nat) (coins : list CoinScore) : list CoinScore :=
  match coins with
  | [] => []
  | coin :: rest =>
      if keep_candidate intake policy index coin
      then coin :: filter_from intake policy (S index) rest
      else filter_from intake policy (S index) rest
  end.

Definition filterCandidates (rankedCoins : list CoinScore)
           (intake : IntakeData) (policy : PolicyData) : list CoinScore :=
  filter_from intake policy 0 rankedCoins.

(** [buildCoreAllocations]. *)
Definition buildCoreAllocations (policy : PolicyData) (intake : IntakeData)
  : list AllocationItem :=
  let allocations :=
    [ mkItem "bitcoin" "BTC" "Bitcoin" core Low (btcTargetPct policy)
             ["Digital gold standard"; "Highest liquidity"; "Store of value"]
             ["Macro sensitivity"; "Regulatory uncertainty"]
             (mkDca 0 "Monthly");
      mkItem "ethereum" "ETH" "Ethereum" core Medium (ethTargetPct policy)
             ["Smart contract platform"; "DeFi ecosystem"; "ETH 2.0 staking"]
             ["L2 competition"; "Gas fee volatility"; "Execution risk"]
             (mkDca 0 "Monthly") ]%string in
  if Qltb 0 (stableBufferPct policy)
  then allocations ++
       [ mkItem "usd-coin" "USDC" "USD Coin" stable Low
                (stableBufferPct policy)
                ["Capital preservation"; "Buy dip opportunities";
                 "Risk management"]
                ["Issuer risk"; "Regulatory risk"; "No growth potential"]
                (mkDca 0 "Monthly") ]%string
  else allocations.

(** [validateAndCapSatellites], pass by pass. *)
Definition apply_asset_cap (policy : PolicyData) (sat : AllocationItem)
  : AllocationItem :=
  if Qltb (perAssetCapPct policy) (allocationPct sat)
  then with_allocationPct sat (perAssetCapPct policy)
  else sat.

(** [bucketTotals[bucket]] after the accumulation over all satellites. *)
Definition bucket_total (b : Bucket) (satellites : list AllocationItem) : Q :=
  fold_left (fun total sat =>
               if Bucket_eqb (bucket sat) b
               then total + allocationPct sat else total)
            satellites 0.

(** One step of [Object.keys(bucketTotals).forEach].  The quotient
    [cap / total] is taken only when [total > cap]; a resolved policy has
    non-negative caps, so [total] is then positive. *)
Definition scale_bucket (policy : PolicyData) (totals : Bucket -> Q)
           (satellites : list AllocationItem) (b : Bucket)
  : list AllocationItem :=
  let total := totals b in
  let cap := cap_of (bucketCaps policy) b in
  if Qltb cap total
  then
    let scale := cap / total in
    map (fun s => if Bucket_eqb (bucket s) b
                  then with_allocationPct s (allocationPct s * scale)
                  else s)
        satellites
  else satellites.

(** [satellites.sort((a, b) => b.allocationPct - a.allocationPct)]: a
    stable sort, larger allocations first. *)
Fixpoint insert_desc (x : AllocationItem) (l : list AllocationItem)
  : list AllocationItem :=
  match l with
  | [] => [x]
  | y :: rest =>
      if Qltb 0 (allocationPct y - allocationPct x)
      then y :: insert_desc x rest
      else x :: y :: rest
  end.

Definition sort_desc (l : list AllocationItem) : list AllocationItem :=
  fold_right insert_desc [] l.

Definition validateAndCapSatellites (satellites : list AllocationItem)
           (policy : PolicyData) : list AllocationItem :=
  let satellites := map (apply_asset_cap policy) satellites in
  let bucketTotals := fun b => bucket_total b satellites in
  let satellites :=
    fold_left (scale_bucket policy bucketTotals) [High; Medium; Low]
              satellites in
  let satellites := sort_desc satellites in
  let maxHoldings := (snd (holdingsTargetRange policy) - 3)%Z in
  slice satellites 0 maxHoldings.

Section WithFormatting.

(** [n.toFixed(digits)], used only in the reasons of a fallback row. *)
Variable Number_toFixed : Q -> nat -> string.

Definition trend_name (t : Trend) : string :=
  match t with
  | bullish => "bullish"
  | bearish => "bearish"
  | neutral => "neutral"
  end.

(** [fallbackSatelliteSelection].  [targetPerSat] divides by
    [maxSatellites]; when that is zero the slice below is empty and the
    quotient is never used. *)
Definition add_limit (limits : Bucket -> Q) (b : Bucket) (x : Q)
  : Bucket -> Q :=
  fun b' => if Bucket_eqb b' b then limits b' + x else limits b'.

Fixpoint fallback_loop (policy : PolicyData) (targetPerSat : Q)
         (coins : list CoinScore) (satellites : list AllocationItem)
         (bucketLimits : Bucket -> Q) : list AllocationItem :=
  match coins with
  | [] => satellites
  | coin :: rest =>
      let bucket := bucket_of coin in
      if Qltb (bucketLimits bucket) (cap_of (bucketCaps policy) bucket)
      then
        let allocation := Qmin targetPerSat (perAssetCapPct policy) in
        let row :=
          mkItem (coinId coin) (symbol coin) (name coin) satellite bucket
                 allocation
                 [ ("Score: " ++ Number_toFixed (totalScore coin) 1)%string;
                   ("Trend: " ++ trend_name (trend coin))%string ]
                 [ "Market volatility"; "Project execution risk" ]%string
                 (mkDca 0 "Monthly") in
        fallback_loop policy targetPerSat rest (satellites ++ [row])
                      (add_limit bucketLimits bucket allocation)
      else fallback_loop policy targetPerSat rest satellites bucketLimits
  end.

Definition fallbackSatelliteSelection (candidates : list CoinScore)
           (policy : PolicyData) : list AllocationItem :=
  let maxSatellites := (snd (holdingsTargetRange policy) - 3)%Z in
  let targetPerSat := satelliteTargetPct policy / inject_Z maxSatellites in
  fallback_loop policy targetPerSat (slice candidates 0 maxSatellites)
                [] (fun _ => 0).

(** One entry of the advisory answer after [JSON.parse]. *)
Record AdvisorySatellite : Type := mkAdvisory {
  coin_id : string;
  adv_symbol : string;
  adv_name : string;
  adv_bucket : Bucket;
  allocation_pct : Q;
  adv_reasons : option (list string);
  adv_risks : option (list string)
}.

Definition or_empty (x : option (list string)) : list string :=
  match x with Some l => l | None => [] end.

(** [selectSatellitesWithAI].  The advisory service is outside the core:
    [advisory] is what the [try] block obtained, either the parsed
    [satellites] array or the exception thrown by the call or by the
    parser. *)
Definition selectSatellitesWithAI (advisory : string + list AdvisorySatellite)
           (candidates : list CoinScore) (policy : PolicyData)
           (intake : IntakeData) : list AllocationItem :=
  match advisory with
  | inr parsed =>
      let satellites :=
        map (fun sat =>
               mkItem (coin_id sat) (adv_symbol sat) (adv_name sat) satellite
                      (adv_bucket sat) (allocation_pct sat)
                      (or_empty (adv_reasons sat)) (or_empty (adv_risks sat))
                      (mkDca 0 "Monthly"))
            parsed in
      validateAndCapSatellites satellites policy
  | inl _ => fallbackSatelliteSelection candidates policy
  end.

(** [combineAndValidateAllocations].  The two [console.warn] calls have no
    effect on the result.  [1.0 / totalAllocation] is a division by a
    computed total: for a total of zero the source yields an infinite
    factor, which [Q] does not have. *)
Definition total_allocation (allocation : list AllocationItem) : Q :=
  fold_left (fun sum item => sum + allocationPct item) allocation 0.

Definition combineAndValidateAllocations
           (core_ satellites : list AllocationItem)
           (policy : PolicyData) (intake : IntakeData)
  : list AllocationItem :=
  let allocation := core_ ++ satellites in
  let totalAllocation := total_allocation allocation in
  if Qltb 0.01 (Qabs (totalAllocation - 1.0))
  then
    let scaleFactor := 1.0 / totalAllocation in
    map (fun item => with_allocationPct item (allocationPct item * scaleFactor))
        allocation
  else allocation.

(** [addDcaPlans]. *)
Definition addDcaPlans (allocation : list AllocationItem)
           (intake : IntakeData) : list AllocationItem :=
  let totalContribution := monthlyContributionUsd intake in
  map (fun item =>
         let dcaAmount :=
           Math_round ((allocationPct item * totalContribution) / 5) * 5 in
         with_dca item (mkDca (Qmax dcaAmount 5) "Monthly"))
      allocation.

Definition createGuardrails (intake : IntakeData) : Guardrails :=
  mkGuardrails (maxDrawdownComfort intake / 100) 0.05
               (minVolToMcap (liquidity intake))
               ["Regulatory"; "Exploit"; "Quarantine"]%string.

(** [a.join(", ")]. *)
Fixpoint join (l : list string) : string :=
  match l with
  | [] => ""
  | [s] => s
  | s :: rest => s ++ ", " ++ join rest
  end%string.

Definition createChecklist (allocation : list AllocationItem) : list string :=
  let coreCoins :=
    join (map item_symbol
              (filter (fun a => match role a with core => true | _ => false end)
                      allocation)) in
  let topSatellites :=
    join (map item_symbol
              (slice (sort_desc
                        (filter (fun a => match role a with
                                          | satellite => true
                                          | _ => false
                                          end)
                                allocation))
                     0 2)) in
  [ ("Enable price alerts for core holdings: " ++ coreCoins)%string;
    "Set up DCA autopay 2-3 days after income"%string;
    ("Track performance of top satellites: " ++ topSatellites)%string;
    "Review allocation quarterly for rebalancing needs"%string;
    "Reassess risk tolerance after any major drawdown"%string ].

(** [generateStarterPortfolio], steps 1 to 8.  The ranking and the
    advisory answer come from outside and are arguments here. *)
Definition generateStarterPortfolio (rankedCoins : list CoinScore)
           (advisory : string + list AdvisorySatellite) (intake : IntakeData)
  : StarterPortfolioResponse :=
  let policy := buildPolicy intake in
  let candidates := filterCandidates rankedCoins intake policy in
  let coreAllocations := buildCoreAllocations policy intake in
  let satellites := selectSatellitesWithAI advisory candidates policy intake in
  let allocation :=
    combineAndValidateAllocations coreAllocations satellites policy intake in
  let allocation := addDcaPlans allocation intake in
  mkResponse policy allocation (createGuardrails intake)
             ("This is an educational starter allocation derived from "
              ++ "app data. Not financial advice.")%string
             (createChecklist allocation).

End WithFormatting.

(** Sums by structural recursion, against which the results about the
    accumulating loops are stated: all percentages, the percentages of one
    bucket, and the monthly amounts. *)
Definition pct_total (l : list AllocationItem) : Q :=
  total (map allocationPct l).

Definition in_bucket (b : Bucket) (s : AllocationItem) : bool :=
  Bucket_eqb (bucket s) b.

Definition bucket_sum (b : Bucket) (l : list AllocationItem) : Q :=
  total (map allocationPct (filter (in_bucket b) l)).

Definition dca_total (l : list AllocationItem) : Q :=
  total (map (fun item => amountUsd (dca item)) l).

(** A row whose allocation lies between zero and a cap. *)
Definition within (cap : Q) (s : AllocationItem) : Prop :=
  0 <= allocationPct s <= cap.

End StarterPortfolio.

(* ================================================================== *)
(** * server/services/ranking-engine.ts: component scores and ranking *)
(* ================================================================== *)

Module CoinRanking.

Import RankingEngine.
Import MonadNotation.
Local Open Scope monad_scope.

(** The scoring weights of the engine. *)
Record Weights : Type := mkWeights {
  weight_technical : Q;
  weight_momentum : Q;
  weight_volume : Q;
  weight_volatility : Q;
  weight_fundamental : Q
}.

Definition weights : Weights := mkWeights 0.30 0.25 0.15 0.15 0.15.

(** [scoreMomentum]. *)
Definition scoreMomentum (momentum_ : MomentumIndicators) : Q :=
  let score := 50 in
  let score :=
    if gt (priceMomentum momentum_) (Num 10) then score + 20
    else if gt (priceMomentum momentum_) (Num 0) then score + 10
    else if lt (priceMomentum momentum_) (Num (-10)) then score - 20
    else score - 10 in
  let score :=
    if gt (trendStrength momentum_) (Num 5) then score + 15
    else if lt (trendStrength momentum_) (Num (-5)) then score - 15
    else score in
  let score :=
    if gt (volumeMomentum momentum_) (Num 20) then score + 15
    else if lt (volumeMomentum momentum_) (Num (-20)) then score - 15
    else score in
  Qmax 0 (Qmin 100 score).

(** [scoreVolume]. *)
Definition scoreVolume (market_ : MarketMetrics) (volumes : list Q) : Q :=
  let score := 50 in
  let volumeToMcap :=
    (Num (volume24h market_) / Num (marketCap market_))%js in
  let score :=
    if gt volumeToMcap (Num 0.1) then score + 20
    else if gt volumeToMcap (Num 0.05) then score + 10
    else if lt volumeToMcap (Num 0.01) then score - 20
    else score in
  let recentAvg :=
    (Num (sum_numbers (slice_from volumes (-7))) / Num 7)%js in
  let olderAvg :=
    (Num (sum_numbers (slice volumes (-30) (-7))) / Num 23)%js in
  let score :=
    if gt recentAvg (olderAvg * Num 1.5)%js then score + 20
    else if gt recentAvg olderAvg then score + 10
    else if lt recentAvg (olderAvg * Num 0.5)%js then score - 20
    else score in
  Qmax 0 (Qmin 100 score).

(** [scoreVolatility]. *)
Definition scoreVolatility (risk_ : RiskMetrics) : Q :=
  let score := 50 in
  let score :=
    if lt (volatility30d risk_) (Num 30) then score + 20
    else if lt (volatility30d risk_) (Num 50) then score + 10
    else if gt (volatility30d risk_) (Num 100) then score - 20
    else if gt (volatility30d risk_) (Num 70) then score - 10
    else score in
  let score :=
    if gt (sharpeRatio risk_) (Num 2) then score + 20
    else if gt (sharpeRatio risk_) (Num 1) then score + 10
    else if lt (sharpeRatio risk_) (Num 0) then score - 20
    else score in
  let score :=
    if lt (maxDrawdown risk_) (Num 20) then score + 10
    else if gt (maxDrawdown risk_) (Num 50) then score - 20
    else score in
  Qmax 0 (Qmin 100 score).

(** [scoreFundamentals]; [totalSupply || circulatingSupply] takes the
    second operand when the first is zero. *)
Definition scoreFundamentals (market_ : MarketMetrics) : Q :=
  let score := 50 in
  let score :=
    if Qltb 1000000000 (marketCap market_)
       && Qltb (marketCap market_) 100000000000
    then score + 20
    else if Qltb 100000000 (marketCap market_) then score + 10
    else if Qltb (marketCap market_) 10000000 then score - 20
    else score in
  let supplyRatio :=
    (Num (circulatingSupply market_)
     / Num (if Qeq_bool (totalSupply market_) 0
            then circulatingSupply market_
            else totalSupply market_))%js in
  let score :=
    if gt supplyRatio (Num 0.7) then score + 10
    else if lt supplyRatio (Num 0.3) then score - 10
    else score in
  let score :=
    if Qltb 10 (priceChange30d market_) then score + 10
    else if Qltb (priceChange30d market_) (-20) then score - 10
    else score in
  let distanceFromAth :=
    ((Num (ath market_) - Num (priceChange24h market_)) / Num (ath market_)
     * Num 100)%js in
  let score :=
    if gt distanceFromAth (Num 70) then score + 10
    else if lt distanceFromAth (Num 10) then score - 10
    else score in
  Qmax 0 (Qmin 100 score).

(** [calculateConfidence] of the ranking engine. *)
Definition calculateConfidence (technical_ : TechnicalIndicators)
           (momentum_ : MomentumIndicators) (risk_ : RiskMetrics) : Q :=
  let confidence := 50 in
  let confidence :=
    if gt (histogram (macd technical_)) (Num 0)
       && gt (rsi technical_) (Num 30) && lt (rsi technical_) (Num 70)
    then confidence + 20 else confidence in
  let confidence :=
    if gt (priceMomentum momentum_) (Num 0)
       && gt (volumeMomentum momentum_) (Num 0)
    then confidence + 15 else confidence in
  let confidence :=
    if gt (sharpeRatio risk_) (Num 1) && lt (volatility30d risk_) (Num 50)
    then confidence + 15 else confidence in
  Qmin 100 confidence.

(** shared/schema.ts, [MarketRow], as [marketDataService.markets] builds
    it: every numeric field went through [|| 0] and is a number. *)
Record MarketRow : Type := mkMarketRow {
  row_id : string;
  row_symbol : string;
  row_name : string;
  row_image : option string;
  row_current_price : Q;
  row_market_cap : Q;
  row_market_cap_rank : Q;
  row_price_change_percentage_24h : Q;
  row_total_volume : Q
}.

(** The untyped [marketData] of [analyzeCoin]: the properties the engine
    reads (the property [x] is the field [md_x]); a property the object
    does not have is [None]. *)
Record MarketData : Type := mkMarketData {
  md_id : string;
  md_symbol : string;
  md_name : string;
  md_market_cap : option Q;
  md_total_volume : option Q;
  md_circulating_supply : option Q;
  md_total_supply : option Q;
  md_price_change_percentage_24h : option Q;
  md_price_change_percentage_7d_in_currency : option Q;
  md_price_change_percentage_30d_in_currency : option Q;
  md_price_change_percentage_1y_in_currency : option Q;
  md_ath : option Q;
  md_ath_date : option string;
  md_atl : option Q;
  md_atl_date : option string
}.

(** A market row seen as such an object: it has the nine properties of
    the object literal in [markets] and no other. *)
Definition row_object (row : MarketRow) : MarketData :=
  mkMarketData (row_id row) (row_symbol row) (row_name row)
               (Some (row_market_cap row)) (Some (row_total_volume row))
               None None
               (Some (row_price_change_percentage_24h row))
               None None None None None None None.

(** [x || 0] on a number that may be missing. *)
Definition or_zero (x : option Q) : Q :=
  match x with Some q => q | None => 0 end.

(** [a.sort(compare)]: a stable sort; [x] moves behind [y] when
    [compare(x, y) > 0]. *)
Fixpoint insert_sorted {A} (compare : A -> A -> Q) (x : A) (l : list A)
  : list A :=
  match l with
  | [] => [x]
  | y :: rest =>
      if Qltb 0 (compare x y) then y :: insert_sorted compare x rest
      else x :: y :: rest
  end.

Definition sort_with {A} (compare : A -> A -> Q) (l : list A) : list A :=
  fold_right (insert_sorted compare) [] l.

(** [scores.filter(s => s !== null)]. *)
Fixpoint non_null {A} (l : list (option A)) : list A :=
  match l with
  | [] => []
  | Some x :: rest => x :: non_null rest
  | None :: rest => non_null rest
  end.

Section WithCollaborators.

(** [Math.sqrt], the clock and the date parser ([new Date(s)] as a time
    value), and the two calls of the market-data service, each of which
    either returns or throws. *)
Variable Math_sqrt : Q -> Q.
Variable Date_now : Q.
Variable Date_parse : string -> Q.
Variable markets : string -> Q -> Q -> string + list MarketRow.
Variable history : string -> string -> Q -> string + RiskScoring.PriceHistory.

(** [new Date(d || Date.now())]. *)
Definition date_or_now (d : option string) : Q :=
  match d with
  | Some (String c s) => Date_parse (String c s)
  | _ => Date_now
  end.

(** [extractMarketMetrics]. *)
Definition extractMarketMetrics (marketData : MarketData) : MarketMetrics :=
  mkMarket
    (or_zero (md_market_cap marketData))
    (or_zero (md_total_volume marketData))
    (or_zero (md_circulating_supply marketData))
    (or_zero (md_total_supply marketData))
    (or_zero (md_price_change_percentage_24h marketData))
    (or_zero (md_price_change_percentage_7d_in_currency marketData))
    (or_zero (md_price_change_percentage_30d_in_currency marketData))
    (or_zero (md_price_change_percentage_1y_in_currency marketData))
    (or_zero (md_ath marketData))
    (date_or_now (md_ath_date marketData))
    (or_zero (md_atl marketData))
    (date_or_now (md_atl_date marketData)).

(** [analyzeCoin]. *)
Definition analyzeCoin (marketData : MarketData)
           (history_ : RiskScoring.PriceHistory) : CoinScore :=
  let prices := map snd (RiskScoring.prices history_) in
  let volumes := map snd (RiskScoring.total_volumes history_) in
  let technical_ := calculateTechnicalIndicators Math_sqrt prices volumes in
  let market_ := extractMarketMetrics marketData in
  let momentum_ := calculateMomentum prices volumes in
  let risk_ := calculateRiskMetrics Math_sqrt prices in
  let technicalScore :=
    scoreTechnical technical_ (get prices (Z.of_nat (length prices) - 1)) in
  let momentumScore := scoreMomentum momentum_ in
  let volumeScore := scoreVolume market_ volumes in
  let volatilityScore := scoreVolatility risk_ in
  let fundamentalScore := scoreFundamentals market_ in
  let totalScore :=
    technicalScore * weight_technical weights
    + momentumScore * weight_momentum weights
    + volumeScore * weight_volume weights
    + volatilityScore * weight_volatility weights
    + fundamentalScore * weight_fundamental weights in
  let '(trend_, signals_) := generateSignals technical_ momentum_ prices in
  mkCoinScore (md_id marketData) (md_symbol marketData) (md_name marketData)
              technicalScore momentumScore volumeScore volatilityScore
              fundamentalScore totalScore
              technical_ market_ momentum_ risk_
              signals_ trend_
              (calculateConfidence technical_ momentum_ risk_).

(** The callback of [markets.map] in [rankCoins]: [None] is its [null],
    returned for a short history and from its [catch] block. *)
Definition analyze_or_skip (coin : MarketRow) : option CoinScore :=
  match history (row_id coin) "usd" 90 with
  | inr history_ =>
      if (length (RiskScoring.prices history_) <? 30)%nat then None
      else Some (analyzeCoin (row_object coin) history_)
  | inl _ => None
  end.

(** [rankCoins]; its [catch] block logs and rethrows. *)
Definition rankCoins (limit : Q) : string + list CoinScore :=
  catch (rows <- markets "usd" 1 limit ;;
         let scores := map analyze_or_skip rows in
         ret (sort_with (fun a b => totalScore b - totalScore a)
                        (non_null scores)))
        (fun error => raise error).

End WithCollaborators.

(** A list in descending order of a key. *)
Definition descending {A} (key : A -> Q) (l : list A) : Prop :=
  StronglySorted (fun a b => key b <= key a) l.

(** The ranges the record [CoinScore] documents for its scores. *)
Definition scores_in_range (s : CoinScore) : Prop :=
  0 <= technicalScore s <= 100
  /\ 0 <= momentumScore s <= 100
  /\ 0 <= volumeScore s <= 100
  /\ 0 <= volatilityScore s <= 100
  /\ 0 <= fundamentalScore s <= 100
  /\ 0 <= totalScore s <= 100
  /\ 50 <= confidence s <= 100.

(** The two terms of [scoreFundamentals] that a market row can feed:
    the points for the size band and the points of the last term. *)
Definition size_points (cap : Q) : Q :=
  if Qltb 1000000000 cap && Qltb cap 100000000000 then 20
  else if Qltb 100000000 cap then 10
  else if Qltb cap 10000000 then -20
  else 0.

Definition day_change_points (change : Q) : Q :=
  if Qltb change 0 then 10
  else if Qltb 0 change then -10
  else 0.

End CoinRanking.

(* ================================================================== *)
(** * Shapes of a price series *)
(* ================================================================== *)

Module Series.

(** Every two adjacent elements are related by [R]. *)
Fixpoint chain (R : Q -> Q -> Prop) (l : list Q) : Prop :=
  match l with
  | x :: (y :: _) as rest => R x y /\ chain R rest
  | _ => True
  end.


Definition positive (l : list Q) : Prop := Forall (fun p => 0 < p) l.

Definition nonnegative (l : list Q) : Prop := Forall (fun p => 0 <= p) l.

(** A value that is a finite number not below zero, or [Infinity]. *)
Definition not_below_zero (v : value) : Prop :=
  v = PInf \/ exists q, v = Num q /\ 0 <= q.

(** A value that is a finite number equal to [m]; equal to zero. *)
Definition is_value (m : Q) (v : value) : Prop :=
  exists q, v = Num q /\ q == m.

Definition is_zero (v : value) : Prop := is_value 0 v.

End Series.


(* ================================================================== *)
(** * Concrete inputs *)
(* ================================================================== *)

Module Samples.

Import RankingEngine.

(** Forty daily closes rising by one unit a day, and a shorter series. *)
Definition rising40 : list Q :=
  map (fun n => of_nat n) (seq 1 40).

Definition rising31 : list Q :=
  map (fun n => of_nat n) (seq 1 31).

(** Intakes as the intake form sends them. *)
Definition intake_for (r : StarterPortfolio.RiskTolerance)
           (holdings : Z * Z) (monthly : Q) : StarterPortfolio.IntakeData :=
  StarterPortfolio.mkIntake
    StarterPortfolio.Beginner r StarterPortfolio.LongTerm 30 monthly None []
    (StarterPortfolio.mkExclusions [] [])
    (StarterPortfolio.mkLiquidity 100000000 0.01)
    holdings StarterPortfolio.Quarterly 5 None.

Definition balanced_intake : StarterPortfolio.IntakeData :=
  intake_for StarterPortfolio.Balanced (8, 12)%Z 200.

Definition aggressive_intake : StarterPortfolio.IntakeData :=
  intake_for StarterPortfolio.Aggressive (4, 6)%Z 200.

Definition small_budget_intake : StarterPortfolio.IntakeData :=
  intake_for StarterPortfolio.Balanced (8, 12)%Z 10.

(** One advisory proposal at the per-asset cap of the balanced profile. *)
Definition high_proposal : StarterPortfolio.AdvisorySatellite :=
  StarterPortfolio.mkAdvisory
    "dogecoin" "DOGE" "Dogecoin" StarterPortfolio.High 0.15
    (Some ["Liquid"%string]) (Some ["Volatile"%string]).

(** A ranked coin with a 30-day volatility of 85, market cap 5e9 and
    daily volume 5e8; the indicator fields carry no information. *)
Definition volatile_coin (coinId symbol name : string) : CoinScore :=
  let blank := Num 0 in
  mkCoinScore
    coinId symbol name 50 50 50 50 50 50
    (mkTechnical blank (mkMACD blank blank blank) blank blank blank blank
                 (mkBollinger blank blank blank blank) blank blank blank)
    (mkMarket 5000000000 500000000 0 0 0 0 0 0 0 0 0 0)
    (mkMomentum blank blank blank blank blank)
    (mkRiskMetrics (Num 85) blank blank blank blank blank)
    [] neutral 50.

Definition volatile_ranking : list CoinScore :=
  [ volatile_coin "dogecoin" "DOGE" "Dogecoin";
    volatile_coin "shiba-inu" "SHIB" "Shiba Inu";
    volatile_coin "pepe" "PEPE" "Pepe" ]%string.

(** A three-row allocation that sums to one. *)
Definition three_rows : list StarterPortfolio.AllocationItem :=
  [ StarterPortfolio.mkItem
      "bitcoin" "BTC" "Bitcoin" StarterPortfolio.core StarterPortfolio.Low
      0.6 [] [] (StarterPortfolio.mkDca 0 "Monthly");
    StarterPortfolio.mkItem
      "ethereum" "ETH" "Ethereum" StarterPortfolio.core
      StarterPortfolio.Medium
      0.2 [] [] (StarterPortfolio.mkDca 0 "Monthly");
    StarterPortfolio.mkItem
      "usd-coin" "USDC" "USD Coin" StarterPortfolio.stable
      StarterPortfolio.Low
      0.2 [] [] (StarterPortfolio.mkDca 0 "Monthly") ]%string.

(** A large, established coin as the market-data service reports it. *)
Definition bitcoin_detail : RiskScoring.CoinDetail :=
  RiskScoring.mkCoinDetail
    "bitcoin" "btc" "Bitcoin" (Some "A peer-to-peer currency"%string) None
    60000 1200000000000 1 30000000000 1 2 3
    (Some 21000000) (Some 21000000) (Some 19500000).

(** A market-data service that is down: every call throws. *)
Definition coin_down (coinId : string) : string + RiskScoring.CoinDetail :=
  inl "HTTP 500: Internal Server Error"%string.

Definition history_down (coinId vsCurrency : string) (days : Q)
  : string + RiskScoring.PriceHistory :=
  inl "HTTP 500: Internal Server Error"%string.

End Samples.
(* ================================================================== *)
(** * Facts about numbers and arrays *)
(* ================================================================== *)

Module JSFacts.

Lemma Qltb_iff (x y : Q) : Qltb x y = true <-> x < y.
Proof.
  unfold Qltb. rewrite Qlt_alt.
  destruct (x ?= y); split; congruence.
Qed.

Lemma Qltb_false_iff (x y : Q) : Qltb x y = false <-> y <= x.
Proof.
  split; intros H.
  - apply Qnot_lt_le. intros Hlt. apply Qltb_iff in Hlt. congruence.
  - destruct (Qltb x y) eqn:E; [|reflexivity].
    apply Qltb_iff in E. exfalso. apply (Qlt_not_le _ _ E H).
Qed.

Lemma Qltb_irrefl (x : Q) : Qltb x x = false.
Proof. apply Qltb_false_iff. apply Qle_refl. Qed.

Lemma Qeq_bool_false_iff (x y : Q) : Qeq_bool x y = false <-> ~ x == y.
Proof.
  split.
  - intros H E. apply Qeq_bool_iff in E. congruence.
  - intros H. destruct (Qeq_bool x y) eqn:E; [|reflexivity].
    apply Qeq_bool_iff in E. contradiction.
Qed.

Lemma sub_Num (x y : Q) : (Num x - Num y)%js = Num (x + - y).
Proof. reflexivity. Qed.

Lemma div_Num (x y : Q) : ~ y == 0 -> (Num x / Num y)%js = Num (x / y).
Proof.
  intros H. unfold div.
  rewrite (proj2 (Qeq_bool_false_iff y 0) H). reflexivity.
Qed.

Lemma of_nat_pos (n : nat) : (0 < n)%nat -> 0 < of_nat n.
Proof.
  intros H. unfold of_nat, Qlt. simpl. lia.
Qed.

Lemma of_nat_nonzero (n : nat) : (0 < n)%nat -> ~ of_nat n == 0.
Proof.
  intros H E. pose proof (of_nat_pos n H) as P. rewrite E in P.
  apply (Qlt_irrefl 0 P).
Qed.

(** An in-range read is a finite number. *)
Lemma get_in_range (a : list Q) (i : Z) :
  (0 <= i < Z.of_nat (length a))%Z ->
  get a i = Num (nth (Z.to_nat i) a 0).
Proof.
  intros [H0 H1]. unfold get.
  destruct (i <? 0)%Z eqn:E; [apply Z.ltb_lt in E; lia|].
  destruct (nth_error a (Z.to_nat i)) eqn:N.
  - f_equal. symmetry. apply nth_error_nth. exact N.
  - apply nth_error_None in N. lia.
Qed.

Lemma get_empty (i : Z) : get [] i = Undefined.
Proof.
  unfold get. destruct (i <? 0)%Z; [reflexivity|].
  destruct (Z.to_nat i); reflexivity.
Qed.

(** The last element of a non-empty array. *)
Lemma get_last (a : list Q) :
  a <> [] -> get a (Z.of_nat (length a) - 1) = Num (last a 0).
Proof.
  intros H.
  assert (0 < length a)%nat.
  { destruct a; [congruence | simpl; lia]. }
  rewrite get_in_range by lia. f_equal.
  replace (Z.to_nat (Z.of_nat (length a) - 1)) with (length a - 1)%nat by lia.
  destruct (exists_last H) as [front [x E]]. subst a.
  rewrite last_last, length_app. simpl.
  rewrite app_nth2 by lia.
  replace (length front + 1 - 1 - length front)%nat with 0%nat by lia.
  reflexivity.
Qed.

(** [a.slice(0, n)] keeps the first [n] elements, and [a.slice(-n)] the
    last [n] when the array has that many. *)
Lemma slice_prefix {A} (a : list A) (n : nat) :
  slice a 0 (Z.of_nat n) = firstn n a.
Proof.
  unfold slice, relative.
  replace (0 <? 0)%Z with false by reflexivity.
  destruct (Z.of_nat n <? 0)%Z eqn:E; [apply Z.ltb_lt in E; lia|].
  rewrite (Z.min_l 0) by lia. simpl skipn.
  rewrite Z.sub_0_r.
  destruct (Nat.le_gt_cases n (length a)).
  - rewrite Z.min_l by lia. rewrite Nat2Z.id. reflexivity.
  - rewrite Z.min_r by lia. rewrite Nat2Z.id.
    rewrite !firstn_all2 by lia. reflexivity.
Qed.

(** Whatever the bound, [a.slice(0, stop)] is a prefix of the array. *)
Lemma slice_from_zero {A} (a : list A) (stop : Z) :
  exists k, slice a 0 stop = firstn k a.
Proof.
  unfold slice, relative.
  replace (0 <? 0)%Z with false by reflexivity.
  rewrite (Z.min_l 0) by lia. simpl skipn.
  eexists. reflexivity.
Qed.

Lemma slice_suffix {A} (a : list A) (n : nat) :
  (0 < n <= length a)%nat ->
  slice_from a (- Z.of_nat n) = skipn (length a - n) a.
Proof.
  intros H. unfold slice_from, slice, relative.
  destruct (- Z.of_nat n <? 0)%Z eqn:E; [|apply Z.ltb_ge in E; lia].
  destruct (Z.of_nat (length a) <? 0)%Z eqn:E2; [apply Z.ltb_lt in E2; lia|].
  rewrite Z.min_id. rewrite Z.max_l by lia.
  replace (Z.to_nat (Z.of_nat (length a) + - Z.of_nat n))
    with (length a - n)%nat by lia.
  apply firstn_all2. rewrite length_skipn. lia.
Qed.

(** Sums: the left fold of [reduce] against the usual recursive sum. *)
Lemma fold_plus_shift (a : list Q) (acc : Q) :
  fold_left Qplus a acc == acc + total a.
Proof.
  revert acc. induction a as [|x a IH]; intros acc; simpl.
  - ring.
  - rewrite IH. ring.
Qed.

Lemma sum_numbers_total (a : list Q) : sum_numbers a == total a.
Proof. unfold sum_numbers. rewrite fold_plus_shift. ring. Qed.

End JSFacts.

(* ================================================================== *)
(** * The indicators on short and on sufficient history *)
(* ================================================================== *)

Module RankingFacts.

Import RankingEngine JSFacts.

(** The two accumulators of the RSI loop stay finite and non-negative as
    long as every read is inside the array. *)
Lemma rsi_loop_finite (prices : list Q) (n : nat) :
  forall (i : Z) (g l : Q),
    (1 <= i)%Z -> (i + Z.of_nat n <= Z.of_nat (length prices))%Z ->
    0 <= g -> 0 <= l ->
    exists g' l',
      rsi_loop prices i n (Num g) (Num l) = (Num g', Num l')
      /\ 0 <= g' /\ 0 <= l'.
Proof.
  induction n as [|n IH]; intros i g l Hi Hn Hg Hl.
  - exists g, l. simpl. auto.
  - cbn [rsi_loop]. rewrite !get_in_range by lia. rewrite sub_Num.
    set (c := nth (Z.to_nat i) prices 0 + - nth (Z.to_nat (i - 1)) prices 0).
    unfold gt, lt. destruct (Qltb 0 c) eqn:E.
    + apply Qltb_iff in E.
      apply (IH (i + 1)%Z (g + c) l); try lia; lra.
    + apply Qltb_false_iff in E.
      apply (IH (i + 1)%Z g (l + - c)); try lia; lra.
Qed.

Lemma rsi_sums_finite (prices : list Q) (period : nat) :
  (period + 1 <= length prices)%nat ->
  exists g l,
    rsi_sums prices period = (Num g, Num l) /\ 0 <= g /\ 0 <= l.
Proof.
  intros H. unfold rsi_sums.
  apply rsi_loop_finite; try lia; apply Qle_refl.
Qed.

(** [100 - 100 / (1 + rs)] for a non-negative ratio. *)
Lemma rsi_formula_range (rs : Q) :
  0 <= rs -> 0 <= 100 + - (100 / (1 + rs)) <= 100.
Proof.
  intros H.
  assert (P : 0 < 1 + rs) by lra.
  assert (U : 100 / (1 + rs) <= 100).
  { apply Qle_shift_div_r; [exact P | lra]. }
  assert (L : 0 <= 100 / (1 + rs)).
  { apply Qle_shift_div_l; [exact P | lra]. }
  lra.
Qed.

Lemma calculateRSI_short (prices : list Q) (period : nat) :
  (length prices < period + 1)%nat -> calculateRSI prices period = Num 50.
Proof.
  intros H. unfold calculateRSI.
  rewrite (proj2 (Nat.ltb_lt _ _) H). reflexivity.
Qed.

Lemma calculateRSI_range (prices : list Q) (period : nat) :
  (0 < period)%nat -> (period + 1 <= length prices)%nat ->
  exists q, calculateRSI prices period = Num q /\ 0 <= q <= 100.
Proof.
  intros Hp Hlen. unfold calculateRSI.
  rewrite (proj2 (Nat.ltb_ge _ _) Hlen).
  destruct (rsi_sums_finite prices period Hlen) as (g & l & E & Hg & Hl).
  rewrite E.
  pose proof (of_nat_pos period Hp) as Ppos.
  rewrite !div_Num by (apply of_nat_nonzero; exact Hp).
  cbn [strict_eq].
  destruct (Qeq_bool (l / of_nat period) 0) eqn:Z0.
  - exists 100. split; [reflexivity | lra].
  - apply Qeq_bool_false_iff in Z0.
    assert (Lpos : 0 < l / of_nat period).
    { assert (0 <= l / of_nat period).
      { apply Qle_shift_div_l; [exact Ppos | lra]. }
      apply Qle_lteq in H. destruct H as [H | H]; [exact H|].
      exfalso. apply Z0. symmetry. exact H. }
    rewrite div_Num by exact Z0.
    set (rs := g / of_nat period / (l / of_nat period)).
    assert (Hrs : 0 <= rs).
    { unfold rs. apply Qle_shift_div_l; [exact Lpos|].
      rewrite Qmult_0_l. apply Qle_shift_div_l; [exact Ppos | lra]. }
    cbn [add]. rewrite div_Num by lra. rewrite sub_Num.
    eexists. split; [reflexivity|]. apply rsi_formula_range. exact Hrs.
Qed.

Lemma calculateRSI_no_loss (prices : list Q) (period : nat) (g l : Q) :
  (0 < period)%nat -> (period + 1 <= length prices)%nat ->
  rsi_sums prices period = (Num g, Num l) ->
  l / of_nat period == 0 ->
  calculateRSI prices period = Num 100.
Proof.
  intros Hp Hlen E Z0. unfold calculateRSI.
  rewrite (proj2 (Nat.ltb_ge _ _) Hlen), E.
  rewrite !div_Num by (apply of_nat_nonzero; exact Hp).
  cbn [strict_eq]. rewrite (proj2 (Qeq_bool_iff _ _) Z0). reflexivity.
Qed.

(** C3.  With period 14, a series of fewer than 15 prices gives exactly
    50; a series of at least 31 prices gives a finite value between 0 and
    100, and that value is 100 whenever the average loss over the last 14
    steps is zero. *)
Theorem calculateRSI_default_and_range (prices : list Q) :
  ((length prices < 15)%nat -> calculateRSI prices 14 = Num 50)
  /\ ((31 <= length prices)%nat ->
      (exists q, calculateRSI prices 14 = Num q /\ 0 <= q <= 100)
      /\ (forall gains losses,
             rsi_sums prices 14 = (Num gains, Num losses) ->
             losses / 14 == 0 ->
             calculateRSI prices 14 = Num 100)).
Proof.
  split.
  - intros H. apply calculateRSI_short. lia.
  - intros H. split.
    + apply calculateRSI_range; lia.
    + intros g l E Z0.
      apply (calculateRSI_no_loss prices 14 g l); try lia; assumption.
Qed.

Lemma calculateRSI_default_and_range_witness :
  calculateRSI [1; 2; 3] 14 = Num 50
  /\ (exists q, calculateRSI Samples.rising31 14 = Num q /\ 0 <= q <= 100).
Proof.
  split.
  - apply (proj1 (calculateRSI_default_and_range [1; 2; 3])).
    simpl. lia.
  - apply (proj2 (calculateRSI_default_and_range Samples.rising31)).
    simpl. lia.
Defined.

(** ** Moving averages *)

Lemma short_read (prices : list Q) :
  get prices (Z.of_nat (length prices) - 1)
  = match prices with [] => Undefined | _ => Num (last prices 0) end.
Proof.
  destruct prices as [|x rest].
  - apply get_empty.
  - apply get_last. discriminate.
Qed.

Lemma calculateSMA_short (prices : list Q) (period : nat) :
  (length prices < period)%nat ->
  calculateSMA prices period = get prices (Z.of_nat (length prices) - 1).
Proof.
  intros H. unfold calculateSMA.
  rewrite (proj2 (Nat.ltb_lt _ _) H). reflexivity.
Qed.

Lemma calculateEMA_short (prices : list Q) (period : nat) :
  (length prices < period)%nat ->
  calculateEMA prices period = get prices (Z.of_nat (length prices) - 1).
Proof.
  intros H. unfold calculateEMA.
  rewrite (proj2 (Nat.ltb_lt _ _) H). reflexivity.
Qed.

Lemma calculateSMA_finite (prices : list Q) (period : nat) :
  (0 < period <= length prices)%nat ->
  calculateSMA prices period
  = Num (sum_numbers (skipn (length prices - period) prices)
         / of_nat period).
Proof.
  intros H. unfold calculateSMA.
  rewrite (proj2 (Nat.ltb_ge _ _) (proj2 H)).
  rewrite slice_suffix by exact H.
  apply div_Num. apply of_nat_nonzero. lia.
Qed.

Lemma skipn_nth_cons (l : list Q) (k : nat) :
  (k < length l)%nat -> skipn k l = nth k l 0 :: skipn (S k) l.
Proof.
  revert k. induction l as [|x l IH]; intros k H; simpl in H; [lia|].
  destruct k as [|k]; [reflexivity|].
  simpl. apply IH. lia.
Qed.

Lemma ema_loop_finite (prices : list Q) (m : Q) (n : nat) :
  forall (i : Z) (e : Q),
    (0 <= i)%Z -> (i + Z.of_nat n <= Z.of_nat (length prices))%Z ->
    ema_loop prices (Num m) i n (Num e)
    = Num (ema_fold m (firstn n (skipn (Z.to_nat i) prices)) e).
Proof.
  induction n as [|n IH]; intros i e Hi Hn.
  - reflexivity.
  - cbn [ema_loop]. rewrite get_in_range by lia.
    rewrite sub_Num. cbn [mul add].
    rewrite IH by lia.
    rewrite (skipn_nth_cons prices (Z.to_nat i)) by lia.
    replace (Z.to_nat (i + 1)) with (S (Z.to_nat i)) by lia.
    reflexivity.
Qed.

Lemma calculateEMA_finite (prices : list Q) (period : nat) :
  (0 < period <= length prices)%nat ->
  calculateEMA prices period
  = Num (ema_fold (2 / (of_nat period + 1)) (skipn period prices)
                  (sum_numbers (firstn period prices) / of_nat period)).
Proof.
  intros H. unfold calculateEMA.
  rewrite (proj2 (Nat.ltb_ge _ _) (proj2 H)).
  pose proof (of_nat_pos period (proj1 H)) as P.
  rewrite div_Num by lra.
  rewrite slice_prefix.
  rewrite calculateSMA_finite by (rewrite length_firstn; lia).
  rewrite length_firstn, Nat.min_l by lia.
  rewrite Nat.sub_diag. cbn [skipn].
  rewrite ema_loop_finite by lia.
  rewrite Nat2Z.id.
  rewrite firstn_all2 by (rewrite length_skipn; lia).
  reflexivity.
Qed.

(** C4, as the code has it.  On a history shorter than the period the
    moving averages return the last price when there is one, and
    [undefined] on the empty series; the other indicators return their
    literal defaults.  No case raises. *)
Theorem indicators_on_short_history
        (Math_sqrt : Q -> Q) (prices volumes : list Q) (period : nat)
        (confidence : Q) :
  ((length prices < period)%nat ->
     (prices <> [] ->
        calculateSMA prices period = Num (last prices 0)
        /\ calculateEMA prices period = Num (last prices 0))
     /\ (prices = [] ->
        calculateSMA prices period = Undefined
        /\ calculateEMA prices period = Undefined)
     /\ calculateVolatility Math_sqrt prices period = Num 0)
  /\ ((length prices < period + 1)%nat ->
        calculateRSI prices period = Num 50
        /\ calculateATR prices period = Num 0
        /\ calculatePriceMomentum prices period = Num 0
        /\ calculateROC prices period = Num 0)
  /\ ((length prices < 5)%nat -> calculateVelocity prices = Num 0)
  /\ ((length prices < 20)%nat -> calculateTrendStrength prices = Num 0)
  /\ ((length prices < 2)%nat ->
        calculateOBV prices volumes = Num 0
        /\ calculateMaxDrawdown prices = Num 0
        /\ calculateDownsideDeviation Math_sqrt prices = Num 0
        /\ calculateValueAtRisk prices confidence = Num 0)
  /\ ((length prices < 30)%nat ->
        calculateSharpeRatio Math_sqrt prices = Num 0
        /\ eqv (calculateBeta Math_sqrt prices) (Num 0))
  /\ ((length volumes < 20)%nat -> calculateVolumeRatio volumes = Num 1)
  /\ ((length volumes < 10)%nat -> calculateVolumeMomentum volumes = Num 0).
Proof.
  repeat match goal with
         | |- _ /\ _ => split
         end.
  - intros H.
    rewrite calculateSMA_short, calculateEMA_short by exact H.
    rewrite short_read.
    split; [|split].
    + intros E. destruct prices; [congruence | split; reflexivity].
    + intros E. subst prices. split; reflexivity.
    + unfold calculateVolatility.
      rewrite (proj2 (Nat.ltb_lt _ _) H). reflexivity.
  - intros H.
    unfold calculateRSI, calculateATR, calculatePriceMomentum, calculateROC.
    rewrite (proj2 (Nat.ltb_lt _ _) H). repeat split.
  - intros H. unfold calculateVelocity.
    rewrite (proj2 (Nat.ltb_lt _ _) H). reflexivity.
  - intros H. unfold calculateTrendStrength.
    rewrite (proj2 (Nat.ltb_lt _ _) H). reflexivity.
  - intros H.
    unfold calculateOBV, calculateMaxDrawdown, calculateDownsideDeviation,
      calculateValueAtRisk.
    rewrite (proj2 (Nat.ltb_lt _ _) H). rewrite orb_true_r. repeat split.
  - intros H. unfold calculateSharpeRatio, calculateBeta, calculateVolatility.
    rewrite (proj2 (Nat.ltb_lt _ _) H). split; reflexivity.
  - intros H. unfold calculateVolumeRatio.
    rewrite (proj2 (Nat.ltb_lt _ _) H). reflexivity.
  - intros H. unfold calculateVolumeMomentum.
    rewrite (proj2 (Nat.ltb_lt _ _) H). reflexivity.
Qed.

Lemma indicators_on_short_history_witness :
  calculateSMA [3; 5; 4] 20 = Num 4 /\ calculateEMA [3; 5; 4] 12 = Num 4.
Proof.
  split.
  - apply (proj1 (indicators_on_short_history
                    (fun _ => 0) [3; 5; 4] [] 20 0.95));
      [simpl; lia | discriminate].
  - apply (proj1 (indicators_on_short_history
                    (fun _ => 0) [3; 5; 4] [] 12 0.95));
      [simpl; lia | discriminate].
Defined.

(** C4, as the claim words it, fails: the empty series is shorter than
    any positive period and both moving averages return [undefined]. *)
Lemma moving_average_of_empty_series_is_undefined :
  ~ (forall (prices : list Q) (period : nat),
        (length prices < period)%nat ->
        is_number (calculateSMA prices period)
        /\ is_number (calculateEMA prices period)).
Proof.
  intros H.
  destruct (H [] 20%nat) as [[q E] _]; [simpl; lia|].
  vm_compute in E. discriminate E.
Qed.

End RankingFacts.

(* ================================================================== *)
(** * A strictly rising series of forty prices *)
(* ================================================================== *)

Module RisingSeries.

Import RankingEngine JSFacts RankingFacts.

Lemma increasing_nth (l : list Q) :
  increasing l ->
  forall i, (S i < length l)%nat -> nth i l 0 < nth (S i) l 0.
Proof.
  induction l as [|x l IH]; intros H i Hi; simpl in Hi; [lia|].
  destruct l as [|y l]; simpl in Hi; [lia|].
  destruct H as [Hxy Hrest].
  destruct i as [|i]; [exact Hxy|].
  apply (IH Hrest i). simpl. lia.
Qed.

(** On a rising window every change is a gain: the loss accumulator is
    never touched. *)
Lemma rsi_loop_rising (prices : list Q) (n : nat) :
  increasing prices ->
  forall (i : Z) (g l : Q),
    (1 <= i)%Z -> (i + Z.of_nat n <= Z.of_nat (length prices))%Z ->
    exists g', rsi_loop prices i n (Num g) (Num l) = (Num g', Num l).
Proof.
  intros Hinc. induction n as [|n IH]; intros i g l Hi Hn.
  - exists g. reflexivity.
  - cbn [rsi_loop]. rewrite !get_in_range by lia. rewrite sub_Num.
    pose proof (increasing_nth prices Hinc (Z.to_nat (i - 1))) as Hstep.
    replace (S (Z.to_nat (i - 1))) with (Z.to_nat i) in Hstep by lia.
    specialize (Hstep ltac:(lia)).
    unfold gt, lt.
    rewrite (proj2 (Qltb_iff _ _)) by lra.
    apply (IH (i + 1)%Z); lia.
Qed.

Lemma calculateRSI_rising (prices : list Q) :
  (15 <= length prices)%nat -> increasing prices ->
  calculateRSI prices 14 = Num 100.
Proof.
  intros Hlen Hinc.
  destruct (rsi_loop_rising prices 14 Hinc
              (Z.of_nat (length prices) - 14)%Z 0 0) as [g E]; try lia.
  apply (calculateRSI_no_loss prices 14 g 0); try lia.
  - exact E.
  - reflexivity.
Qed.

(** Forty named prices out of a list of length forty. *)
Ltac name_elements l H :=
  repeat (destruct l as [|? l]; [simpl in H; discriminate H|]);
  destruct l as [|? l]; [|simpl in H; discriminate H].

Ltac split_chain H :=
  simpl in H;
  repeat match goal with
         | K : _ /\ _ |- _ => destruct K
         end.

Lemma current_price (prices : list Q) :
  length prices = 40%nat ->
  get prices (Z.of_nat (length prices) - 1) = Num (last prices 0).
Proof.
  intros forty. apply get_last. intros E. rewrite E in forty.
  discriminate forty.
Qed.

(** The last price lies above the mean of the last twenty. *)
Lemma last_above_sma20 (prices : list Q) :
  length prices = 40%nat -> increasing prices ->
  exists s, calculateSMA prices 20 = Num s /\ s < last prices 0.
Proof.
  intros forty rising.
  rewrite calculateSMA_finite by lia.
  eexists. split; [reflexivity|].
  rewrite forty.
  name_elements prices forty. split_chain rising.
  cbn [Nat.sub skipn last sum_numbers fold_left].
  apply Qlt_shift_div_r; [reflexivity|].
  change (of_nat 20) with 20. lra.
Qed.

(** With forty points the fifty-day average is the last price itself. *)
Lemma sma50_is_last (prices : list Q) :
  length prices = 40%nat ->
  calculateSMA prices 50 = Num (last prices 0).
Proof.
  intros forty.
  rewrite calculateSMA_short by lia. apply current_price. exact forty.
Qed.

(** ** The fast EMA against the slow one *)

Lemma ema_fold_compat (m m' : Q) (rest : list Q) :
  m == m' -> forall e e', e == e' -> ema_fold m rest e == ema_fold m' rest e'.
Proof.
  intros Hm. unfold ema_fold.
  induction rest as [|x rest IH]; intros e e' He; simpl.
  - exact He.
  - apply IH. rewrite Hm, He. reflexivity.
Qed.

Lemma ema_fold_app (m : Q) (l1 l2 : list Q) (e : Q) :
  ema_fold m (l1 ++ l2) e = ema_fold m l2 (ema_fold m l1 e).
Proof. unfold ema_fold. apply fold_left_app. Qed.

Lemma last_any_default (x : Q) (l : list Q) (a b : Q) :
  last (x :: l) a = last (x :: l) b.
Proof.
  revert x. induction l as [|y l IH]; intros x; [reflexivity|].
  change (last (y :: l) a = last (y :: l) b). apply IH.
Qed.

(** An EMA that starts at or below the price before a rising run stays at
    or below the last price of the run. *)
Lemma ema_fold_below_last (m : Q) (rest : list Q) :
  0 <= m <= 1 ->
  forall b e, increasing (b :: rest) -> e <= b ->
              ema_fold m rest e <= last rest b.
Proof.
  intros Hm. induction rest as [|x rest IH]; intros b e Hinc He.
  - exact He.
  - destruct Hinc as [Hbx Hrest].
    change (ema_fold m (x :: rest) e)
      with (ema_fold m rest ((x + - e) * m + e)).
    assert (Hstep : (x + - e) * m + e <= x).
    { assert (0 <= (x + - e) * (1 + - m)).
      { apply Qmult_le_0_compat; lra. }
      lra. }
    specialize (IH x _ Hrest Hstep).
    destruct rest as [|y rest]; [exact IH|].
    change (last (x :: y :: rest) b) with (last (y :: rest) b).
    rewrite (last_any_default y rest b x). exact IH.
Qed.

(** While the window grows by rising prices, the fast EMA stays at or
    above the running mean: [s] is the sum of the [k] prices seen so far. *)
Lemma ema_fold_above_mean (rest : list Q) :
  forall (k : nat) (b s e : Q),
    (6 <= k)%nat -> increasing (b :: rest) ->
    s <= of_nat k * e -> e <= b ->
    s + total rest
    <= of_nat (k + length rest) * ema_fold (2 # 13) rest e.
Proof.
  induction rest as [|x rest IH]; intros k b s e Hk Hinc Hs He.
  - simpl. rewrite Nat.add_0_r. lra.
  - destruct Hinc as [Hbx Hrest].
    change (ema_fold (2 # 13) (x :: rest) e)
      with (ema_fold (2 # 13) rest ((x + - e) * (2 # 13) + e)).
    simpl total. simpl length.
    replace (k + S (length rest))%nat with (S k + length rest)%nat by lia.
    assert (Hk1 : of_nat (S k) == of_nat k + 1).
    { unfold of_nat. rewrite Nat2Z.inj_succ. unfold Z.succ.
      rewrite inject_Z_plus. reflexivity. }
    assert (Hk6 : 6 <= of_nat k).
    { unfold of_nat. change 6 with (inject_Z 6).
      rewrite <- Zle_Qle. lia. }
    setoid_replace (s + (x + total rest)) with ((s + x) + total rest) by ring.
    apply (IH (S k) x); [lia | exact Hrest | | ].
    + rewrite Hk1.
      assert (0 <= (x + - e) * ((of_nat k + 1) * (2 # 13) + - (1))).
      { apply Qmult_le_0_compat; lra. }
      lra.
    + assert (0 <= (x + - e) * (1 + - (2 # 13))).
      { apply Qmult_le_0_compat; lra. }
      lra.
Qed.

(** From the same rising prices, a fast EMA that is ahead of a slow one
    stays ahead. *)
Lemma ema_fold_fast_ahead (rest : list Q) :
  forall b e12 e26,
    increasing (b :: rest) -> e26 < e12 -> e12 <= b ->
    ema_fold (2 # 27) rest e26 < ema_fold (2 # 13) rest e12.
Proof.
  induction rest as [|x rest IH]; intros b e12 e26 Hinc Hlt Hb.
  - exact Hlt.
  - destruct Hinc as [Hbx Hrest].
    change (ema_fold (2 # 27) (x :: rest) e26)
      with (ema_fold (2 # 27) rest ((x + - e26) * (2 # 27) + e26)).
    change (ema_fold (2 # 13) (x :: rest) e12)
      with (ema_fold (2 # 13) rest ((x + - e12) * (2 # 13) + e12)).
    apply (IH x); [exact Hrest | lra | lra].
Qed.

Lemma ema_fold_fast_ahead_weak (x : Q) (rest : list Q) :
  forall b e12 e26,
    increasing (b :: x :: rest) -> e26 <= e12 -> e12 <= b ->
    ema_fold (2 # 27) (x :: rest) e26 < ema_fold (2 # 13) (x :: rest) e12.
Proof.
  intros b e12 e26 [Hbx Hrest] Hle Hb.
  change (ema_fold (2 # 27) (x :: rest) e26)
    with (ema_fold (2 # 27) rest ((x + - e26) * (2 # 27) + e26)).
  change (ema_fold (2 # 13) (x :: rest) e12)
    with (ema_fold (2 # 13) rest ((x + - e12) * (2 # 13) + e12)).
  apply (ema_fold_fast_ahead rest x); [exact Hrest | lra | lra].
Qed.

(** The twelve-day EMA lies above the twenty-six-day EMA, so the MACD
    histogram is positive. *)
Lemma ema26_below_ema12 (prices : list Q) :
  length prices = 40%nat -> increasing prices ->
  ema_fold (2 # 27) (skipn 26 prices)
           (sum_numbers (firstn 26 prices) / 26)
  < ema_fold (2 # 13) (skipn 12 prices)
             (sum_numbers (firstn 12 prices) / 12).
Proof.
  intros forty rising.
  rewrite <- (firstn_skipn 14 (skipn 12 prices)).
  rewrite ema_fold_app.
  name_elements prices forty. split_chain rising.
  cbn [firstn skipn].
  match goal with
  | |- _ < ema_fold _ _ (ema_fold _ ?mid ?seed) =>
      set (e12 := ema_fold (2 # 13) mid seed);
      assert (Hmean : total [q; q0; q1; q2; q3; q4; q5; q6; q7; q8; q9; q10]
                      + total mid
                      <= of_nat (12 + length mid) * e12);
      [ apply (ema_fold_above_mean mid 12 q10);
        [ lia
        | simpl; repeat split; assumption
        | setoid_replace (of_nat 12 * seed)
            with (sum_numbers
                    [q; q0; q1; q2; q3; q4; q5; q6; q7; q8; q9; q10])
            by (change (of_nat 12) with 12; apply Qmult_div_r; discriminate);
          rewrite sum_numbers_total; apply Qle_refl
        | apply Qle_shift_div_r; [reflexivity|];
          cbn [sum_numbers fold_left]; lra ]
      | assert (Hlast : e12 <= q24);
        [ apply (ema_fold_below_last (2 # 13) mid
                   ltac:(split; discriminate) q10);
          [ simpl; repeat split; assumption
          | apply Qle_shift_div_r; [reflexivity|];
            cbn [sum_numbers fold_left]; lra ]
        | ] ]
  end.
  apply (ema_fold_fast_ahead_weak _ _ q24).
  - simpl; repeat split; assumption.
  - apply Qle_shift_div_r; [reflexivity|].
    cbn [sum_numbers fold_left length Nat.add total] in *.
    change (of_nat 26) with 26 in Hmean. lra.
  - exact Hlast.
Qed.

Lemma macd_histogram_positive (prices : list Q) :
  length prices = 40%nat -> increasing prices ->
  exists h, histogram (calculateMACD prices) = Num h /\ 0 < h.
Proof.
  intros forty rising.
  unfold calculateMACD. cbn [histogram].
  rewrite !calculateEMA_finite by lia.
  rewrite !sub_Num. cbn [mul]. rewrite sub_Num.
  eexists. split; [reflexivity|].
  pose proof (ema26_below_ema12 prices forty rising) as H.
  rewrite (ema_fold_compat (2 / (of_nat 12 + 1)) (2 # 13) _
             ltac:(reflexivity) _ _ (Qeq_refl _)).
  rewrite (ema_fold_compat (2 / (of_nat 26 + 1)) (2 # 27) _
             ltac:(reflexivity) _ _ (Qeq_refl _)).
  change (of_nat 12) with 12. change (of_nat 26) with 26.
  lra.
Qed.

(** ** Momentum and volume *)

Lemma momentum_positive (prices : list Q) :
  length prices = 40%nat -> increasing prices ->
  Forall (fun p => 0 < p) prices ->
  exists m, calculatePriceMomentum prices 10 = Num m /\ 0 < m.
Proof.
  intros forty rising positive.
  unfold calculatePriceMomentum.
  rewrite (proj2 (Nat.ltb_ge _ _)) by lia.
  rewrite !get_in_range by lia.
  rewrite forty.
  change (Z.to_nat (Z.of_nat 40 - 1)) with 39%nat.
  change (Z.to_nat (Z.of_nat 40 - Z.of_nat 10 - 1)) with 29%nat.
  pose proof (proj1 (Forall_nth _ _) positive 29%nat 0 ltac:(lia)) as Hpast.
  cbv beta in Hpast.
  assert (Hrise : nth 29 prices 0 < nth 39 prices 0).
  { clear Hpast positive.
    name_elements prices forty. split_chain rising. cbn [nth]. lra. }
  set (past := nth 29 prices 0) in *.
  set (current := nth 39 prices 0) in *.
  rewrite sub_Num. rewrite div_Num by lra. cbn [mul].
  eexists. split; [reflexivity|].
  assert (0 < (current + - past) / past).
  { apply Qlt_shift_div_l; lra. }
  lra.
Qed.

(** A constant volume gives no volume signal, whatever the volume. *)
Lemma steady_volume_momentum (v : Q) :
  gt (calculateVolumeMomentum (repeat v 40)) (Num 20) = false.
Proof.
  unfold calculateVolumeMomentum.
  change (length (repeat v 40) <? 10)%nat with false. cbv iota.
  change (slice_from (repeat v 40) (-5)) with [v; v; v; v; v].
  change (slice (repeat v 40) (-10) (-5)) with [v; v; v; v; v].
  change (of_nat (length [v; v; v; v; v])) with 5.
  rewrite !div_Num by discriminate.
  set (avg := sum_numbers [v; v; v; v; v] / 5).
  change (gt (Num avg) (Num 0)) with (Qltb 0 avg).
  destruct (Qltb 0 avg) eqn:E; [|reflexivity].
  apply Qltb_iff in E.
  rewrite sub_Num. rewrite div_Num by lra. cbn [mul gt lt].
  apply Qltb_false_iff.
  setoid_replace (avg + - avg) with 0 by ring.
  unfold Qdiv. rewrite !Qmult_0_l. discriminate.
Qed.

Lemma steady_volume_ratio (v : Q) :
  gt (calculateVolumeRatio (repeat v 40)) (Num 1.5) = false
  /\ lt (calculateVolumeRatio (repeat v 40)) (Num 0.5) = false.
Proof.
  unfold calculateVolumeRatio.
  change (length (repeat v 40) <? 20)%nat with false. cbv iota.
  change (slice_from (repeat v 40) (-5)) with [v; v; v; v; v].
  change (slice (repeat v 40) (-20) (-5))
    with [v; v; v; v; v; v; v; v; v; v; v; v; v; v; v].
  change (of_nat (length [v; v; v; v; v])) with 5.
  change (of_nat (length [v; v; v; v; v; v; v; v; v; v; v; v; v; v; v]))
    with 15.
  rewrite !div_Num by discriminate.
  set (recent := sum_numbers [v; v; v; v; v] / 5).
  set (older :=
         sum_numbers [v; v; v; v; v; v; v; v; v; v; v; v; v; v; v] / 15).
  assert (Hr : recent == v).
  { unfold recent. cbn [sum_numbers fold_left]. field. }
  assert (Ho : older == v).
  { unfold older. cbn [sum_numbers fold_left]. field. }
  change (gt (Num older) (Num 0)) with (Qltb 0 older).
  destruct (Qltb 0 older) eqn:E.
  - apply Qltb_iff in E.
    rewrite div_Num by lra. cbn [gt lt].
    assert (Hone : recent / older == 1).
    { rewrite Hr, Ho. apply Qmult_inv_r. lra. }
    split; apply Qltb_false_iff; rewrite Hone; discriminate.
  - split; reflexivity.
Qed.

(** ** What the scoring and the signals make of the series *)

Lemma rising_forty_point_series
      (Math_sqrt : Q -> Q) (prices : list Q) (v : Q) :
  length prices = 40%nat -> increasing prices ->
  Forall (fun p => 0 < p) prices ->
  let volumes := repeat v 40 in
  let technical := calculateTechnicalIndicators Math_sqrt prices volumes in
  let momentum_ := calculateMomentum prices volumes in
  let currentPrice := get prices (Z.of_nat (length prices) - 1) in
  rsi technical = Num 100
  /\ sma20_points technical currentPrice = 10
  /\ sma50 technical = currentPrice
  /\ sma50_points technical currentPrice = 0
  /\ scoreTechnical technical currentPrice
     == 55 + bollinger_points technical currentPrice
  /\ fst (generateSignals technical momentum_ prices) = neutral
  /\ (snd (generateSignals technical momentum_ prices) = rising_signals
      \/ snd (generateSignals technical momentum_ prices)
         = rising_signals ++ ["Strong momentum"%string]).
Proof.
  intros forty rising positive volumes technical momentum_ currentPrice.
  assert (Hrsi : rsi technical = Num 100).
  { apply calculateRSI_rising; [lia | exact rising]. }
  assert (Hcur : currentPrice = Num (last prices 0)).
  { apply current_price. exact forty. }
  destruct (last_above_sma20 prices forty rising) as (s20 & Hs20 & Hlt20).
  assert (H20 : sma20_points technical currentPrice = 10).
  { unfold sma20_points. cbn [sma20 technical calculateTechnicalIndicators].
    rewrite Hs20, Hcur. cbn [gt lt].
    rewrite (proj2 (Qltb_iff _ _) Hlt20). reflexivity. }
  assert (H50 : sma50 technical = currentPrice).
  { cbn [sma50 technical calculateTechnicalIndicators].
    rewrite Hcur. apply sma50_is_last. exact forty. }
  assert (Hgt50 : gt currentPrice (sma50 technical) = false).
  { rewrite H50, Hcur. cbn [gt lt]. apply Qltb_irrefl. }
  destruct (macd_histogram_positive prices forty rising) as (h & Hh & Hpos).
  assert (Hmacd : gt (histogram (macd technical)) (Num 0) = true).
  { cbn [macd technical calculateTechnicalIndicators].
    rewrite Hh. cbn [gt lt]. apply Qltb_iff. exact Hpos. }
  destruct (steady_volume_ratio v) as [Hv1 Hv2].
  destruct (momentum_positive prices forty rising positive)
    as (m & Hm & Hmpos).
  repeat split.
  - exact Hrsi.
  - exact H20.
  - exact H50.
  - unfold sma50_points. rewrite Hgt50. reflexivity.
  - unfold scoreTechnical, rsi_points, macd_points, sma50_points,
      volume_points.
    rewrite H20, Hrsi, Hmacd, Hgt50.
    cbn [volumeRatio technical calculateTechnicalIndicators].
    fold volumes. unfold volumes. rewrite Hv1, Hv2.
    change (lt (Num 100) (Num 30)) with false.
    change (gt (Num 100) (Num 70)) with true. cbv iota.
    unfold bollinger_points.
    destruct (lt _ (Num 0.2)); [reflexivity|].
    destruct (gt _ (Num 0.8)); reflexivity.
  - unfold generateSignals.
    rewrite Hrsi, Hmacd. fold currentPrice. rewrite Hgt50.
    change (lt (Num 100) (Num 30)) with false.
    change (gt (Num 100) (Num 70)) with true.
    cbn [priceMomentum volumeMomentum momentum_ calculateMomentum].
    rewrite Hm. unfold volumes. rewrite steady_volume_momentum.
    cbn [lt]. rewrite (proj2 (Qltb_false_iff m (-10))) by lra.
    destruct (gt (Num m) (Num 10)); reflexivity.
  - unfold generateSignals.
    rewrite Hrsi, Hmacd. fold currentPrice. rewrite Hgt50.
    change (lt (Num 100) (Num 30)) with false.
    change (gt (Num 100) (Num 70)) with true.
    cbn [priceMomentum volumeMomentum momentum_ calculateMomentum].
    rewrite Hm. unfold volumes. rewrite steady_volume_momentum.
    cbn [lt]. rewrite (proj2 (Qltb_false_iff m (-10))) by lra.
    destruct (gt (Num m) (Num 10)); [right | left]; reflexivity.
Qed.

(** C9, as the code has it.  For every strictly rising series of forty
    positive prices with constant volume: the RSI is 100; the bonus for a
    price above the 20-day average is applied; the bonus for a price above
    the 50-day average is not, because with fewer than fifty points that
    average is the last price itself; and the trend is neutral. *)
Theorem rising_series_is_neutral_without_sma50_bonus
        (Math_sqrt : Q -> Q) (prices : list Q) (v : Q) :
  length prices = 40%nat -> increasing prices ->
  Forall (fun p => 0 < p) prices ->
  let volumes := repeat v 40 in
  let technical := calculateTechnicalIndicators Math_sqrt prices volumes in
  let momentum_ := calculateMomentum prices volumes in
  let currentPrice := get prices (Z.of_nat (length prices) - 1) in
  calculateRSI prices 14 = Num 100
  /\ sma20_points technical currentPrice = 10
  /\ sma50_points technical currentPrice = 0
  /\ calculateSMA prices 50 = currentPrice
  /\ scoreTechnical technical currentPrice
     == 55 + bollinger_points technical currentPrice
  /\ fst (generateSignals technical momentum_ prices) = neutral.
Proof.
  intros forty rising positive volumes technical momentum_ currentPrice.
  destruct (rising_forty_point_series Math_sqrt prices v forty rising positive)
    as (H1 & H2 & H3 & H4 & H5 & H6 & _).
  repeat split; assumption.
Qed.

Lemma rising40_length : length Samples.rising40 = 40%nat.
Proof. reflexivity. Qed.

Lemma rising40_increasing : increasing Samples.rising40.
Proof. simpl. repeat split; reflexivity. Qed.

Lemma rising40_positive : Forall (fun p => 0 < p) Samples.rising40.
Proof. repeat constructor. Qed.

Lemma rising_series_is_neutral_without_sma50_bonus_witness :
  let prices := Samples.rising40 in
  let volumes := repeat 1000 40 in
  let technical :=
    calculateTechnicalIndicators (fun _ => 0) prices volumes in
  let momentum_ := calculateMomentum prices volumes in
  let currentPrice := get prices (Z.of_nat (length prices) - 1) in
  calculateRSI prices 14 = Num 100
  /\ sma20_points technical currentPrice = 10
  /\ sma50_points technical currentPrice = 0
  /\ calculateSMA prices 50 = currentPrice
  /\ scoreTechnical technical currentPrice
     == 55 + bollinger_points technical currentPrice
  /\ fst (generateSignals technical momentum_ prices) = neutral.
Proof.
  exact (rising_series_is_neutral_without_sma50_bonus
           (fun _ => 0) Samples.rising40 1000
           rising40_length rising40_increasing rising40_positive).
Defined.

(** C9, as the claim words it, fails on the series 1, 2, ..., 40 with
    volume 1000: the 50-day bonus is not applied and the trend is not
    bullish. *)
Lemma rising_series_is_not_bullish :
  ~ (forall (Math_sqrt : Q -> Q) (prices : list Q) (v : Q),
        length prices = 40%nat -> increasing prices ->
        Forall (fun p => 0 < p) prices ->
        let volumes := repeat v 40 in
        let technical :=
          calculateTechnicalIndicators Math_sqrt prices volumes in
        let momentum_ := calculateMomentum prices volumes in
        let currentPrice := get prices (Z.of_nat (length prices) - 1) in
        calculateRSI prices 14 = Num 100
        /\ sma20_points technical currentPrice = 10
        /\ sma50_points technical currentPrice = 10
        /\ fst (generateSignals technical momentum_ prices) = bullish).
Proof.
  intros H.
  destruct (H (fun _ => 0) Samples.rising40 1000
              rising40_length rising40_increasing rising40_positive)
    as (_ & _ & _ & Hbull).
  destruct (rising_forty_point_series
              (fun _ => 0) Samples.rising40 1000
              rising40_length rising40_increasing rising40_positive)
    as (_ & _ & _ & _ & _ & Hneutral & _).
  rewrite Hneutral in Hbull. discriminate Hbull.
Qed.

End RisingSeries.

(* ================================================================== *)
(** * The risk/reward model *)
(* ================================================================== *)

Module RiskFacts.

Import RiskScoring JSFacts.

Lemma Qleb_iff (x y : Q) : Qleb x y = true <-> x <= y.
Proof. apply Qle_bool_iff. Qed.






(** The test on the market cap is strict: a cap of exactly the threshold
    does not make a coin core. *)
Lemma threshold_cap_is_not_core (riskScore rewardScore : Q)
      (data : CoinDetail) :
  market_cap data == LARGE_CAP ->
  determineCategory riskScore rewardScore data <> core.
Proof.
  intros E. unfold determineCategory.
  assert (T : Qltb LARGE_CAP (market_cap data) = false).
  { apply Qltb_false_iff. rewrite E. apply Qle_refl. }
  rewrite T, andb_false_r.
  destruct (Qleb 80 riskScore || (Qleb 60 riskScore && Qleb rewardScore 20));
    [discriminate|].
  destruct (Qleb 70 rewardScore && Qleb 50 riskScore); discriminate.
Qed.

(** ** [calculateScore] and its [catch] block *)

Section Collaborators.

Variable coin : string -> string + CoinDetail.
Variable history : string -> string -> Q -> string + PriceHistory.
Variable Math_sqrt : Q -> Q.
Variable Number_toString : Q -> string.


(** A failing history call is absorbed by the inner handler. *)
Lemma calculateRiskFactors_returns (data : CoinDetail) :
  exists f, calculateRiskFactors history Math_sqrt data = inr f.
Proof.
  unfold calculateRiskFactors.
  destruct (history (id data) "usd" 30) as [e | h]; eexists; reflexivity.
Qed.

Lemma history_failure_keeps_default (data : CoinDetail) (e : string) :
  history (id data) "usd" 30 = inl e ->
  exists f, calculateRiskFactors history Math_sqrt data = inr f
            /\ volatility f = 50.
Proof.
  intros H. unfold calculateRiskFactors. rewrite H.
  eexists. split; reflexivity.
Qed.

(** The [try] block fails exactly when the coin has to be fetched and the
    fetch throws. *)
Lemma attempt_failure (coinId : string) (coinData : option CoinDetail)
      (e : string) :
  calculateScore_try coin history Math_sqrt Number_toString coinId coinData
  = inl e
  <-> coinData = None /\ coin coinId = inl e.
Proof.
  unfold calculateScore_try.
  destruct coinData as [d | ].
  - cbn -[calculateRiskFactors].
    destruct (calculateRiskFactors_returns d) as [f E]. rewrite E. cbn.
    split; [discriminate | intros [H _]; discriminate H].
  - destruct (coin coinId) as [e' | d] eqn:C.
    + cbn. split.
      * intros H. split; [reflexivity | congruence].
      * intros [_ H]. congruence.
    + cbn -[calculateRiskFactors].
      destruct (calculateRiskFactors_returns d) as [f E]. rewrite E. cbn.
      split; [discriminate | intros [_ H]; discriminate H].
Qed.

(** C7.  [calculateScore] always returns a result.  When a step of its
    [try] block throws, the result is the safe default: category
    quarantine, confidence 0, risk 95, reward 5 and the generic
    explanation; otherwise it is the computed score. *)
Theorem calculateScore_never_raises (coinId : string)
        (coinData : option CoinDetail) :
  let attempt :=
    calculateScore_try coin history Math_sqrt Number_toString
                       coinId coinData in
  let answer :=
    calculateScore coin history Math_sqrt Number_toString coinId coinData in
  (exists r, answer = inr r)
  /\ (forall e, attempt = inl e -> answer = inr safe_default)
  /\ (forall e, coinData = None -> coin coinId = inl e ->
                answer = inr safe_default)
  /\ (forall r, attempt = inr r -> answer = inr r)
  /\ category safe_default = quarantine
  /\ confidence safe_default = 0
  /\ riskScore safe_default = 95
  /\ rewardScore safe_default = 5
  /\ explanation safe_default
     = ("Unable to calculate accurate risk score "
        ++ "due to insufficient data.")%string.
Proof.
  intros attempt answer.
  assert (Hfail : forall e, attempt = inl e -> answer = inr safe_default).
  { intros e H. unfold answer, calculateScore. fold attempt.
    rewrite H. reflexivity. }
  assert (Hok : forall r, attempt = inr r -> answer = inr r).
  { intros r H. unfold answer, calculateScore. fold attempt.
    rewrite H. reflexivity. }
  repeat split; try reflexivity.
  - destruct attempt as [e | r] eqn:E.
    + exists safe_default. apply (Hfail e). reflexivity.
    + exists r. apply Hok. reflexivity.
  - exact Hfail.
  - intros e Hnone Hcoin. apply (Hfail e).
    apply attempt_failure. split; assumption.
  - exact Hok.
Qed.

End Collaborators.

Lemma calculateScore_never_raises_witness :
  calculateScore Samples.coin_down Samples.history_down
                 (fun _ => 0) (fun _ => "?"%string) "bitcoin" None
  = inr safe_default.
Proof.
  apply (proj1 (proj2 (proj2
           (calculateScore_never_raises
              Samples.coin_down Samples.history_down
              (fun _ => 0) (fun _ => "?"%string) "bitcoin" None)))
           "HTTP 500: Internal Server Error"%string);
    reflexivity.
Defined.

End RiskFacts.

(* ================================================================== *)
(** * Policy resolution and composition *)
(* ================================================================== *)

Module PortfolioFacts.

Import RankingEngine StarterPortfolio JSFacts.

(** ** The resolved policy *)

Lemma profile_core_split (r : RiskTolerance) :
  profile_btcTargetPct (riskProfiles r) + profile_ethTargetPct (riskProfiles r)
  == profile_coreTargetPct (riskProfiles r)
  /\ 0 < profile_coreTargetPct (riskProfiles r)
  /\ 0 < profile_btcTargetPct (riskProfiles r)
  /\ 0 < profile_ethTargetPct (riskProfiles r)
  /\ 0 < profile_stableBufferPct (riskProfiles r)
  /\ 0 < profile_perAssetCapPct (riskProfiles r).
Proof. destruct r; repeat split. Qed.

Lemma profile_caps_nonneg (r : RiskTolerance) (b : Bucket) :
  0 <= cap_of (profile_bucketCaps (riskProfiles r)) b.
Proof. destruct r, b; discriminate. Qed.

Lemma buildPolicy_core_floor (intake : IntakeData) :
  0.3 <= coreTargetPct (buildPolicy intake).
Proof. apply Q.le_max_l. Qed.

Lemma buildPolicy_stable_positive (intake : IntakeData) :
  0 < stableBufferPct (buildPolicy intake).
Proof.
  destruct (profile_core_split (riskTolerance intake))
    as (_ & _ & _ & _ & Hs & _).
  eapply Qlt_le_trans; [exact Hs | apply Q.le_max_r].
Qed.

Lemma buildPolicy_core_split (intake : IntakeData) :
  btcTargetPct (buildPolicy intake) + ethTargetPct (buildPolicy intake)
  == coreTargetPct (buildPolicy intake).
Proof.
  destruct (profile_core_split (riskTolerance intake))
    as (Hsum & Hc & _).
  cbn [btcTargetPct ethTargetPct coreTargetPct buildPolicy].
  set (c := Qmax 0.3 _).
  set (base := riskProfiles (riskTolerance intake)) in *.
  rewrite <- Qmult_plus_distr_l, Hsum.
  field. intros E. rewrite E in Hc. discriminate Hc.
Qed.

Lemma buildPolicy_targets_positive (intake : IntakeData) :
  0 < btcTargetPct (buildPolicy intake)
  /\ 0 < ethTargetPct (buildPolicy intake).
Proof.
  destruct (profile_core_split (riskTolerance intake))
    as (_ & Hc & Hb & He & _).
  pose proof (buildPolicy_core_floor intake) as Hfloor.
  cbn [btcTargetPct ethTargetPct coreTargetPct buildPolicy] in *.
  set (c := Qmax 0.3 _) in *.
  assert (0 < c / profile_coreTargetPct (riskProfiles (riskTolerance intake))).
  { apply Qlt_shift_div_l; [exact Hc | lra]. }
  split; apply Qmult_lt_0_compat; assumption.
Qed.

(** C5.  The resolved policy: the stable buffer is the larger of the
    user's percentage (as a fraction) and the preset; the core target is
    the preset core less the buffer, floored at 0.30; the satellite
    target is the remainder; BTC and ETH keep their preset shares of the
    adjusted core. *)
Theorem buildPolicy_resolution (intake : IntakeData) :
  let base := riskProfiles (riskTolerance intake) in
  let policy := buildPolicy intake in
  stableBufferPct policy
  = Qmax (stablecoinBufferPct intake / 100) (profile_stableBufferPct base)
  /\ coreTargetPct policy
     = Qmax 0.3 (profile_coreTargetPct base - stableBufferPct policy)
  /\ satelliteTargetPct policy
     == 1 - coreTargetPct policy - stableBufferPct policy
  /\ btcTargetPct policy
     = profile_btcTargetPct base
       * (coreTargetPct policy / profile_coreTargetPct base)
  /\ ethTargetPct policy
     = profile_ethTargetPct base
       * (coreTargetPct policy / profile_coreTargetPct base)
  /\ btcTargetPct policy + ethTargetPct policy == coreTargetPct policy
  /\ coreTargetPct policy + stableBufferPct policy
     + satelliteTargetPct policy == 1.
Proof.
  intros base policy.
  split; [reflexivity|]. split; [reflexivity|].
  split; [cbn [satelliteTargetPct coreTargetPct stableBufferPct
                 policy buildPolicy]; ring|].
  split; [reflexivity|]. split; [reflexivity|].
  split; [apply buildPolicy_core_split|].
  cbn [satelliteTargetPct coreTargetPct stableBufferPct policy buildPolicy].
  ring.
Qed.

(** ** Totals *)

Lemma fold_pct_shift (l : list AllocationItem) (acc : Q) :
  fold_left (fun sum item => sum + allocationPct item) l acc
  == acc + pct_total l.
Proof.
  unfold pct_total. revert acc.
  induction l as [|x l IH]; intros acc; simpl.
  - ring.
  - rewrite IH. ring.
Qed.

Lemma total_allocation_pct (l : list AllocationItem) :
  total_allocation l == pct_total l.
Proof. unfold total_allocation. rewrite fold_pct_shift. ring. Qed.

Lemma pct_total_app (l1 l2 : list AllocationItem) :
  pct_total (l1 ++ l2) == pct_total l1 + pct_total l2.
Proof.
  unfold pct_total. induction l1 as [|x l1 IH]; simpl.
  - ring.
  - rewrite IH. ring.
Qed.

Lemma pct_total_scaled (l : list AllocationItem) (f : Q) :
  pct_total (map (fun item =>
                    with_allocationPct item (allocationPct item * f)) l)
  == pct_total l * f.
Proof.
  unfold pct_total. induction l as [|x l IH]; simpl.
  - ring.
  - rewrite IH. ring.
Qed.

Lemma pct_total_nonneg (l : list AllocationItem) :
  Forall (fun s => 0 <= allocationPct s) l -> 0 <= pct_total l.
Proof.
  unfold pct_total. induction 1 as [|x l Hx Hl IH]; simpl.
  - apply Qle_refl.
  - lra.
Qed.

(** The core rows of a resolved policy add up to core plus buffer. *)
Lemma core_rows_total (intake : IntakeData) :
  pct_total (buildCoreAllocations (buildPolicy intake) intake)
  == coreTargetPct (buildPolicy intake) + stableBufferPct (buildPolicy intake).
Proof.
  unfold buildCoreAllocations.
  rewrite (proj2 (Qltb_iff _ _) (buildPolicy_stable_positive intake)).
  unfold pct_total. cbn [map app total allocationPct].
  rewrite <- (buildPolicy_core_split intake). ring.
Qed.

(** ** The final normalisation *)

Lemma combine_not_rescaled (core_ satellites : list AllocationItem)
      (policy : PolicyData) (intake : IntakeData) :
  Qabs (total_allocation (core_ ++ satellites) - 1) <= 0.01 ->
  combineAndValidateAllocations core_ satellites policy intake
  = core_ ++ satellites.
Proof.
  intros H. unfold combineAndValidateAllocations.
  rewrite (proj2 (Qltb_false_iff _ _)); [reflexivity|].
  setoid_replace (total_allocation (core_ ++ satellites) - 1.0)
    with (total_allocation (core_ ++ satellites) - 1) by ring.
  exact H.
Qed.

Lemma combine_rescaled (core_ satellites : list AllocationItem)
      (policy : PolicyData) (intake : IntakeData) :
  0.01 < Qabs (total_allocation (core_ ++ satellites) - 1) ->
  combineAndValidateAllocations core_ satellites policy intake
  = map (fun item =>
           with_allocationPct item
             (allocationPct item
              * (1.0 / total_allocation (core_ ++ satellites))))
        (core_ ++ satellites).
Proof.
  intros H. unfold combineAndValidateAllocations.
  rewrite (proj2 (Qltb_iff _ _)); [reflexivity|].
  setoid_replace (total_allocation (core_ ++ satellites) - 1.0)
    with (total_allocation (core_ ++ satellites) - 1) by ring.
  exact H.
Qed.

(** Whenever the concatenated total is not zero, the composed total lies
    within one percent of one. *)
Lemma combine_total_in_range (core_ satellites : list AllocationItem)
      (policy : PolicyData) (intake : IntakeData) :
  ~ total_allocation (core_ ++ satellites) == 0 ->
  0.99 <= total_allocation
            (combineAndValidateAllocations core_ satellites policy intake)
       <= 1.01.
Proof.
  intros Hnz.
  destruct (Qlt_le_dec 0.01 (Qabs (total_allocation (core_ ++ satellites) - 1)))
    as [Hfar | Hnear].
  - rewrite combine_rescaled by exact Hfar.
    rewrite total_allocation_pct, pct_total_scaled, <- total_allocation_pct.
    set (t := total_allocation (core_ ++ satellites)) in *.
    assert (E : t * (1.0 / t) == 1) by (field; exact Hnz).
    rewrite E. split; discriminate.
  - rewrite combine_not_rescaled by exact Hnear.
    apply Qabs_Qle_condition in Hnear. lra.
Qed.



(** ** Capping the satellites *)

Lemma Bucket_eqb_eq (a b : Bucket) : Bucket_eqb a b = true <-> a = b.
Proof. destruct a, b; simpl; split; congruence. Qed.

Lemma Bucket_eqb_neq (a b : Bucket) : a <> b -> Bucket_eqb a b = false.
Proof. destruct a, b; simpl; congruence. Qed.

Lemma fold_bucket_shift (b : Bucket) (l : list AllocationItem) (acc : Q) :
  fold_left (fun total sat =>
               if Bucket_eqb (bucket sat) b
               then total + allocationPct sat else total) l acc
  == acc + bucket_sum b l.
Proof.
  unfold bucket_sum, in_bucket. revert acc.
  induction l as [|x l IH]; intros acc; simpl.
  - ring.
  - rewrite IH. destruct (Bucket_eqb (bucket x) b); simpl; ring.
Qed.

Lemma bucket_total_sum (b : Bucket) (l : list AllocationItem) :
  bucket_total b l == bucket_sum b l.
Proof. unfold bucket_total. rewrite fold_bucket_shift. ring. Qed.

Lemma bucket_sum_cons (b : Bucket) (x : AllocationItem)
      (l : list AllocationItem) :
  bucket_sum b (x :: l)
  = if in_bucket b x then allocationPct x + bucket_sum b l
    else bucket_sum b l.
Proof.
  unfold bucket_sum. simpl. destruct (in_bucket b x); reflexivity.
Qed.

Lemma bucket_sum_nonneg (b : Bucket) (l : list AllocationItem) :
  Forall (fun s => 0 <= allocationPct s) l -> 0 <= bucket_sum b l.
Proof.
  induction 1 as [|x l Hx Hl IH].
  - apply Qle_refl.
  - rewrite bucket_sum_cons. destruct (in_bucket b x); lra.
Qed.

Lemma apply_asset_cap_within (policy : PolicyData) (s : AllocationItem) :
  0 <= perAssetCapPct policy -> 0 <= allocationPct s ->
  within (perAssetCapPct policy) (apply_asset_cap policy s).
Proof.
  intros Hcap Hs. unfold within, apply_asset_cap.
  destruct (Qltb (perAssetCapPct policy) (allocationPct s)) eqn:E.
  - simpl. split; [exact Hcap | apply Qle_refl].
  - apply Qltb_false_iff in E. split; assumption.
Qed.

(** The factor [cap / total] of a bucket over its cap lies in [0, 1]. *)
Lemma scale_factor_range (cap total_ : Q) :
  0 <= cap -> cap < total_ -> 0 <= cap / total_ <= 1.
Proof.
  intros Hc Hlt. split.
  - apply Qle_shift_div_l; lra.
  - apply Qle_shift_div_r; lra.
Qed.

Lemma scale_bucket_within (policy : PolicyData) (totals : Bucket -> Q)
      (l : list AllocationItem) (b : Bucket) (A : Q) :
  0 <= cap_of (bucketCaps policy) b ->
  Forall (within A) l ->
  Forall (within A) (scale_bucket policy totals l b).
Proof.
  intros Hcap Hl. unfold scale_bucket.
  destruct (Qltb (cap_of (bucketCaps policy) b) (totals b)) eqn:E;
    [|exact Hl].
  apply Qltb_iff in E.
  destruct (scale_factor_range _ _ Hcap E) as [F0 F1].
  apply Forall_map. eapply Forall_impl; [|exact Hl].
  intros s [S0 S1]. unfold within.
  destruct (Bucket_eqb (bucket s) b); [|split; assumption].
  simpl.
  set (f := cap_of (bucketCaps policy) b / totals b) in *.
  assert (0 <= allocationPct s * f) by (apply Qmult_le_0_compat; assumption).
  assert (0 <= allocationPct s * (1 - f)).
  { apply Qmult_le_0_compat; lra. }
  split; lra.
Qed.

Lemma scale_bucket_other (policy : PolicyData) (totals : Bucket -> Q)
      (l : list AllocationItem) (b b' : Bucket) :
  b' <> b ->
  bucket_sum b' (scale_bucket policy totals l b) == bucket_sum b' l.
Proof.
  intros Hne. unfold scale_bucket.
  destruct (Qltb (cap_of (bucketCaps policy) b) (totals b));
    [|reflexivity].
  induction l as [|x l IH]; [reflexivity|].
  cbn [map]. rewrite !bucket_sum_cons. unfold in_bucket.
  destruct (Bucket_eqb (bucket x) b) eqn:E.
  - apply Bucket_eqb_eq in E. simpl. rewrite E.
    rewrite (Bucket_eqb_neq b b') by congruence. exact IH.
  - destruct (Bucket_eqb (bucket x) b'); rewrite IH; reflexivity.
Qed.

Lemma scale_bucket_same (policy : PolicyData) (totals : Bucket -> Q)
      (l : list AllocationItem) (b : Bucket) :
  bucket_sum b (scale_bucket policy totals l b)
  == if Qltb (cap_of (bucketCaps policy) b) (totals b)
     then bucket_sum b l * (cap_of (bucketCaps policy) b / totals b)
     else bucket_sum b l.
Proof.
  unfold scale_bucket.
  destruct (Qltb (cap_of (bucketCaps policy) b) (totals b));
    [|reflexivity].
  induction l as [|x l IH].
  - unfold bucket_sum. simpl. ring.
  - cbn [map]. rewrite !bucket_sum_cons. unfold in_bucket.
    destruct (Bucket_eqb (bucket x) b) eqn:E.
    + simpl. rewrite E, IH. ring.
    + rewrite E. exact IH.
Qed.

(** A bucket total scaled by [cap / total] when it is over the cap is at
    most the cap. *)
Lemma scaled_total_capped (cap total_ sum_ : Q) :
  0 <= cap -> sum_ == total_ ->
  (if Qltb cap total_ then sum_ * (cap / total_) else sum_) <= cap.
Proof.
  intros Hc E.
  destruct (Qltb cap total_) eqn:T.
  - apply Qltb_iff in T. rewrite E.
    setoid_replace (total_ * (cap / total_)) with cap by (field; lra).
    apply Qle_refl.
  - apply Qltb_false_iff in T. rewrite E. exact T.
Qed.

(** After the three scaling steps every bucket is within its cap. *)
Lemma scaled_buckets_capped (policy : PolicyData)
      (l : list AllocationItem) (b : Bucket) :
  (forall b', 0 <= cap_of (bucketCaps policy) b') ->
  bucket_sum b
    (fold_left (scale_bucket policy (fun b' => bucket_total b' l))
               [High; Medium; Low] l)
  <= cap_of (bucketCaps policy) b.
Proof.
  intros Hcaps. cbn [fold_left].
  set (totals := fun b' => bucket_total b' l).
  destruct b.
  - rewrite scale_bucket_same.
    apply scaled_total_capped; [apply Hcaps|].
    rewrite !scale_bucket_other by discriminate.
    unfold totals. symmetry. apply bucket_total_sum.
  - rewrite scale_bucket_other by discriminate.
    rewrite scale_bucket_same.
    apply scaled_total_capped; [apply Hcaps|].
    rewrite scale_bucket_other by discriminate.
    unfold totals. symmetry. apply bucket_total_sum.
  - rewrite !scale_bucket_other by discriminate.
    rewrite scale_bucket_same.
    apply scaled_total_capped; [apply Hcaps|].
    unfold totals. symmetry. apply bucket_total_sum.
Qed.

(** The sort permutes, the slice keeps a prefix. *)
Lemma insert_desc_perm (x : AllocationItem) (l : list AllocationItem) :
  Permutation (insert_desc x l) (x :: l).
Proof.
  induction l as [|y l IH]; simpl.
  - apply Permutation_refl.
  - destruct (Qltb 0 (allocationPct y - allocationPct x)).
    + eapply Permutation_trans; [apply perm_skip, IH | apply perm_swap].
    + apply Permutation_refl.
Qed.

Lemma sort_desc_perm (l : list AllocationItem) :
  Permutation (sort_desc l) l.
Proof.
  induction l as [|x l IH]; simpl.
  - apply Permutation_refl.
  - eapply Permutation_trans; [apply insert_desc_perm|].
    apply perm_skip, IH.
Qed.

Lemma bucket_sum_perm (b : Bucket) (l l' : list AllocationItem) :
  Permutation l l' -> bucket_sum b l == bucket_sum b l'.
Proof.
  induction 1 as [| x l l' _ IH | x y l | l l' l'' _ IH1 _ IH2].
  - reflexivity.
  - rewrite !bucket_sum_cons.
    destruct (in_bucket b x); rewrite IH; reflexivity.
  - rewrite !bucket_sum_cons.
    destruct (in_bucket b x), (in_bucket b y); ring.
  - rewrite IH1. exact IH2.
Qed.

Lemma bucket_sum_prefix (b : Bucket) (l : list AllocationItem) (k : nat) :
  Forall (fun s => 0 <= allocationPct s) l ->
  bucket_sum b (firstn k l) <= bucket_sum b l.
Proof.
  intros H. revert k. induction H as [|x l Hx Hl IH]; intros k.
  - rewrite firstn_nil. apply Qle_refl.
  - destruct k as [|k].
    + simpl firstn. rewrite bucket_sum_cons.
      pose proof (bucket_sum_nonneg b l Hl).
      change (bucket_sum b []) with 0.
      destruct (in_bucket b x); lra.
    + simpl firstn. rewrite !bucket_sum_cons.
      specialize (IH k). destruct (in_bucket b x); lra.
Qed.

Lemma Forall_prefix {A} (P : A -> Prop) (l : list A) (k : nat) :
  Forall P l -> Forall P (firstn k l).
Proof.
  intros H. revert k. induction H as [|x l Hx Hl IH]; intros k.
  - rewrite firstn_nil. constructor.
  - destruct k; simpl; constructor; auto.
Qed.

(** The capping pass keeps every row between zero and the per-asset cap
    and every bucket within its cap. *)
Lemma validateAndCapSatellites_capped
      (satellites : list AllocationItem) (policy : PolicyData) :
  0 <= perAssetCapPct policy ->
  (forall b, 0 <= cap_of (bucketCaps policy) b) ->
  Forall (fun s => 0 <= allocationPct s) satellites ->
  Forall (within (perAssetCapPct policy))
         (validateAndCapSatellites satellites policy)
  /\ (forall b, bucket_sum b (validateAndCapSatellites satellites policy)
                <= cap_of (bucketCaps policy) b).
Proof.
  intros Hasset Hcaps Hsat.
  unfold validateAndCapSatellites.
  set (clamped := map (apply_asset_cap policy) satellites).
  set (scaled :=
         fold_left (scale_bucket policy (fun b => bucket_total b clamped))
                   [High; Medium; Low] clamped).
  destruct (slice_from_zero (sort_desc scaled)
              (snd (holdingsTargetRange policy) - 3)) as [k Hk].
  rewrite Hk.
  assert (Hclamped : Forall (within (perAssetCapPct policy)) clamped).
  { unfold clamped. apply Forall_map.
    eapply Forall_impl; [|exact Hsat].
    intros s Hs. apply apply_asset_cap_within; assumption. }
  assert (Hscaled : Forall (within (perAssetCapPct policy)) scaled).
  { unfold scaled. cbn [fold_left].
    repeat apply scale_bucket_within; auto. }
  assert (Hsorted : Forall (within (perAssetCapPct policy))
                           (sort_desc scaled)).
  { eapply Permutation_Forall; [|exact Hscaled].
    apply Permutation_sym, sort_desc_perm. }
  split.
  - apply Forall_prefix. exact Hsorted.
  - intros b.
    eapply Qle_trans.
    + apply bucket_sum_prefix.
      eapply Forall_impl; [|exact Hsorted]. intros s [H0 _]. exact H0.
    + rewrite (bucket_sum_perm b _ _ (sort_desc_perm scaled)).
      apply scaled_buckets_capped. exact Hcaps.
Qed.




(** The same composition, row by row. *)
Lemma balanced_composition_with_one_high_proposal :
  let intake := Samples.balanced_intake in
  let policy := buildPolicy intake in
  let satellites :=
    validateAndCapSatellites
      [mkItem "dogecoin" "DOGE" "Dogecoin" satellite High 0.15 [] []
              (mkDca 0 "Monthly")] policy in
  let composed :=
    combineAndValidateAllocations
      (buildCoreAllocations policy intake) satellites policy intake in
  map (fun s => (item_symbol s, Qred (allocationPct s))) satellites
  = [("DOGE"%string, 3 # 20)]
  /\ map (fun s => (item_symbol s, Qred (allocationPct s))) composed
     = [("BTC"%string, 5 # 11); ("ETH"%string, 20 # 77);
        ("USDC"%string, 1 # 14); ("DOGE"%string, 3 # 14)]
  /\ perAssetCapPct policy == 3 # 20
  /\ cap_of (bucketCaps policy) High == 3 # 20.
Proof. vm_compute. repeat split. Qed.

(** ** The monthly contribution split *)

(** C10.  Every row receives [max(5, round(pct * monthly / 5) * 5)] with
    cadence Monthly, and there is an allocation summing to one with a
    positive budget whose amounts add up to more than the budget. *)
Theorem addDcaPlans_amounts_can_exceed_budget :
  (forall (allocation : list AllocationItem) (intake : IntakeData),
      Forall2
        (fun item planned =>
           amountUsd (dca planned)
           == Qmax 5 (Math_round (allocationPct item
                                  * monthlyContributionUsd intake / 5) * 5)
           /\ cadence (dca planned) = "Monthly"%string
           /\ allocationPct planned = allocationPct item
           /\ item_coinId planned = item_coinId item)
        allocation (addDcaPlans allocation intake))
  /\ (exists (allocation : list AllocationItem) (intake : IntakeData),
         pct_total allocation == 1
         /\ 0 < monthlyContributionUsd intake
         /\ monthlyContributionUsd intake
            < dca_total (addDcaPlans allocation intake)).
Proof.
  split.
  - intros allocation intake. unfold addDcaPlans.
    induction allocation as [|item rest IH]; simpl; constructor.
    + repeat split. simpl. apply Q.max_comm.
    + exact IH.
  - exists Samples.three_rows, Samples.small_budget_intake.
    vm_compute. repeat split.
Qed.

(** The amounts of that example: three rows of 5 against a budget of 10. *)
Lemma three_rows_amounts :
  map (fun item => amountUsd (dca item))
      (addDcaPlans Samples.three_rows Samples.small_budget_intake)
  = [5; 5; 5]
  /\ monthlyContributionUsd Samples.small_budget_intake = 10.
Proof. split; reflexivity. Qed.

End PortfolioFacts.

(* ================================================================== *)
(** * The rule-based fallback *)
(* ================================================================== *)

Module FallbackFacts.

Import RankingEngine StarterPortfolio JSFacts PortfolioFacts.

Section Formatting.

Variable Number_toFixed : Q -> nat -> string.

(** A failed advisory call hands over to the fallback. *)
Lemma failed_advisory_falls_back (e : string) (candidates : list CoinScore)
      (policy : PolicyData) (intake : IntakeData) :
  selectSatellitesWithAI Number_toFixed (inl e) candidates policy intake
  = fallbackSatelliteSelection Number_toFixed candidates policy.
Proof. reflexivity. Qed.

Lemma scale_bucket_nil (policy : PolicyData) (totals : Bucket -> Q)
      (b : Bucket) :
  scale_bucket policy totals [] b = [].
Proof.
  unfold scale_bucket.
  destruct (Qltb (cap_of (bucketCaps policy) b) (totals b)); reflexivity.
Qed.

(** An advisory answer with an empty list is not a failure: the capping
    pass runs on it and the satellite list stays empty. *)
Lemma empty_advisory_is_not_a_failure (candidates : list CoinScore)
      (policy : PolicyData) (intake : IntakeData) :
  selectSatellitesWithAI Number_toFixed (inr []) candidates policy intake = [].
Proof.
  unfold selectSatellitesWithAI, validateAndCapSatellites.
  cbn [map fold_left]. rewrite !scale_bucket_nil.
  cbn [sort_desc fold_right]. unfold slice.
  rewrite skipn_nil. apply firstn_nil.
Qed.

(** The loop only appends, every appended row carries the same
    allocation, and at most one row is appended per coin. *)
Lemma fallback_loop_rows (policy : PolicyData) (targetPerSat : Q)
      (coins : list CoinScore) :
  forall (satellites : list AllocationItem) (limits : Bucket -> Q),
  exists rows,
    fallback_loop Number_toFixed policy targetPerSat coins satellites limits
    = satellites ++ rows
    /\ Forall (fun s => allocationPct s
                        = Qmin targetPerSat (perAssetCapPct policy)) rows
    /\ (length rows <= length coins)%nat.
Proof.
  induction coins as [|coin rest IH]; intros satellites limits.
  - exists []. cbn [fallback_loop]. rewrite app_nil_r.
    split; [reflexivity | split; [apply Forall_nil | simpl; lia]].
  - cbn [fallback_loop].
    destruct (Qltb (limits (bucket_of coin))
                   (cap_of (bucketCaps policy) (bucket_of coin))).
    + match goal with
      | |- context [fallback_loop _ _ _ _ (satellites ++ [?r]) ?lim] =>
          destruct (IH (satellites ++ [r]) lim) as (rows & E & Hall & Hlen);
          exists (r :: rows)
      end.
      rewrite E, <- app_assoc.
      split; [reflexivity | split].
      * apply Forall_cons; [reflexivity | exact Hall].
      * simpl. lia.
    + destruct (IH satellites limits) as (rows & E & Hall & Hlen).
      exists rows.
      split; [exact E | split; [exact Hall | simpl; lia]].
Qed.

(** The first coin is taken whenever its bucket has a positive cap. *)
Lemma fallback_loop_takes_first (policy : PolicyData) (targetPerSat : Q)
      (coin : CoinScore) (rest : list CoinScore) :
  0 < cap_of (bucketCaps policy) (bucket_of coin) ->
  fallback_loop Number_toFixed policy targetPerSat (coin :: rest)
                [] (fun _ => 0)
  <> [].
Proof.
  intros Hcap. cbn [fallback_loop].
  rewrite (proj2 (Qltb_iff _ _) Hcap).
  match goal with
  | |- fallback_loop _ _ _ _ ([] ++ [?r]) ?lim <> [] =>
      destruct (fallback_loop_rows policy targetPerSat rest ([] ++ [r]) lim)
        as (rows & E & _)
  end.
  rewrite E. discriminate.
Qed.

Lemma slice_zero_nonneg {A} (a : list A) (m : Z) :
  (0 <= m)%Z -> slice a 0 m = firstn (Z.to_nat m) a.
Proof.
  intros Hm. unfold slice, relative.
  replace (0 <? 0)%Z with false by reflexivity.
  destruct (m <? 0)%Z eqn:E; [apply Z.ltb_lt in E; lia|].
  rewrite (Z.min_l 0) by lia. simpl skipn. rewrite Z.sub_0_r.
  destruct (Z.le_gt_cases m (Z.of_nat (length a))).
  - rewrite Z.min_l by lia. reflexivity.
  - rewrite Z.min_r by lia. rewrite Nat2Z.id.
    rewrite !firstn_all2 by lia. reflexivity.
Qed.

(** A candidate that passed the filter sits in a bucket whose cap is not
    zero. *)
Lemma keep_candidate_cap (intake : IntakeData) (policy : PolicyData)
      (index : nat) (coin : CoinScore) :
  keep_candidate intake policy index coin = true ->
  ~ cap_of (bucketCaps policy) (bucket_of coin) == 0.
Proof.
  unfold keep_candidate. intros H E.
  apply Qeq_bool_iff in E. rewrite E in H.
  repeat match type of H with
         | (if ?c then _ else _) = true => destruct c
         end; discriminate H.
Qed.

Lemma filter_from_kept (intake : IntakeData) (policy : PolicyData)
      (coins : list CoinScore) :
  forall index coin,
    In coin (filter_from intake policy index coins) ->
    exists k, keep_candidate intake policy k coin = true.
Proof.
  induction coins as [|c rest IH]; intros index coin Hin; simpl in Hin.
  - contradiction.
  - destruct (keep_candidate intake policy index c) eqn:K.
    + destruct Hin as [E | Hin].
      * subst c. exists index. exact K.
      * apply (IH _ _ Hin).
    + apply (IH _ _ Hin).
Qed.

(** With at least one satellite slot, a non-empty filtered candidate list
    gives a non-empty fallback selection. *)
Lemma fallback_nonempty (rankedCoins : list CoinScore)
      (intake : IntakeData) :
  let policy := buildPolicy intake in
  let candidates := filterCandidates rankedCoins intake policy in
  candidates <> [] -> (4 <= snd (holdingsRange intake))%Z ->
  fallbackSatelliteSelection Number_toFixed candidates policy <> [].
Proof.
  intros policy candidates Hne Hslots.
  unfold fallbackSatelliteSelection.
  change (snd (holdingsTargetRange policy)) with (snd (holdingsRange intake)).
  rewrite slice_zero_nonneg by lia.
  destruct candidates as [|coin rest] eqn:C; [congruence|].
  destruct (Z.to_nat (snd (holdingsRange intake) - 3)) as [|k] eqn:K; [lia|].
  cbn [firstn].
  apply fallback_loop_takes_first.
  destruct (filter_from_kept intake policy rankedCoins 0 coin) as [i Hi].
  { fold (filterCandidates rankedCoins intake policy).
    fold candidates. rewrite C. left. reflexivity. }
  pose proof (keep_candidate_cap _ _ _ _ Hi) as Hnz.
  pose proof (profile_caps_nonneg (riskTolerance intake) (bucket_of coin))
    as Hcap.
  change (cap_of (bucketCaps policy) (bucket_of coin))
    with (cap_of (profile_bucketCaps (riskProfiles (riskTolerance intake)))
                 (bucket_of coin)) in *.
  apply Qle_lteq in Hcap. destruct Hcap as [Hcap | Hcap]; [exact Hcap|].
  exfalso. apply Hnz. symmetry. exact Hcap.
Qed.

(** No fallback row exceeds the per-asset cap. *)
Lemma fallback_within_asset_cap (candidates : list CoinScore)
      (policy : PolicyData) :
  Forall (fun s => allocationPct s <= perAssetCapPct policy)
         (fallbackSatelliteSelection Number_toFixed candidates policy).
Proof.
  unfold fallbackSatelliteSelection.
  match goal with
  | |- Forall _ (fallback_loop _ _ ?t ?coins [] ?lim) =>
      destruct (fallback_loop_rows policy t coins [] lim)
        as (rows & E & Hall & _)
  end.
  rewrite E. cbn [app].
  eapply Forall_impl; [|exact Hall].
  intros s Hs. cbv beta in Hs. rewrite Hs. apply Q.le_min_r.
Qed.

Lemma pct_total_constant (rows : list AllocationItem) (x : Q) :
  Forall (fun s => allocationPct s = x) rows ->
  pct_total rows == of_nat (length rows) * x.
Proof.
  unfold pct_total. induction 1 as [|s rows Hs Hall IH].
  - simpl. unfold of_nat. simpl. ring.
  - cbn [map total length]. rewrite IH, Hs.
    unfold of_nat. rewrite Nat2Z.inj_succ. unfold Z.succ.
    rewrite inject_Z_plus. ring.
Qed.

(** The fallback rows never pull the total to zero: with a non-negative
    satellite target they add a non-negative amount, with a negative one
    they take away at most the target itself. *)
Lemma fallback_rows_bound (sat cap n m x : Q) :
  0 < cap -> 0 <= n -> n <= m -> 1 <= m ->
  x == Qmin (sat / m) cap ->
  0 <= n * x \/ sat <= n * x.
Proof.
  intros Hcap Hn Hnm Hm Hx.
  destruct (Qlt_le_dec sat 0) as [Hneg | Hpos].
  - right.
    assert (Hr : sat / m < 0).
    { apply Qlt_shift_div_r; lra. }
    assert (Hmin : Qmin (sat / m) cap == sat / m).
    { apply Q.min_l. lra. }
    rewrite Hx, Hmin.
    set (r := sat / m) in *.
    assert (Hrm : r * m == sat).
    { unfold r. field. lra. }
    assert (0 <= (m - n) * (- r)).
    { apply Qmult_le_0_compat; lra. }
    lra.
  - left.
    assert (Hr : 0 <= sat / m).
    { apply Qle_shift_div_l; lra. }
    assert (0 <= Qmin (sat / m) cap).
    { apply Q.min_glb; lra. }
    rewrite Hx. apply Qmult_le_0_compat; assumption.
Qed.

(** Core rows plus fallback rows compose to a total within one percent
    of one, whatever the candidates. *)
Lemma fallback_composition_sums_to_one (candidates : list CoinScore)
      (intake : IntakeData) :
  (3 <= snd (holdingsRange intake))%Z ->
  let policy := buildPolicy intake in
  let satellites :=
    fallbackSatelliteSelection Number_toFixed candidates policy in
  0.99 <= total_allocation
            (combineAndValidateAllocations
               (buildCoreAllocations policy intake) satellites policy intake)
       <= 1.01.
Proof.
  intros Hslots policy satellites.
  apply combine_total_in_range.
  rewrite total_allocation_pct, pct_total_app.
  unfold policy at 1. rewrite core_rows_total.
  pose proof (buildPolicy_core_floor intake) as Hcore.
  pose proof (buildPolicy_stable_positive intake) as Hstable.
  unfold satellites, fallbackSatelliteSelection.
  change (snd (holdingsTargetRange policy)) with (snd (holdingsRange intake)).
  set (slots := (snd (holdingsRange intake) - 3)%Z).
  rewrite slice_zero_nonneg by (unfold slots; lia).
  match goal with
  | |- context [fallback_loop _ _ ?t ?coins [] ?lim] =>
      destruct (fallback_loop_rows policy t coins [] lim)
        as (rows & E & Hall & Hlen)
  end.
  rewrite E. cbn [app].
  rewrite (pct_total_constant rows _ Hall).
  rewrite length_firstn in Hlen.
  destruct rows as [|row rows'].
  - change (of_nat (length (@nil AllocationItem))) with 0. lra.
  - set (n := of_nat (length (row :: rows'))) in *.
    assert (Hn : 0 <= n).
    { unfold n, of_nat. change 0 with (inject_Z 0).
      rewrite <- Zle_Qle. lia. }
    assert (Hnm : n <= inject_Z slots).
    { unfold n, of_nat. rewrite <- Zle_Qle. simpl length in *. lia. }
    assert (Hm : 1 <= inject_Z slots).
    { change 1 with (inject_Z 1). rewrite <- Zle_Qle.
      simpl length in Hlen. lia. }
    destruct (profile_core_split (riskTolerance intake))
      as (_ & _ & _ & _ & _ & Hasset).
    destruct (fallback_rows_bound
                (satelliteTargetPct policy) (perAssetCapPct policy)
                n (inject_Z slots)
                (Qmin (satelliteTargetPct policy / inject_Z slots)
                      (perAssetCapPct policy))
                Hasset Hn Hnm Hm (Qeq_refl _)) as [Hb | Hb].
    + lra.
    + cbn [satelliteTargetPct policy buildPolicy] in Hb.
      fold (coreTargetPct (buildPolicy intake)) in Hb.
      cbn [satelliteTargetPct policy buildPolicy].
      cbn [coreTargetPct stableBufferPct buildPolicy] in *.
      lra.
Qed.

(** The contribution plan leaves the percentages as they are. *)
Lemma addDcaPlans_keeps_total (allocation : list AllocationItem)
      (intake : IntakeData) :
  total_allocation (addDcaPlans allocation intake)
  == total_allocation allocation.
Proof.
  rewrite !total_allocation_pct. unfold pct_total, addDcaPlans.
  rewrite map_map. reflexivity.
Qed.

(** End to end: the allocation of a generated portfolio sums to one
    within one percent, on the advisory path for non-negative proposals
    and on the fallback path for a holdings range that leaves room for the
    three core rows. *)
Lemma generated_allocation_sums_to_one (rankedCoins : list CoinScore)
      (advisory : string + list AdvisorySatellite) (intake : IntakeData) :
  match advisory with
  | inr parsed => Forall (fun sat => 0 <= allocation_pct sat) parsed
  | inl _ => (3 <= snd (holdingsRange intake))%Z
  end ->
  0.99 <= total_allocation
            (allocation
               (generateStarterPortfolio Number_toFixed rankedCoins
                                         advisory intake))
       <= 1.01.
Proof.
  intros H. unfold generateStarterPortfolio. cbn [allocation].
  rewrite addDcaPlans_keeps_total.
  destruct advisory as [e | parsed].
  - apply fallback_composition_sums_to_one. exact H.
  - cbn [selectSatellitesWithAI].
    apply combine_total_in_range.
    rewrite total_allocation_pct, pct_total_app, core_rows_total.
    pose proof (buildPolicy_core_floor intake) as Hcore.
    pose proof (buildPolicy_stable_positive intake) as Hstable.
    match goal with
    | |- context [validateAndCapSatellites ?sats ?policy] =>
        destruct (validateAndCapSatellites_capped sats policy) as [Hall _];
        [ destruct (profile_core_split (riskTolerance intake))
            as (_ & _ & _ & _ & _ & Hasset);
          apply Qlt_le_weak; exact Hasset
        | intros b; apply (profile_caps_nonneg (riskTolerance intake) b)
        | apply Forall_map; eapply Forall_impl; [|exact H];
          intros sat Hsat; exact Hsat
        | assert (Hnonneg : 0 <= pct_total
                                   (validateAndCapSatellites sats policy));
          [ apply pct_total_nonneg;
            eapply Forall_impl; [|exact Hall];
            intros s [H0 _]; exact H0
          | lra ] ]
    end.
Qed.

End Formatting.

(** C8 on a concrete run.  Aggressive profile, holdings range 4 to 6
    (three satellite slots), three candidates of volatility 85: the
    fallback takes all three at the per-asset cap 0.12, so the High bucket
    holds 0.36 against a cap of 0.30. *)
Theorem fallback_exceeds_high_bucket_cap
        (Number_toFixed : Q -> nat -> string) :
  let intake := Samples.aggressive_intake in
  let policy := buildPolicy intake in
  let candidates := filterCandidates Samples.volatile_ranking intake policy in
  let satellites :=
    selectSatellitesWithAI Number_toFixed
      (inl "Unexpected end of JSON input"%string) candidates policy intake in
  candidates = Samples.volatile_ranking
  /\ map (fun s => (item_symbol s, bucket s, Qred (allocationPct s)))
         satellites
     = [ ("DOGE"%string, High, 3 # 25); ("SHIB"%string, High, 3 # 25);
         ("PEPE"%string, High, 3 # 25) ]
  /\ Qred (bucket_total High satellites) = 9 # 25
  /\ Qred (cap_of (bucketCaps policy) High) = 3 # 10
  /\ cap_of (bucketCaps policy) High < bucket_total High satellites.
Proof. vm_compute. repeat split. Qed.

End FallbackFacts.
(* ================================================================== *)
(** * The indicators on a sufficient history *)
(* ================================================================== *)

Module IndicatorFacts.

Import RankingEngine JSFacts RankingFacts Series.

(** ** Sums and windows *)

Lemma of_nat_S (n : nat) : of_nat (S n) == of_nat n + 1.
Proof.
  unfold of_nat. rewrite Nat2Z.inj_succ. unfold Z.succ.
  rewrite inject_Z_plus. reflexivity.
Qed.

Lemma of_nat_nonneg (n : nat) : 0 <= of_nat n.
Proof. unfold of_nat, Qle. simpl. lia. Qed.


Lemma Forall_skipn {A} (P : A -> Prop) (l : list A) (k : nat) :
  Forall P l -> Forall P (skipn k l).
Proof.
  revert k. induction l as [|x l IH]; intros k H.
  - destruct k; exact H.
  - destruct k as [|k]; [exact H|].
    simpl. apply IH. inversion H. assumption.
Qed.

Lemma Forall_firstn {A} (P : A -> Prop) (l : list A) (k : nat) :
  Forall P l -> Forall P (firstn k l).
Proof.
  revert k. induction l as [|x l IH]; intros k H.
  - destruct k; exact H.
  - destruct k as [|k]; [constructor|].
    simpl. inversion H. constructor; [assumption | apply IH; assumption].
Qed.



(** ** Moving averages *)







(** ** MACD *)




(** ** RSI on a series that moves one way *)

Lemma chain_nth (R : Q -> Q -> Prop) (l : list Q) :
  chain R l ->
  forall i, (S i < length l)%nat -> R (nth i l 0) (nth (S i) l 0).
Proof.
  induction l as [|x l IH]; intros H i Hi; simpl in Hi; [lia|].
  destruct l as [|y l]; simpl in Hi; [lia|].
  destruct H as [Hxy Hrest].
  destruct i as [|i]; [exact Hxy|].
  apply (IH Hrest i). simpl. lia.
Qed.

Lemma chain_step (R : Q -> Q -> Prop) (l : list Q) (i : Z) :
  chain R l -> (1 <= i < Z.of_nat (length l))%Z ->
  R (nth (Z.to_nat (i - 1)) l 0) (nth (Z.to_nat i) l 0).
Proof.
  intros H Hi.
  pose proof (chain_nth R l H (Z.to_nat (i - 1))) as Hstep.
  replace (S (Z.to_nat (i - 1))) with (Z.to_nat i) in Hstep by lia.
  apply Hstep. lia.
Qed.

(** Without a falling step the loss accumulator stays at zero. *)
Lemma rsi_loop_never_falling (prices : list Q) (n : nat) :
  chain Qle prices ->
  forall (i : Z) (g l : Q),
    (1 <= i)%Z -> (i + Z.of_nat n <= Z.of_nat (length prices))%Z ->
    l == 0 ->
    exists g' l',
      rsi_loop prices i n (Num g) (Num l) = (Num g', Num l') /\ l' == 0.
Proof.
  intros Hc. induction n as [|n IH]; intros i g l Hi Hn Hl.
  - exists g, l. split; [reflexivity | exact Hl].
  - cbn [rsi_loop]. rewrite !get_in_range by lia. rewrite sub_Num.
    pose proof (chain_step Qle prices i Hc ltac:(lia)) as Hstep.
    unfold gt, lt.
    destruct (Qltb 0 (nth (Z.to_nat i) prices 0
                      + - nth (Z.to_nat (i - 1)) prices 0)) eqn:E.
    + apply (IH (i + 1)%Z); try lia. exact Hl.
    + apply Qltb_false_iff in E.
      rewrite sub_Num. apply (IH (i + 1)%Z); try lia. lra.
Qed.

(** On a strictly falling window the gain accumulator is never touched
    and the losses grow. *)
Lemma rsi_loop_falling (prices : list Q) (n : nat) :
  chain (fun x y => y < x) prices ->
  forall (i : Z) (g l : Q),
    (1 <= i)%Z -> (i + Z.of_nat n <= Z.of_nat (length prices))%Z ->
    exists l',
      rsi_loop prices i n (Num g) (Num l) = (Num g, Num l')
      /\ l <= l' /\ ((0 < n)%nat -> l < l').
Proof.
  intros Hc. induction n as [|n IH]; intros i g l Hi Hn.
  - exists l. split; [reflexivity|]. split; [lra | lia].
  - cbn [rsi_loop]. rewrite !get_in_range by lia. rewrite sub_Num.
    pose proof (chain_step (fun x y => y < x) prices i Hc ltac:(lia))
      as Hstep. cbv beta in Hstep.
    unfold gt, lt.
    rewrite (proj2 (Qltb_false_iff _ _)) by lra.
    rewrite sub_Num.
    destruct (IH (i + 1)%Z g
                 (l + - (nth (Z.to_nat i) prices 0
                         + - nth (Z.to_nat (i - 1)) prices 0)))
      as (l' & E & Hle & _); try lia.
    exists l'. split; [exact E|]. split; [lra | intros _; lra].
Qed.

Lemma calculateRSI_never_falling (prices : list Q) (period : nat) :
  (0 < period)%nat -> (period + 1 <= length prices)%nat ->
  chain Qle prices -> calculateRSI prices period = Num 100.
Proof.
  intros Hp Hlen Hc.
  destruct (rsi_loop_never_falling prices period Hc
              (Z.of_nat (length prices) - Z.of_nat period)%Z 0 0)
    as (g & l & E & Hl); try lia; [reflexivity|].
  apply (calculateRSI_no_loss prices period g l); try assumption.
  rewrite Hl. unfold Qdiv. ring.
Qed.

Lemma calculateRSI_falling (prices : list Q) (period : nat) :
  (0 < period)%nat -> (period + 1 <= length prices)%nat ->
  chain (fun x y => y < x) prices ->
  exists q, calculateRSI prices period = Num q /\ q == 0.
Proof.
  intros Hp Hlen Hc.
  destruct (rsi_loop_falling prices period Hc
              (Z.of_nat (length prices) - Z.of_nat period)%Z 0 0)
    as (l & E & _ & Hl); try lia.
  specialize (Hl Hp).
  pose proof (of_nat_pos period Hp) as P.
  assert (Lpos : 0 < l / of_nat period).
  { apply Qlt_shift_div_l; [exact P | lra]. }
  unfold calculateRSI.
  rewrite (proj2 (Nat.ltb_ge _ _) Hlen).
  unfold rsi_sums. rewrite E.
  rewrite !div_Num by (apply of_nat_nonzero; exact Hp).
  cbn [strict_eq].
  rewrite (proj2 (Qeq_bool_false_iff _ _)) by lra.
  rewrite div_Num by lra. cbn [add].
  assert (Z0 : 0 / of_nat period / (l / of_nat period) == 0).
  { unfold Qdiv. ring. }
  rewrite div_Num by (rewrite Z0; lra).
  rewrite sub_Num. eexists. split; [reflexivity|].
  rewrite Z0. reflexivity.
Qed.

(** X3.  With at least [period + 1] prices, a series that never falls
    (a flat one included) has an RSI of exactly 100, and a series that
    falls at every step has an RSI of 0. *)
Theorem rsi_of_a_one_way_series (prices : list Q) (period : nat) :
  (0 < period)%nat -> (period + 1 <= length prices)%nat ->
  (chain Qle prices -> calculateRSI prices period = Num 100)
  /\ (chain (fun x y => y < x) prices ->
      exists q, calculateRSI prices period = Num q /\ q == 0).
Proof.
  intros Hp Hlen. split; intros Hc.
  - apply calculateRSI_never_falling; assumption.
  - apply calculateRSI_falling; assumption.
Qed.

Lemma rsi_of_a_one_way_series_witness :
  calculateRSI [5; 5; 6; 8] 3 = Num 100
  /\ (exists q, calculateRSI [9; 7; 4; 2] 3 = Num q /\ q == 0).
Proof.
  split.
  - apply (proj1 (rsi_of_a_one_way_series [5; 5; 6; 8] 3
                    ltac:(lia) ltac:(simpl; lia))).
    simpl. repeat split; lra.
  - apply (proj2 (rsi_of_a_one_way_series [9; 7; 4; 2] 3
                    ltac:(lia) ltac:(simpl; lia))).
    simpl. repeat split; lra.
Defined.

(** ** Average true range *)








(** ** On-balance volume *)

Lemma total_nonneg (l : list Q) : nonnegative l -> 0 <= total l.
Proof.
  induction 1 as [|x l Hx Hl IH]; simpl; lra.
Qed.

Lemma nonnegative_nth (l : list Q) (k : nat) :
  nonnegative l -> 0 <= nth k l 0.
Proof.
  intros H. destruct (Nat.lt_ge_cases k (length l)) as [Hk | Hk].
  - apply (proj1 (Forall_forall _ l) H). apply nth_In. exact Hk.
  - rewrite nth_overflow by exact Hk. lra.
Qed.

Lemma obv_loop_bound (prices volumes : list Q) (n : nat) :
  nonnegative volumes -> length prices = length volumes ->
  forall (i : Z) (o : Q),
    (1 <= i)%Z -> (i + Z.of_nat n <= Z.of_nat (length prices))%Z ->
    exists o',
      obv_loop prices volumes i n (Num o) = Num o'
      /\ o - total (firstn n (skipn (Z.to_nat i) volumes)) <= o'
      /\ o' <= o + total (firstn n (skipn (Z.to_nat i) volumes)).
Proof.
  intros Hv Hlen. induction n as [|n IH]; intros i o Hi Hn.
  - exists o. simpl. split; [reflexivity | lra].
  - cbn [obv_loop].
    rewrite (get_in_range prices) by lia.
    rewrite (get_in_range prices (i - 1)) by lia.
    rewrite (get_in_range volumes) by lia.
    rewrite (skipn_nth_cons volumes (Z.to_nat i)) by lia.
    cbn [firstn total].
    replace (S (Z.to_nat i)) with (Z.to_nat (i + 1)) by lia.
    pose proof (nonnegative_nth volumes (Z.to_nat i) Hv) as Vi.
    set (v := nth (Z.to_nat i) volumes 0) in *.
    assert (T : 0 <= total (firstn n (skipn (Z.to_nat (i + 1)) volumes))).
    { apply total_nonneg. apply Forall_firstn, Forall_skipn. exact Hv. }
    destruct (gt _ _).
    + cbn [add].
      destruct (IH (i + 1)%Z (o + v)) as (o' & E & L & U); try lia.
      exists o'. split; [exact E | lra].
    + destruct (lt _ _).
      * rewrite sub_Num.
        destruct (IH (i + 1)%Z (o + - v)) as (o' & E & L & U); try lia.
        exists o'. split; [exact E | lra].
      * destruct (IH (i + 1)%Z o) as (o' & E & L & U); try lia.
        exists o'. split; [exact E | lra].
Qed.

Lemma obv_loop_rising (prices volumes : list Q) (n : nat) :
  increasing prices -> length prices = length volumes ->
  forall (i : Z) (o : Q),
    (1 <= i)%Z -> (i + Z.of_nat n <= Z.of_nat (length prices))%Z ->
    exists o',
      obv_loop prices volumes i n (Num o) = Num o'
      /\ o' == o + total (firstn n (skipn (Z.to_nat i) volumes)).
Proof.
  intros Hinc Hlen. induction n as [|n IH]; intros i o Hi Hn.
  - exists o. simpl. split; [reflexivity | ring].
  - cbn [obv_loop].
    rewrite (get_in_range prices) by lia.
    rewrite (get_in_range prices (i - 1)) by lia.
    rewrite (get_in_range volumes) by lia.
    rewrite (skipn_nth_cons volumes (Z.to_nat i)) by lia.
    cbn [firstn total].
    replace (S (Z.to_nat i)) with (Z.to_nat (i + 1)) by lia.
    pose proof (RisingSeries.increasing_nth prices Hinc (Z.to_nat (i - 1)))
      as Hstep.
    replace (S (Z.to_nat (i - 1))) with (Z.to_nat i) in Hstep by lia.
    specialize (Hstep ltac:(lia)).
    unfold gt at 1. unfold lt at 1.
    rewrite (proj2 (Qltb_iff _ _) Hstep). cbn [add].
    destruct (IH (i + 1)%Z (o + nth (Z.to_nat i) volumes 0))
      as (o' & E & Ho); try lia.
    exists o'. split; [exact E|]. rewrite Ho. ring.
Qed.

(** X5.  For a price and a volume series of one length (two points or
    more) and volumes that are not negative, the on-balance volume is a
    finite number whose size is at most the volume traded after the
    first day; on a strictly rising series it is exactly that volume. *)
Theorem obv_is_bounded_by_the_traded_volume (prices volumes : list Q) :
  length prices = length volumes -> (2 <= length prices)%nat ->
  nonnegative volumes ->
  exists o,
    calculateOBV prices volumes = Num o
    /\ - total (tl volumes) <= o <= total (tl volumes)
    /\ (increasing prices -> o == total (tl volumes)).
Proof.
  intros Hlen H2 Hv. unfold calculateOBV.
  rewrite (proj2 (Nat.eqb_eq _ _) Hlen).
  rewrite (proj2 (Nat.ltb_ge _ _) H2). cbn [negb orb].
  assert (W : firstn (length prices - 1) (skipn (Z.to_nat 1) volumes)
              = tl volumes).
  { change (Z.to_nat 1) with 1%nat.
    destruct volumes as [|v0 vs]; [simpl in Hlen; lia|].
    cbn [skipn tl]. apply firstn_all2. simpl in Hlen. lia. }
  destruct (obv_loop_bound prices volumes (length prices - 1) Hv Hlen 1%Z 0)
    as (o & E & L & U); try lia.
  rewrite W in L, U.
  exists o. split; [exact E|]. split; [lra|].
  intros Hinc.
  destruct (obv_loop_rising prices volumes (length prices - 1) Hinc Hlen
                            1%Z 0) as (o2 & E2 & Ho); try lia.
  rewrite E in E2. injection E2 as E2. subst o2.
  rewrite W in Ho. rewrite Ho. ring.
Qed.

Lemma obv_is_bounded_by_the_traded_volume_witness :
  exists o,
    calculateOBV [10; 12; 11] [100; 40; 70] = Num o
    /\ - total (tl [100; 40; 70]) <= o <= total (tl [100; 40; 70])
    /\ (increasing [10; 12; 11] -> o == total (tl [100; 40; 70])).
Proof.
  apply (obv_is_bounded_by_the_traded_volume [10; 12; 11] [100; 40; 70]).
  - reflexivity.
  - simpl. lia.
  - unfold nonnegative. repeat constructor; lra.
Defined.

(** ** Maximum drawdown *)

Lemma drawdown_step_sound (p : Q) (md : value) (price : Q) :
  not_below_zero md ->
  exists p' md',
    drawdown_step (Num p, md) price = (Num p', md') /\ not_below_zero md'.
Proof.
  intros Hmd. unfold drawdown_step.
  assert (P : exists p', (if gt (Num price) (Num p) then Num price else Num p)
                         = Num p').
  { destruct (gt (Num price) (Num p)); eexists; reflexivity. }
  destruct P as [p' ->]. exists p'.
  rewrite sub_Num. unfold div.
  destruct Hmd as [-> | (d & -> & Hd)].
  - exists PInf. split; [|left; reflexivity].
    destruct (Qeq_bool p' 0); [destruct (_ ?= 0)|]; reflexivity.
  - destruct (Qeq_bool p' 0).
    + destruct (_ ?= 0); cbn.
      * exists (Num d). split; [reflexivity | right; eauto].
      * exists (Num d). split; [reflexivity | right; eauto].
      * exists PInf. split; [reflexivity | left; reflexivity].
    + unfold gt, lt.
      destruct (Qltb d ((p' + - price) / p')) eqn:E.
      * apply Qltb_iff in E. eexists. split; [reflexivity|].
        right. eexists. split; [reflexivity | lra].
      * exists (Num d). split; [reflexivity | right; eauto].
Qed.

Lemma drawdown_fold_sound (prices : list Q) :
  forall (p : Q) (md : value),
    not_below_zero md ->
    exists p' md',
      fold_left drawdown_step prices (Num p, md) = (Num p', md')
      /\ not_below_zero md'.
Proof.
  induction prices as [|x prices IH]; intros p md Hmd.
  - exists p, md. split; [reflexivity | exact Hmd].
  - cbn [fold_left].
    destruct (drawdown_step_sound p md x Hmd) as (p1 & md1 & E & H1).
    rewrite E. apply IH. exact H1.
Qed.

(** X6.  Whatever the series holds (zero and negative prices included),
    the maximum drawdown is never [NaN] and never negative: it is a
    finite number not below zero, or [Infinity]. *)
Theorem max_drawdown_is_never_negative (prices : list Q) :
  not_below_zero (calculateMaxDrawdown prices).
Proof.
  unfold calculateMaxDrawdown.
  destruct (length prices <? 2)%nat eqn:Hlen.
  - right. exists 0. split; [reflexivity | lra].
  - apply Nat.ltb_ge in Hlen.
    rewrite get_in_range by lia.
    destruct (drawdown_fold_sound prices (nth (Z.to_nat 0) prices 0) (Num 0))
      as (p' & md' & E & H).
    { right. exists 0. split; [reflexivity | lra]. }
    rewrite E.
    destruct H as [-> | (d & -> & Hd)].
    + left. reflexivity.
    + right. eexists. split; [reflexivity|]. lra.
Qed.

Lemma drawdown_step_positive (p d x : Q) :
  0 < p -> 0 < x -> 0 <= d < 1 ->
  exists p' d',
    drawdown_step (Num p, Num d) x = (Num p', Num d')
    /\ 0 < p' /\ 0 <= d' < 1.
Proof.
  intros Hp Hx Hd. unfold drawdown_step, gt. cbn [lt].
  assert (P : exists p',
             (if Qltb p x then Num x else Num p) = Num p'
             /\ 0 < p' /\ x <= p').
  { destruct (Qltb p x) eqn:E.
    - exists x. split; [reflexivity | lra].
    - apply Qltb_false_iff in E. exists p. split; [reflexivity | lra]. }
  destruct P as (p' & -> & Hp' & Hxp).
  rewrite sub_Num. rewrite div_Num by lra.
  assert (D : 0 <= (p' + - x) / p' < 1).
  { split.
    - apply Qle_shift_div_l; [exact Hp' | lra].
    - apply Qlt_shift_div_r; [exact Hp' | lra]. }
  cbn [lt].
  destruct (Qltb d ((p' + - x) / p')); eexists; eexists;
    (split; [reflexivity | split; assumption]).
Qed.

Lemma drawdown_fold_positive (prices : list Q) :
  positive prices ->
  forall p d : Q,
    0 < p -> 0 <= d < 1 ->
    exists p' d',
      fold_left drawdown_step prices (Num p, Num d) = (Num p', Num d')
      /\ 0 < p' /\ 0 <= d' < 1.
Proof.
  induction 1 as [|x prices Hx Hrest IH]; intros p d Hp Hd.
  - exists p, d. split; [reflexivity | split; assumption].
  - cbn [fold_left].
    destruct (drawdown_step_positive p d x Hp Hx Hd)
      as (p1 & d1 & E & Hp1 & Hd1).
    rewrite E. apply IH; assumption.
Qed.

Lemma chain_le_head (x y : Q) (rest : list Q) :
  chain Qle (x :: rest) -> y <= x -> chain Qle (y :: rest).
Proof.
  destruct rest as [|z rest]; [intros; exact I|].
  intros [Hxz Hrest] Hyx. split; [lra | exact Hrest].
Qed.

Lemma drawdown_step_never_falling (p x : Q) :
  0 < p -> p <= x ->
  exists p',
    drawdown_step (Num p, Num 0) x = (Num p', Num 0) /\ 0 < p' /\ p' == x.
Proof.
  intros Hp Hpx. unfold drawdown_step, gt. cbn [lt].
  assert (P : exists p',
             (if Qltb p x then Num x else Num p) = Num p'
             /\ 0 < p' /\ p' == x).
  { destruct (Qltb p x) eqn:E.
    - exists x. split; [reflexivity | split; [lra | reflexivity]].
    - apply Qltb_false_iff in E. exists p.
      split; [reflexivity | split; [lra | lra]]. }
  destruct P as (p' & -> & Hp' & Hxp).
  rewrite sub_Num. rewrite div_Num by lra.
  assert (D : (p' + - x) / p' <= 0).
  { apply Qle_shift_div_r; [exact Hp' | lra]. }
  cbn [lt]. rewrite (proj2 (Qltb_false_iff _ _) D).
  exists p'. split; [reflexivity | split; assumption].
Qed.

Lemma drawdown_fold_never_falling (prices : list Q) :
  forall p : Q,
    0 < p -> chain Qle (p :: prices) ->
    exists p', fold_left drawdown_step prices (Num p, Num 0) = (Num p', Num 0).
Proof.
  induction prices as [|x prices IH]; intros p Hp Hc.
  - exists p. reflexivity.
  - cbn [fold_left]. destruct Hc as [Hpx Hc].
    destruct (drawdown_step_never_falling p x Hp Hpx) as (p' & E & Hp' & Hx).
    rewrite E. apply IH; [exact Hp'|].
    apply (chain_le_head x); [exact Hc | lra].
Qed.

Lemma calculateMaxDrawdown_positive (prices : list Q) :
  positive prices ->
  exists q, calculateMaxDrawdown prices = Num q /\ 0 <= q < 100.
Proof.
  intros Hpos. unfold calculateMaxDrawdown.
  destruct (length prices <? 2)%nat eqn:Hlen.
  - exists 0. split; [reflexivity | lra].
  - apply Nat.ltb_ge in Hlen.
    rewrite get_in_range by lia.
    assert (H0 : 0 < nth (Z.to_nat 0) prices 0).
    { apply (proj1 (Forall_forall _ prices) Hpos). apply nth_In. lia. }
    destruct (drawdown_fold_positive prices Hpos
                (nth (Z.to_nat 0) prices 0) 0 H0 ltac:(lra))
      as (p' & d' & E & _ & Hd).
    rewrite E. eexists. split; [reflexivity | lra].
Qed.

Lemma calculateMaxDrawdown_never_falling (prices : list Q) :
  positive prices -> chain Qle prices ->
  is_zero (calculateMaxDrawdown prices).
Proof.
  intros Hpos Hc. unfold calculateMaxDrawdown.
  destruct (length prices <? 2)%nat eqn:Hlen.
  - exists 0. split; reflexivity.
  - apply Nat.ltb_ge in Hlen.
    rewrite get_in_range by lia.
    assert (H0 : 0 < nth (Z.to_nat 0) prices 0).
    { apply (proj1 (Forall_forall _ prices) Hpos). apply nth_In. lia. }
    destruct (drawdown_fold_never_falling prices
                (nth (Z.to_nat 0) prices 0) H0) as (p' & E).
    { destruct prices as [|x rest]; [simpl in Hlen; lia|].
      split; [apply Qle_refl | exact Hc]. }
    rewrite E. eexists. split; [reflexivity | ring].
Qed.

(** X7.  For positive prices the maximum drawdown is a finite percentage
    from 0 up to, but not reaching, 100; it is 0 when the series never
    falls. *)
Theorem max_drawdown_of_positive_prices (prices : list Q) :
  positive prices ->
  (exists q, calculateMaxDrawdown prices = Num q /\ 0 <= q < 100)
  /\ (chain Qle prices -> is_zero (calculateMaxDrawdown prices)).
Proof.
  intros Hpos. split.
  - apply calculateMaxDrawdown_positive. exact Hpos.
  - apply calculateMaxDrawdown_never_falling. exact Hpos.
Qed.

Lemma max_drawdown_of_positive_prices_witness :
  (exists q, calculateMaxDrawdown [10; 8; 12] = Num q /\ 0 <= q < 100)
  /\ (chain Qle [10; 8; 12] -> is_zero (calculateMaxDrawdown [10; 8; 12])).
Proof.
  apply (max_drawdown_of_positive_prices [10; 8; 12]).
  unfold positive. repeat constructor.
Defined.

(** ** A flat series *)

















Section FlatSeries.

Variable Math_sqrt : Q -> Q.

(** The square root of zero is zero. *)
Hypothesis sqrt_zero : forall x, x == 0 -> Math_sqrt x == 0.










End FlatSeries.


(** ** RSI on any sufficient history *)

(** X27.  For every positive period, the RSI is exactly 50 while the
    series has fewer than [period + 1] prices, and from [period + 1]
    prices on it is a finite number between 0 and 100. *)
Theorem rsi_is_a_percentage (prices : list Q) (period : nat) :
  (0 < period)%nat ->
  exists q,
    calculateRSI prices period = Num q
    /\ 0 <= q <= 100
    /\ ((length prices < period + 1)%nat -> q = 50).
Proof.
  intros Hp.
  destruct (Nat.lt_ge_cases (length prices) (period + 1)) as [Hs | Hl].
  - exists 50. rewrite calculateRSI_short by exact Hs.
    split; [reflexivity|]. split; [lra | reflexivity].
  - destruct (calculateRSI_range prices period Hp Hl) as (q & E & Hq).
    exists q. split; [exact E|]. split; [exact Hq | lia].
Qed.

Lemma rsi_is_a_percentage_witness :
  exists q,
    calculateRSI [10; 12; 11; 14; 13; 15] 3 = Num q
    /\ 0 <= q <= 100
    /\ ((length [10; 12; 11; 14; 13; 15] < 3 + 1)%nat -> q = 50).
Proof.
  apply (rsi_is_a_percentage [10; 12; 11; 14; 13; 15] 3). lia.
Defined.

(** ** Momentum *)

Lemma positive_nth (l : list Q) (k : nat) :
  positive l -> (k < length l)%nat -> 0 < nth k l 0.
Proof.
  intros H Hk. apply (proj1 (Forall_forall _ l) H). apply nth_In. exact Hk.
Qed.

(** X28.  Momentum follows the price move.  For positive prices and a
    history of at least [period + 1] points, the price momentum and the
    rate of change are one finite number, the percentage change of the
    last price against the price [period] steps earlier: it is above
    -100, positive exactly when the price rose and zero exactly when it
    is unchanged. *)
Theorem momentum_follows_the_price_move (prices : list Q) (period : nat) :
  positive prices -> (period + 1 <= length prices)%nat ->
  exists m,
    calculatePriceMomentum prices period = Num m
    /\ calculateROC prices period = Num m
    /\ -100 < m
    /\ (0 < m <-> nth (length prices - period - 1) prices 0
                  < nth (length prices - 1) prices 0)
    /\ (m == 0 <-> nth (length prices - period - 1) prices 0
                   == nth (length prices - 1) prices 0).
Proof.
  intros Hpos Hlen.
  unfold calculatePriceMomentum, calculateROC.
  rewrite (proj2 (Nat.ltb_ge _ _) Hlen).
  rewrite !get_in_range by lia.
  replace (Z.to_nat (Z.of_nat (length prices) - 1))
    with (length prices - 1)%nat by lia.
  replace (Z.to_nat (Z.of_nat (length prices) - Z.of_nat period - 1))
    with (length prices - period - 1)%nat by lia.
  pose proof (positive_nth prices (length prices - 1) Hpos ltac:(lia)) as Hc.
  pose proof (positive_nth prices (length prices - period - 1) Hpos
                           ltac:(lia)) as Hp.
  set (current := nth (length prices - 1) prices 0) in *.
  set (past := nth (length prices - period - 1) prices 0) in *.
  rewrite sub_Num, div_Num by lra. cbn [mul].
  eexists. split; [reflexivity|]. split; [reflexivity|].
  assert (E : (current + - past) / past * past == current + - past)
    by (field; lra).
  set (r := (current + - past) / past) in *.
  assert (Sign : 0 < r * past <-> 0 < r).
  { split; intros H.
    - destruct (Qlt_le_dec 0 r) as [H1 | H1]; [exact H1|].
      assert (0 <= (- r) * past) by (apply Qmult_le_0_compat; lra). lra.
    - apply Qmult_lt_0_compat; assumption. }
  assert (Low : -1 < r).
  { destruct (Qlt_le_dec (-1) r) as [H1 | H1]; [exact H1|].
    assert (0 <= (- 1 - r) * past) by (apply Qmult_le_0_compat; lra). lra. }
  assert (Zero : r * past == 0 <-> r == 0).
  { split; intros H.
    - destruct (Qmult_integral _ _ H) as [H1 | H1]; [exact H1 | lra].
    - rewrite H. ring. }
  split; [lra|]. split.
  - split; intros H.
    + assert (0 < r) by lra. apply Sign in H0. lra.
    + assert (0 < r * past) by lra. apply Sign in H0. lra.
  - split; intros H.
    + assert (r == 0) by lra. apply Zero in H0. lra.
    + assert (r * past == 0) by lra. apply Zero in H0. lra.
Qed.

Lemma momentum_follows_the_price_move_witness :
  exists m,
    calculatePriceMomentum [10; 12; 11; 14] 2 = Num m
    /\ calculateROC [10; 12; 11; 14] 2 = Num m
    /\ -100 < m
    /\ (0 < m <-> nth (length [10; 12; 11; 14] - 2 - 1) [10; 12; 11; 14] 0
                  < nth (length [10; 12; 11; 14] - 1) [10; 12; 11; 14] 0)
    /\ (m == 0 <-> nth (length [10; 12; 11; 14] - 2 - 1) [10; 12; 11; 14] 0
                   == nth (length [10; 12; 11; 14] - 1) [10; 12; 11; 14] 0).
Proof.
  apply (momentum_follows_the_price_move [10; 12; 11; 14] 2).
  - unfold positive. repeat constructor.
  - simpl. lia.
Defined.

(** ** Volume indicators on a steady volume *)








End IndicatorFacts.
(* ================================================================== *)
(** * Component scores, signals and the ranking *)
(* ================================================================== *)

Module ScoreFacts.

Import RankingEngine CoinRanking JSFacts.

(** ** Score ranges *)

Lemma clamp_range (score : Q) : 0 <= Qmax 0 (Qmin 100 score) <= 100.
Proof.
  destruct (Q.max_spec 0 (Qmin 100 score)) as [[H1 H2] | [H1 H2]];
    destruct (Q.min_spec 100 score) as [[H3 H4] | [H3 H4]];
    rewrite H2; try rewrite H4; try rewrite H4 in H1; lra.
Qed.

Lemma scoreTechnical_range (t : TechnicalIndicators) (currentPrice : value) :
  0 <= scoreTechnical t currentPrice <= 100.
Proof. apply clamp_range. Qed.

Lemma scoreMomentum_range (m : MomentumIndicators) :
  0 <= scoreMomentum m <= 100.
Proof. apply clamp_range. Qed.

Lemma scoreVolume_range (m : MarketMetrics) (volumes : list Q) :
  0 <= scoreVolume m volumes <= 100.
Proof. apply clamp_range. Qed.

Lemma scoreVolatility_range (r : RiskMetrics) :
  0 <= scoreVolatility r <= 100.
Proof. apply clamp_range. Qed.

Lemma scoreFundamentals_range (m : MarketMetrics) :
  0 <= scoreFundamentals m <= 100.
Proof. apply clamp_range. Qed.

Lemma ranking_confidence_range (t : TechnicalIndicators)
      (m : MomentumIndicators) (r : RiskMetrics) :
  50 <= calculateConfidence t m r <= 100.
Proof.
  unfold calculateConfidence.
  destruct (_ && _ && _); destruct (_ && _); destruct (_ && _);
    match goal with
    | |- _ <= Qmin 100 ?c <= _ =>
        destruct (Q.min_spec 100 c) as [[H1 H2] | [H1 H2]]; rewrite H2; lra
    end.
Qed.

(** X9.  Every score of an analysed coin is in its documented range,
    whatever the market object and the history hold: the five component
    scores and the weighted total lie between 0 and 100, and the
    confidence between 50 and 100. *)
Theorem analyzeCoin_scores_in_range
        (Math_sqrt : Q -> Q) (Date_now : Q) (Date_parse : string -> Q)
        (marketData : MarketData) (history_ : RiskScoring.PriceHistory) :
  scores_in_range
    (analyzeCoin Math_sqrt Date_now Date_parse marketData history_).
Proof.
  unfold analyzeCoin, scores_in_range.
  destruct (generateSignals _ _ _) as [trend_ signals_].
  cbn [technicalScore momentumScore volumeScore volatilityScore
       fundamentalScore totalScore confidence weights weight_technical
       weight_momentum weight_volume weight_volatility weight_fundamental].
  match goal with
  | |- context [scoreTechnical ?t ?p] =>
      pose proof (scoreTechnical_range t p) as T
  end.
  match goal with
  | |- context [scoreMomentum ?m] => pose proof (scoreMomentum_range m) as M
  end.
  match goal with
  | |- context [scoreVolume ?m ?v] => pose proof (scoreVolume_range m v) as V
  end.
  match goal with
  | |- context [scoreVolatility ?r] =>
      pose proof (scoreVolatility_range r) as R
  end.
  match goal with
  | |- context [scoreFundamentals ?m] =>
      pose proof (scoreFundamentals_range m) as F
  end.
  match goal with
  | |- context [calculateConfidence ?t ?m ?r] =>
      pose proof (ranking_confidence_range t m r) as C
  end.
  repeat match goal with |- _ /\ _ => split end; lra.
Qed.

(** ** Signals and trend *)

(** X10.  The trend follows the MACD and the 50-day average: a bullish
    trend is reported only when the MACD histogram is positive or the
    price is above the 50-day average, a bearish one only when one of
    the two fails; every analysis emits at least two and at most five
    signals. *)
Theorem trend_needs_macd_or_sma50
        (t : TechnicalIndicators) (m : MomentumIndicators) (prices : list Q) :
  (fst (generateSignals t m prices) = bullish ->
     gt (histogram (macd t)) (Num 0) = true
     \/ gt (get prices (Z.of_nat (length prices) - 1)) (sma50 t) = true)
  /\ (fst (generateSignals t m prices) = bearish ->
     gt (histogram (macd t)) (Num 0) = false
     \/ gt (get prices (Z.of_nat (length prices) - 1)) (sma50 t) = false)
  /\ (2 <= length (snd (generateSignals t m prices)) <= 5)%nat.
Proof.
  unfold generateSignals.
  destruct (lt (rsi t) (Num 30)); destruct (gt (rsi t) (Num 70));
    destruct (gt (histogram (macd t)) (Num 0));
    destruct (gt (get prices (Z.of_nat (length prices) - 1)) (sma50 t));
    destruct (gt (priceMomentum m) (Num 10));
    destruct (lt (priceMomentum m) (Num (-10)));
    destruct (gt (volumeMomentum m) (Num 20));
    cbn; (split; [|split]);
    try (intros H; discriminate H);
    try (intros _; left; reflexivity);
    try (intros _; right; reflexivity);
    lia.
Qed.

(** ** The ranking *)

Lemma insert_sorted_perm {A} (compare : A -> A -> Q) (x : A) (l : list A) :
  Permutation (insert_sorted compare x l) (x :: l).
Proof.
  induction l as [|y l IH]; simpl.
  - apply Permutation_refl.
  - destruct (Qltb 0 (compare x y)).
    + apply Permutation_trans with (y :: x :: l).
      * apply perm_skip. exact IH.
      * apply perm_swap.
    + apply Permutation_refl.
Qed.

Lemma sort_with_perm {A} (compare : A -> A -> Q) (l : list A) :
  Permutation (sort_with compare l) l.
Proof.
  induction l as [|x l IH]; simpl.
  - apply Permutation_refl.
  - apply Permutation_trans with (x :: sort_with compare l).
    + apply insert_sorted_perm.
    + apply perm_skip. exact IH.
Qed.

Lemma insert_sorted_descending {A} (key : A -> Q) (x : A) (l : list A) :
  descending key l ->
  descending key (insert_sorted (fun a b => key b - key a) x l).
Proof.
  unfold descending. intros H.
  induction H as [|y l Hl IH Hy]; simpl.
  - constructor; constructor.
  - destruct (Qltb 0 (key y - key x)) eqn:E.
    + apply Qltb_iff in E.
      constructor; [exact IH|].
      apply (Permutation_Forall
               (Permutation_sym
                  (insert_sorted_perm (fun a b => key b - key a) x l))).
      constructor; [lra | exact Hy].
    + apply Qltb_false_iff in E.
      constructor; [constructor; assumption|].
      constructor; [lra|].
      apply (Forall_impl _ (P := fun b => key b <= key y)); [|exact Hy].
      intros b Hb. lra.
Qed.

Lemma sort_with_descending {A} (key : A -> Q) (l : list A) :
  descending key (sort_with (fun a b => key b - key a) l).
Proof.
  induction l as [|x l IH]; simpl.
  - constructor.
  - apply insert_sorted_descending. exact IH.
Qed.

Lemma non_null_In {A} (x : A) (l : list (option A)) :
  In x (non_null l) <-> In (Some x) l.
Proof.
  induction l as [|[y|] l IH]; simpl.
  - tauto.
  - rewrite IH. split; intros [H | H]; auto.
    + left. congruence.
    + left. congruence.
  - rewrite IH. split; [auto | intros [H | H]; [discriminate | exact H]].
Qed.

Lemma non_null_length {A} (l : list (option A)) :
  (length (non_null l) <= length l)%nat.
Proof.
  induction l as [|[y|] l IH]; simpl; lia.
Qed.

(** [scoreFundamentals] when supply, 30-day change and all-time high
    are zero: both quotients divide by zero. *)
Lemma scoreFundamentals_without_supply_and_ath
      (cap vol change c7 c1y d1 low d2 : Q) :
  scoreFundamentals (mkMarket cap vol 0 0 change c7 0 c1y 0 d1 low d2)
  == 50 + size_points cap + day_change_points change.
Proof.
  unfold scoreFundamentals, size_points, day_change_points.
  cbn [marketCap circulatingSupply totalSupply priceChange30d ath
       priceChange24h].
  assert (S0 : (Num 0 / Num (if Qeq_bool 0 0 then 0 else 0))%js = NaN)
    by reflexivity.
  rewrite S0. cbn [gt lt].
  replace (Qltb 10 0) with false by reflexivity.
  replace (Qltb 0 (-20)) with false by reflexivity.
  rewrite sub_Num.
  assert (D : ((Num (0 + - change) / Num 0) * Num 100)%js
              = if Qltb change 0 then PInf
                else if Qltb 0 change then NInf else NaN).
  { unfold div. replace (Qeq_bool 0 0) with true by reflexivity.
    destruct (Qltb change 0) eqn:E1.
    - apply Qltb_iff in E1.
      assert (G : 0 + - change > 0) by lra.
      rewrite (proj1 (Qgt_alt _ _) G). reflexivity.
    - apply Qltb_false_iff in E1.
      destruct (Qltb 0 change) eqn:E2.
      + apply Qltb_iff in E2.
        assert (G : 0 + - change < 0) by lra.
        rewrite (proj1 (Qlt_alt _ _) G). reflexivity.
      + apply Qltb_false_iff in E2.
        assert (G : 0 + - change == 0) by lra.
        rewrite (proj1 (Qeq_alt _ _) G). reflexivity. }
  rewrite D.
  assert (B : forall base : Q,
             20 <= base <= 80 ->
             Qmax 0 (Qmin 100 base) == base).
  { intros base Hb.
    rewrite (Q.min_r 100 base) by lra. apply Q.max_r. lra. }
  destruct (Qltb 1000000000 cap && Qltb cap 100000000000);
    [|destruct (Qltb 100000000 cap); [|destruct (Qltb cap 10000000)]];
    (destruct (Qltb change 0); [|destruct (Qltb 0 change)]);
    cbn [gt lt]; rewrite B; lra.
Qed.

Section Collaborators.

Variable Math_sqrt : Q -> Q.
Variable Date_now : Q.
Variable Date_parse : string -> Q.
Variable markets : string -> Q -> Q -> string + list MarketRow.
Variable history : string -> string -> Q -> string + RiskScoring.PriceHistory.

Lemma analyze_or_skip_some (row : MarketRow) (s : CoinScore) :
  analyze_or_skip Math_sqrt Date_now Date_parse history row = Some s
  <-> exists h,
        history (row_id row) "usd"%string 90 = inr h
        /\ (30 <= length (RiskScoring.prices h))%nat
        /\ s = analyzeCoin Math_sqrt Date_now Date_parse (row_object row) h.
Proof.
  unfold analyze_or_skip.
  destruct (history (row_id row) "usd"%string 90) as [e | h].
  - split; [discriminate | intros (h & E & _); discriminate].
  - destruct (length (RiskScoring.prices h) <? 30)%nat eqn:L.
    + apply Nat.ltb_lt in L.
      split; [discriminate|].
      intros (h' & E & Hl & _). injection E as <-. lia.
    + apply Nat.ltb_ge in L. split.
      * intros E. injection E as <-. exists h. auto.
      * intros (h' & E & _ & ->). injection E as <-. reflexivity.
Qed.

(** X11.  The ranking survives a coin it cannot analyse.  When the
    market list cannot be fetched the error is passed on; otherwise
    [rankCoins] returns, and its result holds exactly the analyses of
    the rows whose history could be fetched and has at least thirty
    prices, in descending order of total score. *)
Theorem rankCoins_ranks_what_it_can_analyse (limit : Q) :
  match markets "usd"%string 1 limit with
  | inl error =>
      rankCoins Math_sqrt Date_now Date_parse markets history limit
      = inl error
  | inr rows =>
      exists ranked,
        rankCoins Math_sqrt Date_now Date_parse markets history limit
        = inr ranked
        /\ descending totalScore ranked
        /\ (length ranked <= length rows)%nat
        /\ forall s,
             In s ranked
             <-> exists row h,
                   In row rows
                   /\ history (row_id row) "usd"%string 90 = inr h
                   /\ (30 <= length (RiskScoring.prices h))%nat
                   /\ s = analyzeCoin Math_sqrt Date_now Date_parse
                                      (row_object row) h
  end.
Proof.
  unfold rankCoins.
  destruct (markets "usd"%string 1 limit) as [error | rows]; cbn.
  - reflexivity.
  - eexists. split; [reflexivity|]. split; [|split].
    + apply sort_with_descending.
    + rewrite (Permutation_length (sort_with_perm _ _)).
      etransitivity; [apply non_null_length|].
      rewrite length_map. apply Nat.le_refl.
    + intros s. split.
      * intros H.
        apply (Permutation_in _ (sort_with_perm _ _)) in H.
        apply non_null_In in H. apply in_map_iff in H.
        destruct H as (row & E & Hrow).
        apply analyze_or_skip_some in E. destruct E as (h & E1 & E2 & E3).
        exists row, h. auto.
      * intros (row & h & Hrow & E1 & E2 & E3).
        apply (Permutation_in _ (Permutation_sym (sort_with_perm _ _))).
        apply non_null_In. apply in_map_iff.
        exists row. split; [|exact Hrow].
        apply analyze_or_skip_some. exists h. auto.
Qed.

(** ** The fundamental score of a ranked coin *)

(** X12.  A market row carries no supply figure, no 30-day change and
    no all-time high, so in the ranking these read as zero: the supply
    ratio and the distance from the high are not finite numbers, and
    the fundamental score of a ranked coin is 50 plus the points for
    its size band plus ten points when the 24-hour change is negative,
    minus ten when it is positive. *)
Theorem ranked_fundamentals_use_size_and_day_change
        (row : MarketRow) (history_ : RiskScoring.PriceHistory) :
  circulatingSupply
    (market (analyzeCoin Math_sqrt Date_now Date_parse
                         (row_object row) history_)) = 0
  /\ totalSupply
       (market (analyzeCoin Math_sqrt Date_now Date_parse
                            (row_object row) history_)) = 0
  /\ priceChange30d
       (market (analyzeCoin Math_sqrt Date_now Date_parse
                            (row_object row) history_)) = 0
  /\ ath (market (analyzeCoin Math_sqrt Date_now Date_parse
                              (row_object row) history_)) = 0
  /\ fundamentalScore (analyzeCoin Math_sqrt Date_now Date_parse
                                   (row_object row) history_)
     == 50 + size_points (row_market_cap row)
        + day_change_points (row_price_change_percentage_24h row).
Proof.
  unfold analyzeCoin.
  destruct (generateSignals _ _ _) as [trend_ signals_].
  cbn [market fundamentalScore extractMarketMetrics row_object or_zero
       md_market_cap md_total_volume md_circulating_supply md_total_supply
       md_price_change_percentage_24h
       md_price_change_percentage_30d_in_currency md_ath
       circulatingSupply totalSupply priceChange30d ath].
  repeat match goal with |- _ /\ _ => split end; try reflexivity.
  apply scoreFundamentals_without_supply_and_ath.
Qed.

End Collaborators.

End ScoreFacts.
(* ================================================================== *)
(** * Risk and reward factors of the single-asset score *)
(* ================================================================== *)

Module RiskFactorFacts.

Import RiskScoring JSFacts RiskFacts.
Import MonadNotation.
Local Open Scope monad_scope.

(** ** Rounding and clamping *)

Lemma Math_round_range (lo hi : Z) (q : Q) :
  inject_Z lo <= q <= inject_Z hi ->
  inject_Z lo <= Math_round q <= inject_Z hi.
Proof.
  intros [L U]. unfold Math_round. rewrite <- !Zle_Qle. split.
  - rewrite <- (Qfloor_Z lo). apply Qfloor_resp_le. lra.
  - apply Z.lt_succ_r. rewrite Zlt_Qlt.
    apply (Qle_lt_trans _ (q + (1 # 2))); [apply Qfloor_le|].
    unfold Z.succ. rewrite inject_Z_plus. change (inject_Z 1) with 1. lra.
Qed.

Lemma Math_round_percent (q : Q) :
  0 <= q <= 100 -> 0 <= Math_round q <= 100.
Proof. intros H. apply (Math_round_range 0 100). exact H. Qed.

Lemma clamp_percent (x : Q) : 0 <= Qmin 100 (Qmax 0 x) <= 100.
Proof.
  destruct (Q.min_spec 100 (Qmax 0 x)) as [[H1 H2] | [H1 H2]];
    destruct (Q.max_spec 0 x) as [[H3 H4] | [H3 H4]];
    rewrite H2; try rewrite H4; try rewrite H4 in H1; lra.
Qed.

(** ** The weighted scores *)

Lemma risk_score_formula (f : RiskFactors) :
  calculateWeightedScore (risk_entries f) RISK_WEIGHTS
  = 0 + volatility f * 0.25 + marketCap f * 0.20 + liquidity f * 0.15
    + age f * 0.10 + development f * 0.10 + centralization f * 0.08
    + regulatory f * 0.07 + technical f * 0.05.
Proof. reflexivity. Qed.

Lemma reward_score_formula (f : RewardFactors) :
  calculateWeightedScore (reward_entries f) REWARD_WEIGHTS
  = 0 + growth f * 0.20 + adoption f * 0.18 + innovation f * 0.15
    + partnerships f * 0.10 + utility f * 0.12 + community f * 0.10
    + tokenomics f * 0.15.
Proof. reflexivity. Qed.

(** Each weighted score is an average: it lies in any range that holds
    all its factors. *)
Lemma risk_score_between (f : RiskFactors) (lo hi : Q) :
  Forall (fun entry => lo <= snd entry <= hi) (risk_entries f) ->
  lo <= calculateWeightedScore (risk_entries f) RISK_WEIGHTS <= hi.
Proof.
  intros H. rewrite risk_score_formula. unfold risk_entries in H.
  repeat match goal with
         | K : Forall _ (_ :: _) |- _ => inversion K; clear K; subst
         end.
  cbn [snd] in *. split; lra.
Qed.

Lemma reward_score_between (f : RewardFactors) (lo hi : Q) :
  Forall (fun entry => lo <= snd entry <= hi) (reward_entries f) ->
  lo <= calculateWeightedScore (reward_entries f) REWARD_WEIGHTS <= hi.
Proof.
  intros H. rewrite reward_score_formula. unfold reward_entries in H.
  repeat match goal with
         | K : Forall _ (_ :: _) |- _ => inversion K; clear K; subst
         end.
  cbn [snd] in *. split; lra.
Qed.

(** ** The factors *)

Lemma calculateAdoptionScore_range (data : CoinDetail) :
  0 <= total_volume data -> 0 <= calculateAdoptionScore data <= 100.
Proof.
  intros Hv. unfold calculateAdoptionScore.
  assert (V : 0 <= Qmin 50 (total_volume data / 1000000)).
  { apply Q.min_glb; [lra|]. apply Qle_shift_div_l; lra. }
  assert (R : 0 <= (if Qeq_bool (market_cap_rank data) 0 then 20
                    else Qmax 0 (100 - market_cap_rank data))).
  { destruct (Qeq_bool _ 0); [lra | apply Q.le_max_l]. }
  split.
  - apply Q.min_glb; lra.
  - apply Q.le_min_l.
Qed.

Lemma calculateUtilityScore_range (data : CoinDetail) :
  30 <= calculateUtilityScore data <= 100.
Proof.
  unfold calculateUtilityScore.
  repeat match goal with
         | |- context [if ?c then _ else _] => destruct c
         end;
    match goal with
    | |- _ <= Qmin 100 ?c <= _ =>
        destruct (Q.min_spec 100 c) as [[H1 H2] | [H1 H2]]; rewrite H2; lra
    end.
Qed.

Lemma reward_factors_range (data : CoinDetail) :
  0 <= total_volume data ->
  exists f,
    calculateRewardFactors data = inr f
    /\ Forall (fun entry => 0 <= snd entry <= 100) (reward_entries f).
Proof.
  intros Hv. eexists. split; [reflexivity|].
  unfold reward_entries.
  cbn [growth adoption innovation partnerships utility community tokenomics].
  pose proof (calculateAdoptionScore_range data Hv).
  pose proof (calculateUtilityScore_range data).
  repeat constructor; cbn [snd]; try lra;
    try apply clamp_percent;
    unfold calculateInnovationScore, calculatePartnershipScore,
      calculateCommunityScore;
    repeat match goal with
           | |- context [if ?c then _ else _] => destruct c
           end; lra.
Qed.

Lemma score_confidence_range (data : CoinDetail) (risk : RiskFactors)
      (reward : RewardFactors) :
  30 <= calculateConfidence data risk reward <= 100.
Proof.
  unfold calculateConfidence.
  destruct (Qeq_bool (market_cap data) 0);
    destruct (Qeq_bool (total_volume data) 0);
    destruct (description data) as [[|c d]|];
    destruct (Qeq_bool (market_cap_rank data) 0);
    destruct (Qeq_bool (volatility risk) 50);
    match goal with
    | |- _ <= Qmax 0 ?c <= _ =>
        destruct (Q.max_spec 0 c) as [[H1 H2] | [H1 H2]]; rewrite H2; lra
    end.
Qed.

Section Collaborators.

Variable coin : string -> string + CoinDetail.
Variable history : string -> string -> Q -> string + PriceHistory.
Variable Math_sqrt : Q -> Q.
Variable Number_toString : Q -> string.

Lemma calculateVolatilityScore_range (rows : list (Q * Q)) :
  0 <= calculateVolatilityScore Math_sqrt rows <= 100.
Proof.
  unfold calculateVolatilityScore.
  destruct (length rows <? 2)%nat; [lra|].
  destruct (length _ =? 0)%nat; [lra|].
  apply clamp_percent.
Qed.

Lemma calculateMarketCapRisk_range (cap : Q) :
  5 <= calculateMarketCapRisk cap <= 90.
Proof.
  unfold calculateMarketCapRisk.
  repeat match goal with
         | |- context [if ?c then _ else _] => destruct c
         end; lra.
Qed.

Lemma calculateLiquidityRisk_range (volume cap : Q) :
  10 <= calculateLiquidityRisk volume cap <= 95.
Proof.
  unfold calculateLiquidityRisk.
  repeat match goal with
         | |- context [if ?c then _ else _] => destruct c
         end; lra.
Qed.

Lemma risk_factors_range (data : CoinDetail) :
  exists f,
    calculateRiskFactors history Math_sqrt data = inr f
    /\ Forall (fun entry => 0 <= snd entry <= 100) (risk_entries f).
Proof.
  unfold calculateRiskFactors.
  assert (V : exists v,
             catch (h <- history (id data) "usd" 30 ;;
                    ret (calculateVolatilityScore Math_sqrt (prices h)))
                   (fun _ => ret 50) = inr v
             /\ 0 <= v <= 100).
  { destruct (history (id data) "usd" 30) as [e | h]; cbn.
    - exists 50. split; [reflexivity | lra].
    - eexists. split; [reflexivity|]. apply calculateVolatilityScore_range. }
  destruct V as (v & E & Hv).
  eexists. split.
  - cbn -[calculateVolatilityScore] in *. rewrite E. reflexivity.
  - unfold risk_entries. cbn [volatility marketCap liquidity age development
                               centralization regulatory technical].
    pose proof (calculateMarketCapRisk_range (market_cap data)).
    pose proof (calculateLiquidityRisk_range (total_volume data)
                                             (market_cap data)).
    repeat constructor; cbn [snd]; try lra;
      unfold calculateAgeRisk, calculateDevelopmentRisk,
        calculateCentralizationRisk, calculateRegulatoryRisk,
        calculateTechnicalRisk;
      repeat match goal with
             | |- context [if ?c then _ else _] => destruct c
             end; lra.
Qed.

(** The coin the [try] block works on: the one passed in, else the one
    fetched. *)
Lemma attempt_result (coinId : string) (coinData : option CoinDetail)
      (data : CoinDetail) :
  match coinData with Some d => inr d | None => coin coinId end = inr data ->
  exists risk reward,
    calculateRiskFactors history Math_sqrt data = inr risk
    /\ calculateRewardFactors data = inr reward
    /\ calculateScore coin history Math_sqrt Number_toString coinId coinData
       = inr (mkScore
                (Math_round
                   (calculateWeightedScore (risk_entries risk) RISK_WEIGHTS))
                (Math_round
                   (calculateWeightedScore (reward_entries reward)
                                           REWARD_WEIGHTS))
                (determineCategory
                   (calculateWeightedScore (risk_entries risk) RISK_WEIGHTS)
                   (calculateWeightedScore (reward_entries reward)
                                           REWARD_WEIGHTS)
                   data)
                (risk, reward)
                (Math_round (calculateConfidence data risk reward))
                (generateExplanation
                   Number_toString
                   (calculateWeightedScore (risk_entries risk) RISK_WEIGHTS)
                   (calculateWeightedScore (reward_entries reward)
                                           REWARD_WEIGHTS)
                   (determineCategory
                      (calculateWeightedScore (risk_entries risk)
                                              RISK_WEIGHTS)
                      (calculateWeightedScore (reward_entries reward)
                                              REWARD_WEIGHTS)
                      data)
                   data)).
Proof.
  intros Hdata.
  destruct (risk_factors_range data) as (risk & Er & _).
  exists risk. eexists. split; [exact Er|]. split; [reflexivity|].
  unfold calculateScore, calculateScore_try.
  assert (D : match coinData with
              | Some d => ret d
              | None => coin coinId
              end = inr data).
  { destruct coinData; exact Hdata. }
  rewrite D. cbn -[calculateRiskFactors calculateRewardFactors].
  rewrite Er. reflexivity.
Qed.

(** X13.  A score stays in its documented range.  For a coin whose
    traded volume is not negative, [calculateScore] returns a result
    whose risk score, reward score and confidence all lie between 0 and
    100 and whose fifteen factors do so as well. *)
Theorem calculateScore_result_in_range
        (coinId : string) (coinData : option CoinDetail) :
  (forall data,
      match coinData with Some d => inr d | None => coin coinId end
      = inr data ->
      0 <= total_volume data) ->
  exists r,
    calculateScore coin history Math_sqrt Number_toString coinId coinData
    = inr r
    /\ 0 <= riskScore r <= 100
    /\ 0 <= rewardScore r <= 100
    /\ 0 <= confidence r <= 100
    /\ Forall (fun entry => 0 <= snd entry <= 100)
              (risk_entries (fst (factors r)))
    /\ Forall (fun entry => 0 <= snd entry <= 100)
              (reward_entries (snd (factors r))).
Proof.
  intros Hvol.
  destruct (match coinData with Some d => inr d | None => coin coinId end)
    as [e | data] eqn:Source.
  - exists safe_default. split.
    + unfold calculateScore.
      rewrite (proj2 (attempt_failure coin history Math_sqrt Number_toString
                                      coinId coinData e)).
      * reflexivity.
      * destruct coinData; [discriminate Source | split; auto].
    + cbn. repeat split; try lra; repeat constructor; cbn; lra.
  - destruct (attempt_result coinId coinData data Source)
      as (risk & reward & Er & Ew & E).
    destruct (risk_factors_range data) as (risk' & Er' & Hrisk).
    rewrite Er in Er'. injection Er' as <-.
    destruct (reward_factors_range data (Hvol data eq_refl))
      as (reward' & Ew' & Hreward).
    rewrite Ew in Ew'. injection Ew' as <-.
    eexists. split; [exact E|].
    cbn [riskScore rewardScore confidence factors fst snd].
    pose proof (score_confidence_range data risk reward) as C.
    split; [apply Math_round_percent, risk_score_between; exact Hrisk|].
    split; [apply Math_round_percent, reward_score_between; exact Hreward|].
    split; [apply Math_round_percent; lra|].
    split; [exact Hrisk | exact Hreward].
Qed.

(** X14.  A confidence of zero marks the fallback.  [calculateScore]
    reports confidence 0 exactly when no coin was passed in and the
    fetch threw; every computed result has a confidence of at least
    30. *)
Theorem zero_confidence_marks_the_fallback
        (coinId : string) (coinData : option CoinDetail) :
  exists r,
    calculateScore coin history Math_sqrt Number_toString coinId coinData
    = inr r
    /\ (confidence r == 0
        <-> exists e, coinData = None /\ coin coinId = inl e)
    /\ (~ confidence r == 0 -> 30 <= confidence r <= 100).
Proof.
  destruct (match coinData with Some d => inr d | None => coin coinId end)
    as [e | data] eqn:Source.
  - assert (F : coinData = None /\ coin coinId = inl e).
    { destruct coinData; [discriminate Source | split; auto]. }
    exists safe_default. split; [|split].
    + unfold calculateScore.
      rewrite (proj2 (attempt_failure coin history Math_sqrt Number_toString
                                      coinId coinData e) F).
      reflexivity.
    + split; [intros _; exists e; exact F | intros _; reflexivity].
    + intros H. exfalso. apply H. reflexivity.
  - destruct (attempt_result coinId coinData data Source)
      as (risk & reward & _ & _ & E).
    eexists. split; [exact E|]. cbn [confidence].
    pose proof (score_confidence_range data risk reward) as C.
    pose proof (Math_round_range 30 100 _ C) as R.
    change (inject_Z 30) with 30 in R. change (inject_Z 100) with 100 in R.
    split; [|intros _; exact R].
    split.
    + intros Z0. lra.
    + intros (e & Hnone & Hcoin). subst coinData.
      rewrite Hcoin in Source. discriminate Source.
Qed.

(** X15.  A failing history call degrades the score instead of failing
    it: the volatility factor takes its neutral 50 and the confidence
    is at most 85. *)
Theorem history_failure_costs_confidence (data : CoinDetail) (e : string) :
  history (id data) "usd" 30 = inl e ->
  exists r,
    calculateScore coin history Math_sqrt Number_toString (id data)
                   (Some data) = inr r
    /\ volatility (fst (factors r)) = 50
    /\ 30 <= confidence r <= 85.
Proof.
  intros H.
  destruct (attempt_result (id data) (Some data) data eq_refl)
    as (risk & reward & Er & _ & E).
  destruct (history_failure_keeps_default history Math_sqrt data e H)
    as (risk' & Er' & V).
  rewrite Er in Er'. injection Er' as <-.
  eexists. split; [exact E|].
  cbn [factors fst confidence]. split; [exact V|].
  apply (Math_round_range 30 85).
  change (inject_Z 30) with 30. change (inject_Z 85) with 85.
  pose proof (score_confidence_range data risk reward) as [L _].
  split; [exact L|].
  unfold calculateConfidence. rewrite V.
  replace (Qeq_bool 50 50) with true by reflexivity.
  destruct (Qeq_bool (market_cap data) 0);
    destruct (Qeq_bool (total_volume data) 0);
    destruct (description data) as [[|c d]|];
    destruct (Qeq_bool (market_cap_rank data) 0);
    match goal with
    | |- Qmax 0 ?c <= _ =>
        destruct (Q.max_spec 0 c) as [[H1 H2] | [H1 H2]]; rewrite H2; lra
    end.
Qed.

End Collaborators.

Lemma calculateScore_result_in_range_witness :
  exists r,
    calculateScore Samples.coin_down Samples.history_down
                   (fun _ => 0) (fun _ => "?"%string)
                   "bitcoin" (Some Samples.bitcoin_detail) = inr r
    /\ 0 <= riskScore r <= 100
    /\ 0 <= rewardScore r <= 100
    /\ 0 <= confidence r <= 100
    /\ Forall (fun entry => 0 <= snd entry <= 100)
              (risk_entries (fst (factors r)))
    /\ Forall (fun entry => 0 <= snd entry <= 100)
              (reward_entries (snd (factors r))).
Proof.
  apply (calculateScore_result_in_range
           Samples.coin_down Samples.history_down
           (fun _ => 0) (fun _ => "?"%string)
           "bitcoin" (Some Samples.bitcoin_detail)).
  intros data H. injection H as <-. vm_compute. discriminate.
Defined.

Lemma history_failure_costs_confidence_witness :
  exists r,
    calculateScore Samples.coin_down Samples.history_down
                   (fun _ => 0) (fun _ => "?"%string)
                   (id Samples.bitcoin_detail) (Some Samples.bitcoin_detail)
    = inr r
    /\ volatility (fst (factors r)) = 50
    /\ 30 <= confidence r <= 85.
Proof.
  apply (history_failure_costs_confidence
           Samples.coin_down Samples.history_down
           (fun _ => 0) (fun _ => "?"%string) Samples.bitcoin_detail
           "HTTP 500: Internal Server Error"%string).
  reflexivity.
Defined.

(** ** Monotone tiers *)

Lemma Qleb_false (x y : Q) : Qleb x y = false -> y < x.
Proof.
  intros H. apply Qnot_le_lt. intros L.
  apply Qleb_iff in L. congruence.
Qed.

Ltac tier_cases :=
  repeat match goal with
         | |- context [Qeq_bool ?x ?y || Qleb ?a ?b] =>
             let E := fresh "E" in
             destruct (Qeq_bool x y) eqn:E;
             [apply Qeq_bool_iff in E | clear E]; cbn [orb]
         | |- context [Qleb ?a ?b] =>
             let E := fresh "E" in
             destruct (Qleb a b) eqn:E;
             [apply Qleb_iff in E | apply Qleb_false in E]
         end.

Lemma calculateMarketCapRisk_monotone (cap1 cap2 : Q) :
  cap1 <= cap2 ->
  calculateMarketCapRisk cap2 <= calculateMarketCapRisk cap1.
Proof.
  intros H. unfold calculateMarketCapRisk.
  unfold MEGA_CAP, LARGE_CAP, MID_CAP, SMALL_CAP, MICRO_CAP.
  tier_cases; lra.
Qed.

Lemma calculateLiquidityRisk_monotone (volume1 volume2 cap : Q) :
  volume1 <= volume2 ->
  calculateLiquidityRisk volume2 cap <= calculateLiquidityRisk volume1 cap.
Proof.
  intros H. unfold calculateLiquidityRisk.
  destruct (Qlt_le_dec 0 cap) as [Hc | Hc].
  - assert (R : volume1 / cap <= volume2 / cap).
    { apply Qle_shift_div_l; [exact Hc|].
      assert (E : volume1 / cap * cap == volume1) by (field; lra).
      rewrite E. exact H. }
    set (r1 := volume1 / cap) in *. set (r2 := volume2 / cap) in *.
    tier_cases; lra.
  - set (r1 := volume1 / cap) in *. set (r2 := volume2 / cap) in *.
    tier_cases; lra.
Qed.

(** X16.  Size and liquidity lower the risk, tier by tier: a larger
    market capitalisation never has a higher size risk, and, for a given
    capitalisation, a larger traded volume never has a higher liquidity
    risk. *)
Theorem size_and_liquidity_never_raise_risk
        (cap1 cap2 volume1 volume2 cap : Q) :
  cap1 <= cap2 -> volume1 <= volume2 ->
  calculateMarketCapRisk cap2 <= calculateMarketCapRisk cap1
  /\ calculateLiquidityRisk volume2 cap <= calculateLiquidityRisk volume1 cap.
Proof.
  intros Hc Hv. split.
  - apply calculateMarketCapRisk_monotone. exact Hc.
  - apply calculateLiquidityRisk_monotone. exact Hv.
Qed.

Lemma size_and_liquidity_never_raise_risk_witness :
  calculateMarketCapRisk 20000000000 <= calculateMarketCapRisk 500000000
  /\ calculateLiquidityRisk 90000000 1000000000
     <= calculateLiquidityRisk 4000000 1000000000.
Proof.
  apply (size_and_liquidity_never_raise_risk
           500000000 20000000000 4000000 90000000 1000000000).
  - vm_compute. discriminate.
  - vm_compute. discriminate.
Defined.

End RiskFactorFacts.
(* ================================================================== *)
(** * Candidates, satellites and the contribution plan *)
(* ================================================================== *)

Module SelectionFacts.

Import RankingEngine StarterPortfolio JSFacts PortfolioFacts FallbackFacts.

(** ** The candidate filter *)

Lemma filter_from_spec (intake : IntakeData) (policy : PolicyData)
      (coins : list CoinScore) :
  forall index coin,
    In coin (filter_from intake policy index coins) ->
    exists k,
      nth_error coins k = Some coin
      /\ keep_candidate intake policy (index + k) coin = true.
Proof.
  induction coins as [|c rest IH]; intros index coin Hin; simpl in Hin.
  - contradiction.
  - assert (Tail : In coin (filter_from intake policy (S index) rest) ->
                   exists k,
                     nth_error (c :: rest) k = Some coin
                     /\ keep_candidate intake policy (index + k) coin = true).
    { intros H. destruct (IH _ _ H) as (k & Hk & Hkeep).
      exists (S k). split; [exact Hk|].
      replace (index + S k)%nat with (S index + k)%nat by lia. exact Hkeep. }
    destruct (keep_candidate intake policy index c) eqn:K.
    + destruct Hin as [E | Hin]; [|apply Tail; exact Hin].
      subst c. exists 0%nat. split; [reflexivity|].
      rewrite Nat.add_0_r. exact K.
    + apply Tail. exact Hin.
Qed.

Lemma nth_error_in_firstn {A} (l : list A) (k n : nat) (x : A) :
  nth_error l k = Some x -> (k < n)%nat -> In x (firstn n l).
Proof.
  revert k n. induction l as [|y l IH]; intros k n H Hk.
  - destruct k; discriminate H.
  - destruct n as [|n]; [lia|].
    destruct k as [|k].
    + injection H as ->. left. reflexivity.
    + right. apply (IH k); [exact H | lia].
Qed.

(** X17.  What the candidate filter lets through.  Every candidate comes
    from the first [liquidityRankLimit] places of the ranking, is
    neither bitcoin nor ethereum nor one of the five stablecoins, is not
    on the user's exclusion list, meets the minimum market
    capitalisation, is not below the minimum volume ratio, and sits in a
    risk bucket whose cap is not zero. *)
Theorem filterCandidates_keeps_only_eligible_coins
        (rankedCoins : list CoinScore) (intake : IntakeData)
        (policy : PolicyData) (coin : CoinScore) :
  In coin (filterCandidates rankedCoins intake policy) ->
  In coin (firstn (Z.to_nat (liquidityRankLimit
                               (riskProfiles (riskTolerance intake))))
                  rankedCoins)
  /\ includes ["bitcoin"; "ethereum"]%string (coinId coin) = false
  /\ includes ["usd-coin"; "tether"; "dai"; "true-usd"; "binance-usd"]%string
              (coinId coin) = false
  /\ includes (excluded_coins (exclusions intake)) (coinId coin) = false
  /\ minMarketCapUsd (liquidity intake) <= marketCap (market coin)
  /\ lt (Num (volume24h (market coin)) / Num (marketCap (market coin)))%js
        (Num (minVolToMcap (liquidity intake))) = false
  /\ ~ cap_of (bucketCaps policy) (bucket_of coin) == 0.
Proof.
  intros Hin.
  destruct (filter_from_spec intake policy rankedCoins 0 coin Hin)
    as (k & Hk & Hkeep).
  cbn [Nat.add] in Hkeep. unfold keep_candidate in Hkeep.
  destruct (Qltb (marketCap (market coin))
                 (minMarketCapUsd (liquidity intake))) eqn:E1;
    [discriminate Hkeep|].
  destruct (lt _ (Num (minVolToMcap (liquidity intake)))) eqn:E2;
    [discriminate Hkeep|].
  destruct (_ <? _)%Z eqn:E3; [discriminate Hkeep|].
  destruct (includes (excluded_coins (exclusions intake)) (coinId coin))
    eqn:E4; [discriminate Hkeep|].
  destruct (Qeq_bool _ 0) eqn:E5; [discriminate Hkeep|].
  destruct (includes ["bitcoin"; "ethereum"]%string (coinId coin)) eqn:E6;
    [discriminate Hkeep|].
  cbn [orb] in Hkeep.
  destruct (includes
              ["usd-coin"; "tether"; "dai"; "true-usd"; "binance-usd"]%string
              (coinId coin)) eqn:E7; [discriminate Hkeep|].
  apply Z.ltb_ge in E3. apply Qltb_false_iff in E1.
  apply Qeq_bool_false_iff in E5.
  repeat match goal with |- _ /\ _ => split end;
    try reflexivity; try assumption.
  apply (nth_error_in_firstn _ k); [exact Hk | lia].
Qed.

Lemma filterCandidates_keeps_only_eligible_coins_witness :
  In (Samples.volatile_coin "dogecoin" "DOGE" "Dogecoin")
     (firstn (Z.to_nat (liquidityRankLimit
                          (riskProfiles
                             (riskTolerance Samples.aggressive_intake))))
             Samples.volatile_ranking)
  /\ includes ["bitcoin"; "ethereum"]%string "dogecoin" = false
  /\ includes ["usd-coin"; "tether"; "dai"; "true-usd"; "binance-usd"]%string
              "dogecoin" = false
  /\ includes (excluded_coins (exclusions Samples.aggressive_intake))
              "dogecoin" = false
  /\ minMarketCapUsd (liquidity Samples.aggressive_intake) <= 5000000000
  /\ lt (Num 500000000 / Num 5000000000)%js
        (Num (minVolToMcap (liquidity Samples.aggressive_intake))) = false
  /\ ~ cap_of (bucketCaps (buildPolicy Samples.aggressive_intake))
              (bucket_of (Samples.volatile_coin "dogecoin" "DOGE" "Dogecoin"))
       == 0.
Proof.
  apply (filterCandidates_keeps_only_eligible_coins
           Samples.volatile_ranking Samples.aggressive_intake
           (buildPolicy Samples.aggressive_intake)
           (Samples.volatile_coin "dogecoin" "DOGE" "Dogecoin")).
  left. reflexivity.
Defined.

(** ** Order and number of the capped satellites *)



Lemma in_prefix {A} (l : list A) (k : nat) (x : A) :
  In x (firstn k l) -> In x l.
Proof.
  revert k. induction l as [|y l IH]; intros k H.
  - rewrite firstn_nil in H. contradiction.
  - destruct k as [|k]; [contradiction|].
    destruct H as [E | H]; [left; exact E | right; apply (IH k); exact H].
Qed.





(** ** The resolved policy *)

Lemma profile_parts_sum (r : RiskTolerance) :
  profile_coreTargetPct (riskProfiles r)
  + profile_stableBufferPct (riskProfiles r)
  + profile_satelliteTargetPct (riskProfiles r) == 1
  /\ profile_stableBufferPct (riskProfiles r) <= 0.15
  /\ 0.40 <= profile_coreTargetPct (riskProfiles r) <= 0.75
  /\ 0 < profile_satelliteTargetPct (riskProfiles r)
  /\ profile_stableBufferPct (riskProfiles r)
     <= profile_coreTargetPct (riskProfiles r) - 0.3.
Proof. destruct r; repeat split; discriminate. Qed.



(** X20.  The satellite target of the resolved policy is negative
    exactly when the requested stable buffer exceeds 70 percent: the
    core keeps its floor of 0.30 and the buffer is not limited. *)
Theorem satellite_target_negative_iff_buffer_above_70 (intake : IntakeData) :
  satelliteTargetPct (buildPolicy intake) < 0
  <-> 70 < stablecoinBufferPct intake.
Proof.
  destruct (profile_parts_sum (riskTolerance intake))
    as (Hsum & Hstable & Hcore & Hsat & Hfloor).
  cbn [coreTargetPct stableBufferPct satelliteTargetPct buildPolicy].
  set (base := riskProfiles (riskTolerance intake)) in *.
  assert (B : stablecoinBufferPct intake / 100 * 100
              == stablecoinBufferPct intake) by (field; discriminate).
  set (b := stablecoinBufferPct intake / 100) in *.
  set (stable_ := Qmax b (profile_stableBufferPct base)).
  assert (S1 : b <= stable_) by apply Q.le_max_l.
  assert (S2 : profile_stableBufferPct base <= stable_) by apply Q.le_max_r.
  assert (S3 : stable_ == b \/ stable_ == profile_stableBufferPct base).
  { destruct (Q.max_spec b (profile_stableBufferPct base)) as [[_ E] | [_ E]];
      [right | left]; exact E. }
  assert (C1 : 0.3 <= Qmax 0.3 (profile_coreTargetPct base - stable_))
    by apply Q.le_max_l.
  assert (C2 : Qmax 0.3 (profile_coreTargetPct base - stable_) == 0.3
               \/ Qmax 0.3 (profile_coreTargetPct base - stable_)
                  == profile_coreTargetPct base - stable_).
  { destruct (Q.max_spec 0.3 (profile_coreTargetPct base - stable_))
      as [[_ E] | [_ E]]; [right | left]; exact E. }
  set (core_ := Qmax 0.3 (profile_coreTargetPct base - stable_)) in *.
  split; intros H.
  - destruct C2 as [C2 | C2]; destruct S3 as [S3 | S3]; lra.
  - lra.
Qed.

(** ** The final normalisation *)

Lemma combine_ids (core_ satellites : list AllocationItem)
      (policy : PolicyData) (intake : IntakeData) :
  map item_coinId
      (combineAndValidateAllocations core_ satellites policy intake)
  = map item_coinId (core_ ++ satellites).
Proof.
  unfold combineAndValidateAllocations.
  destruct (Qltb _ _); [|reflexivity].
  rewrite map_map. reflexivity.
Qed.

(** X21.  Composing twice changes nothing.  When the rows do not sum to
    zero, the composed allocation keeps the rows and their order (only
    the percentages are rescaled), and composing the result again gives
    it back unchanged. *)
Theorem composition_is_idempotent
        (core_ satellites : list AllocationItem)
        (policy : PolicyData) (intake : IntakeData) :
  ~ total_allocation (core_ ++ satellites) == 0 ->
  map item_coinId
      (combineAndValidateAllocations core_ satellites policy intake)
  = map item_coinId (core_ ++ satellites)
  /\ combineAndValidateAllocations
       (combineAndValidateAllocations core_ satellites policy intake) []
       policy intake
     = combineAndValidateAllocations core_ satellites policy intake.
Proof.
  intros Hnz. split; [apply combine_ids|].
  pose proof (combine_total_in_range core_ satellites policy intake Hnz)
    as [L U].
  rewrite (combine_not_rescaled
             (combineAndValidateAllocations core_ satellites policy intake)).
  - apply app_nil_r.
  - rewrite app_nil_r. apply Qabs_Qle_condition. lra.
Qed.

Lemma composition_is_idempotent_witness :
  map item_coinId
      (combineAndValidateAllocations
         Samples.three_rows [] (buildPolicy Samples.balanced_intake)
         Samples.balanced_intake)
  = map item_coinId (Samples.three_rows ++ [])
  /\ combineAndValidateAllocations
       (combineAndValidateAllocations
          Samples.three_rows [] (buildPolicy Samples.balanced_intake)
          Samples.balanced_intake) []
       (buildPolicy Samples.balanced_intake) Samples.balanced_intake
     = combineAndValidateAllocations
         Samples.three_rows [] (buildPolicy Samples.balanced_intake)
         Samples.balanced_intake.
Proof.
  apply (composition_is_idempotent
           Samples.three_rows [] (buildPolicy Samples.balanced_intake)
           Samples.balanced_intake).
  vm_compute. discriminate.
Defined.

(** ** The contribution plan *)

Lemma Math_round_bounds (x : Q) :
  x - (1 # 2) < Math_round x /\ Math_round x <= x + (1 # 2).
Proof.
  unfold Math_round. split.
  - pose proof (Qlt_floor (x + (1 # 2))) as H.
    rewrite inject_Z_plus in H. change (inject_Z 1) with 1 in H. lra.
  - apply Qfloor_le.
Qed.

Lemma dca_amount_facts (share : Q) :
  5 <= Qmax (Math_round (share / 5) * 5) 5
  /\ (exists k : Z, Qmax (Math_round (share / 5) * 5) 5 == 5 * inject_Z k)
  /\ share - (5 # 2) < Qmax (Math_round (share / 5) * 5) 5
  /\ (0 <= share -> Qmax (Math_round (share / 5) * 5) 5 <= share + 5).
Proof.
  pose proof (Math_round_bounds (share / 5)) as [L U].
  assert (E : share / 5 * 5 == share) by (field; discriminate).
  set (q := share / 5) in *.
  split; [apply Q.le_max_r|]. split; [|split].
  - destruct (Q.max_spec (Math_round q * 5) 5) as [[_ E1] | [_ E1]].
    + exists 1%Z. rewrite E1. reflexivity.
    + exists (Qfloor (q + (1 # 2))). rewrite E1. unfold Math_round. ring.
  - apply Qlt_le_trans with (Math_round q * 5); [lra | apply Q.le_max_l].
  - intros Hs. apply Q.max_lub; lra.
Qed.

Lemma dca_total_bounds (allocation : list AllocationItem) (intake : IntakeData) :
  monthlyContributionUsd intake * pct_total allocation
  - (5 # 2) * of_nat (length allocation)
  <= dca_total (addDcaPlans allocation intake)
  /\ (0 <= monthlyContributionUsd intake ->
      Forall (fun item => 0 <= allocationPct item) allocation ->
      dca_total (addDcaPlans allocation intake)
      <= monthlyContributionUsd intake * pct_total allocation
         + 5 * of_nat (length allocation)).
Proof.
  unfold dca_total, pct_total, addDcaPlans. rewrite map_map.
  cbn [dca with_dca amountUsd].
  induction allocation as [|item rest IH].
  - simpl. change (of_nat 0) with 0. split; [lra | intros; lra].
  - cbn [map total length]. rewrite IndicatorFacts.of_nat_S.
    destruct IH as [IHl IHu].
    destruct (dca_amount_facts
                (allocationPct item * monthlyContributionUsd intake))
      as (_ & _ & Hl & Hu).
    split.
    + lra.
    + intros Hm Hall. inversion Hall as [|? ? Hitem Hrest]; subst.
      specialize (IHu Hm Hrest).
      assert (0 <= allocationPct item * monthlyContributionUsd intake)
        by (apply Qmult_le_0_compat; assumption).
      specialize (Hu H). lra.
Qed.

(** X22.  The contribution plan.  Every row gets a monthly amount that
    is a whole multiple of 5 dollars and at least 5, with cadence
    "Monthly", and keeps its percentage; for a budget and percentages
    that are not negative, the amounts add up to no less than the
    budget's share minus 2.50 per row and to no more than that share
    plus 5 per row. *)
Theorem contribution_plan_rounds_to_five_dollars
        (allocation : list AllocationItem) (intake : IntakeData) :
  0 <= monthlyContributionUsd intake ->
  Forall (fun item => 0 <= allocationPct item) allocation ->
  Forall (fun row =>
            5 <= amountUsd (dca row)
            /\ (exists k : Z, amountUsd (dca row) == 5 * inject_Z k)
            /\ cadence (dca row) = "Monthly"%string)
         (addDcaPlans allocation intake)
  /\ map allocationPct (addDcaPlans allocation intake)
     = map allocationPct allocation
  /\ monthlyContributionUsd intake * pct_total allocation
     - (5 # 2) * of_nat (length allocation)
     <= dca_total (addDcaPlans allocation intake)
  /\ dca_total (addDcaPlans allocation intake)
     <= monthlyContributionUsd intake * pct_total allocation
        + 5 * of_nat (length allocation).
Proof.
  intros Hm Hall.
  destruct (dca_total_bounds allocation intake) as [L U].
  split; [|split; [|split]].
  - unfold addDcaPlans. apply Forall_map. apply Forall_forall.
    intros item _. cbn [dca with_dca amountUsd cadence].
    destruct (dca_amount_facts
                (allocationPct item * monthlyContributionUsd intake))
      as (H5 & Hk & _).
    split; [exact H5 | split; [exact Hk | reflexivity]].
  - unfold addDcaPlans. rewrite map_map. reflexivity.
  - exact L.
  - apply U; assumption.
Qed.

Lemma contribution_plan_rounds_to_five_dollars_witness :
  dca_total (addDcaPlans Samples.three_rows Samples.balanced_intake)
  <= monthlyContributionUsd Samples.balanced_intake
     * pct_total Samples.three_rows
     + 5 * of_nat (length Samples.three_rows).
Proof.
  apply (contribution_plan_rounds_to_five_dollars
           Samples.three_rows Samples.balanced_intake).
  - vm_compute. discriminate.
  - unfold Samples.three_rows. repeat constructor; vm_compute; discriminate.
Defined.

(** ** The rule-based fallback *)

Lemma total_app (l1 l2 : list Q) : total (l1 ++ l2) == total l1 + total l2.
Proof.
  induction l1 as [|x l1 IH]; simpl; [ring|]. rewrite IH. ring.
Qed.

Lemma bucket_sum_app (b : Bucket) (l1 l2 : list AllocationItem) :
  bucket_sum b (l1 ++ l2) == bucket_sum b l1 + bucket_sum b l2.
Proof.
  unfold bucket_sum. rewrite filter_app, map_app. apply total_app.
Qed.

Section Formatting.

Variable Number_toFixed : Q -> nat -> string.

(** The loop appends satellite rows of the candidates it walks, and
    never lets a bucket pass its cap by a whole row. *)
Lemma fallback_loop_facts (policy : PolicyData) (targetPerSat : Q)
      (coins : list CoinScore) :
  0 <= Qmin targetPerSat (perAssetCapPct policy) ->
  forall (satellites : list AllocationItem) (limits : Bucket -> Q),
    (forall b, limits b == bucket_sum b satellites) ->
    (forall b, limits b <= cap_of (bucketCaps policy) b
                           + Qmin targetPerSat (perAssetCapPct policy)) ->
    exists rows,
      fallback_loop Number_toFixed policy targetPerSat coins satellites limits
      = satellites ++ rows
      /\ (forall b, bucket_sum b (satellites ++ rows)
                    <= cap_of (bucketCaps policy) b
                       + Qmin targetPerSat (perAssetCapPct policy)).
Proof.
  intros Ha.
  induction coins as [|coin rest IH]; intros satellites limits Hsum Hcap.
  - exists []. cbn [fallback_loop]. rewrite app_nil_r.
    split; [reflexivity|]. intros b. rewrite <- Hsum. apply Hcap.
  - cbn [fallback_loop].
    destruct (Qltb (limits (bucket_of coin))
                   (cap_of (bucketCaps policy) (bucket_of coin))) eqn:Room.
    + apply Qltb_iff in Room.
      match goal with
      | |- context [fallback_loop _ _ _ _ (satellites ++ [?r]) ?lim] =>
          destruct (IH (satellites ++ [r]) lim) as (rows & E & Hall);
          [ | | exists (r :: rows)]
      end.
      * intros b. rewrite bucket_sum_app. unfold add_limit.
        pose proof (Hsum b) as Hb. unfold bucket_sum at 2.
        cbn [filter in_bucket bucket].
        destruct b, (bucket_of coin);
          cbn [in_bucket bucket Bucket_eqb map total allocationPct]; lra.
      * intros b. unfold add_limit.
        destruct (Bucket_eqb b (bucket_of coin)) eqn:Eb.
        -- apply Bucket_eqb_eq in Eb. subst b. lra.
        -- apply Hcap.
      * rewrite E, <- app_assoc. split; [reflexivity|].
        intros b. specialize (Hall b). rewrite <- app_assoc in Hall.
        exact Hall.
    + destruct (IH satellites limits Hsum Hcap) as (rows & E & Hall).
      exists rows. split; assumption.
Qed.

Lemma fallback_loop_origin (policy : PolicyData) (targetPerSat : Q)
      (coins : list CoinScore) :
  forall (satellites : list AllocationItem) (limits : Bucket -> Q),
  exists rows,
    fallback_loop Number_toFixed policy targetPerSat coins satellites limits
    = satellites ++ rows
    /\ Forall (fun s => role s = satellite
                        /\ In (item_coinId s) (map coinId coins)) rows.
Proof.
  induction coins as [|coin rest IH]; intros satellites limits.
  - exists []. cbn [fallback_loop]. rewrite app_nil_r.
    split; [reflexivity | constructor].
  - cbn [fallback_loop].
    assert (Weaken :
              forall rows,
                Forall (fun s => role s = satellite
                                 /\ In (item_coinId s) (map coinId rest)) rows ->
                Forall (fun s => role s = satellite
                                 /\ In (item_coinId s)
                                       (map coinId (coin :: rest))) rows).
    { intros rows H. eapply Forall_impl; [|exact H].
      intros s [Hr Hi]. split; [exact Hr | right; exact Hi]. }
    destruct (Qltb (limits (bucket_of coin))
                   (cap_of (bucketCaps policy) (bucket_of coin))).
    + match goal with
      | |- context [fallback_loop _ _ _ _ (satellites ++ [?r]) ?lim] =>
          destruct (IH (satellites ++ [r]) lim) as (rows & E & Hall);
          exists (r :: rows)
      end.
      rewrite E, <- app_assoc. split; [reflexivity|].
      constructor; [|apply Weaken; exact Hall].
      split; [reflexivity | left; reflexivity].
    + destruct (IH satellites limits) as (rows & E & Hall).
      exists rows. split; [exact E | apply Weaken; exact Hall].
Qed.

(** X23.  The fallback always proposes something it may propose.  With
    at least one satellite slot and a non-empty candidate list, the
    rule-based selection is not empty; it holds at most [max - 3] rows,
    every row is a satellite taken from the candidates, all rows carry
    the same share, the smaller of the per-slot target and the per-asset
    cap. *)
Theorem fallback_selection_shape
        (rankedCoins : list CoinScore) (intake : IntakeData) :
  filterCandidates rankedCoins intake (buildPolicy intake) <> [] ->
  (4 <= snd (holdingsRange intake))%Z ->
  fallbackSatelliteSelection
    Number_toFixed (filterCandidates rankedCoins intake (buildPolicy intake))
    (buildPolicy intake) <> []
  /\ (Z.of_nat
        (length (fallbackSatelliteSelection
                   Number_toFixed
                   (filterCandidates rankedCoins intake (buildPolicy intake))
                   (buildPolicy intake)))
      <= snd (holdingsRange intake) - 3)%Z
  /\ Forall (fun s =>
               role s = satellite
               /\ In (item_coinId s)
                     (map coinId
                          (filterCandidates rankedCoins intake
                                            (buildPolicy intake)))
               /\ allocationPct s
                  = Qmin (satelliteTargetPct (buildPolicy intake)
                          / inject_Z (snd (holdingsRange intake) - 3))
                         (perAssetCapPct (buildPolicy intake))
               /\ allocationPct s <= perAssetCapPct (buildPolicy intake))
            (fallbackSatelliteSelection
               Number_toFixed
               (filterCandidates rankedCoins intake (buildPolicy intake))
               (buildPolicy intake)).
Proof.
  intros Hne Hslots.
  split; [apply (fallback_nonempty Number_toFixed rankedCoins intake Hne Hslots)|].
  set (candidates := filterCandidates rankedCoins intake (buildPolicy intake)).
  unfold fallbackSatelliteSelection.
  change (snd (holdingsTargetRange (buildPolicy intake)))
    with (snd (holdingsRange intake)).
  set (slots := (snd (holdingsRange intake) - 3)%Z).
  rewrite slice_zero_nonneg by (unfold slots; lia).
  set (t := satelliteTargetPct (buildPolicy intake) / inject_Z slots).
  destruct (fallback_loop_rows Number_toFixed (buildPolicy intake) t
              (firstn (Z.to_nat slots) candidates) [] (fun _ => 0))
    as (rows & E & Hall & Hlen).
  destruct (fallback_loop_origin (buildPolicy intake) t
              (firstn (Z.to_nat slots) candidates) [] (fun _ => 0))
    as (rows' & E' & Horigin).
  rewrite E in E'. cbn [app] in E'. subst rows'.
  rewrite E. cbn [app].
  rewrite length_firstn in Hlen.
  split; [lia|].
  apply Forall_forall. intros s Hs.
  pose proof (proj1 (Forall_forall _ rows) Hall s Hs) as Hpct.
  pose proof (proj1 (Forall_forall _ rows) Horigin s Hs) as [Hrole Hin].
  cbv beta in Hpct.
  split; [exact Hrole|]. split; [|split; [exact Hpct|]].
  - apply in_map_iff in Hin. destruct Hin as (c & Ec & Hc).
    apply in_map_iff. exists c. split; [exact Ec|].
    apply (in_prefix _ (Z.to_nat slots)). exact Hc.
  - rewrite Hpct. apply Q.le_min_r.
Qed.

(** X24.  How far the fallback can pass a bucket cap.  With a satellite
    target that is not negative and at least one satellite slot, each
    bucket of the rule-based selection holds at most its cap plus one
    row's share (the room test is made before a row is added), hence at
    most its cap plus the per-asset cap. *)
Theorem fallback_overshoot_is_below_one_row
        (candidates : list CoinScore) (intake : IntakeData) (b : Bucket) :
  0 <= satelliteTargetPct (buildPolicy intake) ->
  (4 <= snd (holdingsRange intake))%Z ->
  bucket_total b (fallbackSatelliteSelection Number_toFixed candidates
                                             (buildPolicy intake))
  <= cap_of (bucketCaps (buildPolicy intake)) b
     + Qmin (satelliteTargetPct (buildPolicy intake)
             / inject_Z (snd (holdingsRange intake) - 3))
            (perAssetCapPct (buildPolicy intake))
  /\ bucket_total b (fallbackSatelliteSelection Number_toFixed candidates
                                                (buildPolicy intake))
     <= cap_of (bucketCaps (buildPolicy intake)) b
        + perAssetCapPct (buildPolicy intake).
Proof.
  intros Hsat Hslots.
  rewrite bucket_total_sum.
  unfold fallbackSatelliteSelection.
  change (snd (holdingsTargetRange (buildPolicy intake)))
    with (snd (holdingsRange intake)).
  set (slots := (snd (holdingsRange intake) - 3)%Z).
  set (t := satelliteTargetPct (buildPolicy intake) / inject_Z slots).
  assert (Hm : 0 < inject_Z slots).
  { change 0 with (inject_Z 0). rewrite <- Zlt_Qlt. unfold slots. lia. }
  assert (Ht : 0 <= t).
  { unfold t. apply Qle_shift_div_l; [exact Hm | lra]. }
  destruct (profile_core_split (riskTolerance intake))
    as (_ & _ & _ & _ & _ & Hasset).
  change (profile_perAssetCapPct (riskProfiles (riskTolerance intake)))
    with (perAssetCapPct (buildPolicy intake)) in Hasset.
  assert (Ha : 0 <= Qmin t (perAssetCapPct (buildPolicy intake))).
  { apply Q.min_glb; lra. }
  destruct (fallback_loop_facts (buildPolicy intake) t
              (slice candidates 0 slots) Ha [] (fun _ => 0))
    as (rows & E & Hall).
  - intros b'. reflexivity.
  - intros b'.
    pose proof (profile_caps_nonneg (riskTolerance intake) b') as Hc.
    change (cap_of (profile_bucketCaps (riskProfiles (riskTolerance intake)))
                   b')
      with (cap_of (bucketCaps (buildPolicy intake)) b') in Hc.
    lra.
  - rewrite E. specialize (Hall b).
    pose proof (Q.le_min_r t (perAssetCapPct (buildPolicy intake))).
    split; [exact Hall | lra].
Qed.

(** X25.  End to end, the allocation of a generated portfolio sums to
    one within one percent: on the advisory path when no proposal is
    negative, and on the fallback path (taken when the advisory call or
    its parsing fails) when the holdings range leaves room for the three
    core rows; every row then carries a monthly amount of at least 5
    dollars. *)
Theorem generated_portfolio_sums_to_one
        (rankedCoins : list CoinScore)
        (advisory : string + list AdvisorySatellite) (intake : IntakeData) :
  match advisory with
  | inr parsed => Forall (fun sat => 0 <= allocation_pct sat) parsed
  | inl _ => (3 <= snd (holdingsRange intake))%Z
  end ->
  0.99 <= total_allocation
            (allocation
               (generateStarterPortfolio Number_toFixed rankedCoins
                                         advisory intake))
       <= 1.01
  /\ Forall (fun row => 5 <= amountUsd (dca row))
            (allocation
               (generateStarterPortfolio Number_toFixed rankedCoins
                                         advisory intake))
  /\ response_policy
       (generateStarterPortfolio Number_toFixed rankedCoins advisory intake)
     = buildPolicy intake.
Proof.
  intros H. split; [|split].
  - apply generated_allocation_sums_to_one. exact H.
  - unfold generateStarterPortfolio. cbn [allocation].
    unfold addDcaPlans. apply Forall_map. apply Forall_forall.
    intros item _. cbn [dca with_dca amountUsd]. apply Q.le_max_r.
  - reflexivity.
Qed.

(** X26.  An advisory answer with no satellites is taken at its word.
    The fallback does not run, whatever the candidates are, and the
    portfolio holds exactly the three core rows -- bitcoin, ethereum and
    the stablecoin -- in that order. *)
Theorem empty_advisory_gives_the_core_only
        (rankedCoins : list CoinScore) (intake : IntakeData) :
  map (fun row => (item_coinId row, role row))
      (allocation
         (generateStarterPortfolio Number_toFixed rankedCoins (inr [])
                                   intake))
  = [ ("bitcoin"%string, core); ("ethereum"%string, core);
      ("usd-coin"%string, stable) ].
Proof.
  unfold generateStarterPortfolio. cbn [allocation].
  rewrite empty_advisory_is_not_a_failure.
  unfold addDcaPlans. rewrite map_map. cbn [item_coinId role with_dca].
  unfold combineAndValidateAllocations, buildCoreAllocations.
  rewrite (proj2 (Qltb_iff _ _) (buildPolicy_stable_positive intake)).
  destruct (Qltb 0.01 _); reflexivity.
Qed.

End Formatting.

Lemma fallback_selection_shape_witness :
  fallbackSatelliteSelection
    (fun _ _ => "?"%string)
    (filterCandidates Samples.volatile_ranking Samples.aggressive_intake
                      (buildPolicy Samples.aggressive_intake))
    (buildPolicy Samples.aggressive_intake) <> [].
Proof.
  apply (fallback_selection_shape
           (fun _ _ => "?"%string)
           Samples.volatile_ranking Samples.aggressive_intake).
  - vm_compute. discriminate.
  - simpl. lia.
Defined.

Lemma fallback_overshoot_is_below_one_row_witness :
  bucket_total High
    (fallbackSatelliteSelection
       (fun _ _ => "?"%string) Samples.volatile_ranking
       (buildPolicy Samples.aggressive_intake))
  <= cap_of (bucketCaps (buildPolicy Samples.aggressive_intake)) High
     + perAssetCapPct (buildPolicy Samples.aggressive_intake).
Proof.
  apply (fallback_overshoot_is_below_one_row
           (fun _ _ => "?"%string)
           Samples.volatile_ranking Samples.aggressive_intake High).
  - vm_compute. discriminate.
  - simpl. lia.
Defined.

Lemma generated_portfolio_sums_to_one_witness :
  0.99 <= total_allocation
            (allocation
               (generateStarterPortfolio
                  (fun _ _ => "?"%string) Samples.volatile_ranking
                  (inl "Unexpected end of JSON input"%string)
                  Samples.aggressive_intake))
       <= 1.01.
Proof.
  apply (generated_portfolio_sums_to_one
           (fun _ _ => "?"%string) Samples.volatile_ranking
           (inl "Unexpected end of JSON input"%string)
           Samples.aggressive_intake).
  simpl. lia.
Defined.

End SelectionFacts.
